(** * Clustering utilities of vir_to_host: a shallow embedding

    This development embeds [utils/clustering_utils.py] (class
    [ClusteringUtils]) and states the properties of its distance metric,
    outlier detectors, similarity builders, CD-HIT cluster assignment and
    centroid selection.

    Conventions of the embedding.
    - A Python [float] / [numpy.float64] is a [float64]: [NaN], a signed
      infinity, or a finite value carried as an exact rational.  Rounding and
      signed zeros are not modelled; comparisons follow IEEE 754 (every
      comparison with [NaN] is false).  A statement that depends on the
      value of an arithmetic result, and not only on comparisons or on the
      shape of what is returned, is made for inputs on which the operations
      are exact in double precision.  A decimal literal such as [0.7] is
      the rational 7/10: no double lies strictly between 7/10 and the double
      nearest to it, so a double compares with the literal as its value
      compares with 7/10.
    - A Python call either returns or raises: [result A].
    - Code that touches the file system or runs a program threads a [world]
      through the state-and-exception monad [M].  Paths are compared as
      strings; reading a missing file fails, creating directories and
      writing files succeed.
    - Third-party behaviour (Biopython readers, pandas CSV I/O, pickle,
      scipy's chi-square quantile, the shell) is collected in the record
      [externals]; every theorem holds for every choice of it. *)

From Stdlib Require Import QArith Qcanon ZArith String Ascii List Sorted.
From stdpp Require Import base numbers gmap strings list pretty countable.

Local Open Scope string_scope.
Local Open Scope list_scope.
Local Open Scope nat_scope.

(** ** Numbers *)

Inductive float64 : Type :=
  | NaN
  | Inf (neg : bool)
  | Fin (q : Qc).

Definition Qc_negb (q : Qc) : bool := bool_decide (q < 0)%Qc.
Definition Qc_is0 (q : Qc) : bool := bool_decide (q = 0%Qc).

Definition f_zero : float64 := Fin 0%Qc.
Definition f_one : float64 := Fin 1%Qc.
Definition of_Z (z : Z) : float64 := Fin (Qc_of_Z z).
Definition of_nat (n : nat) : float64 := of_Z (Z.of_nat n).
(** decimal literal [num / den], e.g. [0.7] is [lit 7 10] *)
Definition lit (num : Z) (den : positive) : float64 := Fin (Q2Qc (num # den)).

Definition f_opp (x : float64) : float64 :=
  match x with
  | NaN => NaN
  | Inf b => Inf (negb b)
  | Fin q => Fin (- q)%Qc
  end.

Definition f_add (x y : float64) : float64 :=
  match x, y with
  | NaN, _ | _, NaN => NaN
  | Inf b, Inf b' => if Bool.eqb b b' then Inf b else NaN
  | Inf b, Fin _ | Fin _, Inf b => Inf b
  | Fin a, Fin b => Fin (a + b)%Qc
  end.

Definition f_sub (x y : float64) : float64 := f_add x (f_opp y).

Definition f_mul (x y : float64) : float64 :=
  match x, y with
  | NaN, _ | _, NaN => NaN
  | Inf b, Inf b' => Inf (xorb b b')
  | Inf b, Fin q | Fin q, Inf b =>
      if Qc_is0 q then NaN else Inf (xorb b (Qc_negb q))
  | Fin a, Fin b => Fin (a * b)%Qc
  end.

Definition f_div (x y : float64) : float64 :=
  match x, y with
  | NaN, _ | _, NaN => NaN
  | Inf _, Inf _ => NaN
  | Inf b, Fin q => Inf (xorb b (Qc_negb q))
  | Fin _, Inf _ => Fin 0%Qc
  | Fin a, Fin b =>
      if Qc_is0 b then (if Qc_is0 a then NaN else Inf (Qc_negb a))
      else Fin (a / b)%Qc
  end.

(** Python's [x < y], [x > y], [x <= y], [x == y] on floats *)
Definition f_ltb (x y : float64) : bool :=
  match x, y with
  | NaN, _ | _, NaN => false
  | Inf b, Inf b' => b && negb b'
  | Inf b, Fin _ => b
  | Fin _, Inf b => negb b
  | Fin a, Fin b => bool_decide (a < b)%Qc
  end.

Definition f_gtb (x y : float64) : bool := f_ltb y x.

Definition f_eqb (x y : float64) : bool :=
  match x, y with
  | Inf b, Inf b' => Bool.eqb b b'
  | Fin a, Fin b => bool_decide (a = b)
  | _, _ => false
  end.

Definition f_leb (x y : float64) : bool := f_ltb x y || f_eqb x y.

Definition is_nan (x : float64) : bool :=
  match x with NaN => true | _ => false end.

Definition is_finite (x : float64) : bool :=
  match x with Fin _ => true | _ => false end.

(** [np.sum] / [sum] of a sequence of floats *)
Definition f_sum (l : list float64) : float64 := fold_left f_add l f_zero.

(** ** Outcomes of a Python call *)

Inductive exn : Type :=
  | IndexError
  | KeyError
  | ValueError
  | TypeError
  | AttributeError
  | RuntimeError
  | LinAlgError
  | FileNotFoundError
  | OSError
  | SystemExit.

Inductive result (A : Type) : Type :=
  | Ok (a : A)
  | Raise (e : exn).
Arguments Ok {A} a.
Arguments Raise {A} e.

Definition rbind {A B} (r : result A) (k : A -> result B) : result B :=
  match r with
  | Ok a => k a
  | Raise e => Raise e
  end.

Fixpoint rmapM {A B} (f : A -> result B) (l : list A) : result (list B) :=
  match l with
  | [] => Ok []
  | x :: l' =>
      rbind (f x) (fun y => rbind (rmapM f l') (fun ys => Ok (y :: ys)))
  end.

(** ** DistanceMetric *)

(** [Levenshtein.distance]: unit-cost insertions, deletions, substitutions *)
Fixpoint lev (s : string) : string -> nat :=
  fix lev_s (t : string) : nat :=
    match s, t with
    | EmptyString, _ => String.length t
    | _, EmptyString => String.length s
    | String a s', String b t' =>
        Nat.min (S (lev s' t))
          (Nat.min (S (lev_s t'))
                   ((if Ascii.eqb a b then 0 else 1) + lev s' t'))
    end.

(** [get_pairwise_alignment_distance].  On two [str] arguments neither
    [lev], [len] nor the numpy division raises (numpy warns and yields
    [nan] on [0 / 0]), so the [except] branch is not entered. *)
Definition get_pairwise_alignment_distance (seq1 seq2 : string) : float64 :=
  f_div (of_nat (lev seq1 seq2))
        (of_nat (Nat.max (String.length seq1) (String.length seq2))).

(** ** RepresentativeSelector *)

(** One row of the [elements] dataframe; a missing sequence is [None]. *)
Record element : Type := {
  accession : string;
  taxon_name : string;
  sequence : option string;
}.

(** One row of the dataframe built by [compute_pairwise_sequence_distances]. *)
Record distance_row : Type := {
  element_1 : string;
  element_2 : string;
  distance : float64;
}.

(** [records_data.loc[records_data["accession"] == elm]["sequence"].dropna().values[0]] *)
Definition first_sequence (records_data : list element) (elm : string)
  : result string :=
  match omap (fun r => if String.eqb (accession r) elm then sequence r else None)
             records_data with
  | s :: _ => Ok s
  | [] => Raise IndexError
  end.

(** [get_distance]: any exception of the look-ups is turned into [nan]. *)
Definition get_distance (record : string * string) (records_data : list element)
  : float64 :=
  let elm1 := fst record in
  let elm2 := snd record in
  match first_sequence records_data elm1 with
  | Raise _ => NaN
  | Ok elm1_seq =>
      match first_sequence records_data elm2 with
      | Raise _ => NaN
      | Ok elm2_seq => get_pairwise_alignment_distance elm1_seq elm2_seq
      end
  end.

Definition compute_pairwise_sequence_distances (elements : list element)
  : list distance_row :=
  let accs := map accession elements in
  map (fun p => {| element_1 := fst p; element_2 := snd p;
                   distance := get_distance p elements |})
      (flat_map (fun elm1 => map (fun elm2 => (elm1, elm2)) accs) accs).

(** pandas sums skip [nan] *)
Definition nan_to_zero (x : float64) : float64 :=
  match x with NaN => f_zero | _ => x end.

(** Insert one observation into the key-sorted table of group sums. *)
Fixpoint group_add (k : string) (v : float64) (acc : list (string * float64))
  : list (string * float64) :=
  match acc with
  | [] => [(k, v)]
  | (k', s) :: acc' =>
      match String.compare k k' with
      | Eq => (k', f_add s v) :: acc'
      | Lt => (k, v) :: acc
      | Gt => (k', s) :: group_add k v acc'
      end
  end.

(** [df.groupby("element_1")["distance"].sum().reset_index()]: one row per
    distinct key, in sorted key order. *)
Definition groupby_sum (df : list distance_row) : list (string * float64) :=
  fold_left (fun acc r => group_add (element_1 r) (nan_to_zero (distance r)) acc)
            df [].

(** Position of the first smallest non-[nan] value, scanning from index [i]. *)
Fixpoint argmin_go (i : nat) (best : option (nat * float64)) (l : list float64)
  : option nat :=
  match l with
  | [] => fst <$> best
  | x :: l' =>
      let best' :=
        if is_nan x then best
        else match best with
             | None => Some (i, x)
             | Some (_, b) => if f_ltb x b then Some (i, x) else best
             end in
      argmin_go (S i) best' l'
  end.

(** [Series.argmin()] (skipna): [-1] when every value is [nan]
    (pandas 1.x / 2.x), [ValueError] on an empty series. *)
Definition series_argmin (l : list float64) : result Z :=
  match l with
  | [] => Raise ValueError
  | _ => match argmin_go 0 None l with
         | Some i => Ok (Z.of_nat i)
         | None => Ok (-1)%Z
         end
  end.

(** [df.iloc[i]] with Python's negative indexing *)
Definition iloc {A} (l : list A) (i : Z) : result A :=
  let n := Z.of_nat (length l) in
  let j := if (i <? 0)%Z then (i + n)%Z else i in
  if (j <? 0)%Z || (n <=? j)%Z then Raise IndexError
  else match l !! Z.to_nat j with
       | Some x => Ok x
       | None => Raise IndexError
       end.

(** [get_centroid].  The sums are taken per [element_1], but the position
    handed to [iloc] is the [argmin] of the [distance] column of the pairwise
    table [elements_distances] itself. *)
Definition get_centroid (elements_distances : list distance_row)
  : result string :=
  let elements_sum_distances := groupby_sum elements_distances in
  rbind (series_argmin (map distance elements_distances)) (fun pos =>
  rbind (iloc elements_sum_distances pos) (fun row =>
  Ok (fst row))).

(** Body of the per-cluster loop of [compute_clusters_representatives]; an
    empty cluster ends the process with [exit(1)]. *)
Definition cluster_representative (cluster_members : list element)
  : result string :=
  match cluster_members with
  | [] => Raise SystemExit
  | [m] => Ok (accession m)
  | _ => get_centroid (compute_pairwise_sequence_distances cluster_members)
  end.

(** The selection rule as the specification words it: sum each element's row
    of distances and take the element with the smallest sum, the first one in
    iteration order among equals. *)
Definition row_sum (df : list distance_row) (e : string) : float64 :=
  f_sum (map distance (filter (fun r => element_1 r = e) df)).

Fixpoint first_min_by (f : string -> float64) (best : option string)
  (l : list string) : option string :=
  match l with
  | [] => best
  | e :: l' =>
      let best' := match best with
                   | None => Some e
                   | Some b => if f_ltb (f e) (f b) then Some e else best
                   end in
      first_min_by f best' l'
  end.

Definition centroid_by_row_sums (df : list distance_row) : option string :=
  first_min_by (row_sum df) None (remove_dups (map element_1 df)).

(** ** Strings as Python uses them *)

(** [s.startswith(p)], returning the remainder *)
Fixpoint strip_prefix (p s : string) : option string :=
  match p, s with
  | EmptyString, _ => Some s
  | String a p', String b s' => if Ascii.eqb a b then strip_prefix p' s' else None
  | String _ _, EmptyString => None
  end.

Definition starts_with (p s : string) : bool :=
  match strip_prefix p s with Some _ => true | None => false end.

(** [s.replace(old, new)] for a non-empty [old]: occurrences are replaced
    left to right without overlap; [skip] counts the characters of an
    occurrence still to be dropped. *)
Fixpoint replace_go (old new : string) (skip : nat) (s : string) : string :=
  match s with
  | EmptyString => EmptyString
  | String c s' =>
      match skip with
      | S k => replace_go old new k s'
      | O =>
          if starts_with old s
          then (new ++ replace_go old new (String.length old - 1) s')%string
          else String c (replace_go old new 0 s')
      end
  end.

Definition str_replace (s old new : string) : string := replace_go old new 0 s.

Fixpoint string_rev_append (acc s : string) : string :=
  match acc with
  | EmptyString => s
  | String c acc' => string_rev_append acc' (String c s)
  end.

(** [s.split(sep)] for a non-empty [sep]; [cur] holds the current piece,
    reversed. *)
Fixpoint split_go (sep : string) (skip : nat) (cur : string) (s : string)
  : list string :=
  match s with
  | EmptyString => [string_rev_append cur EmptyString]
  | String c s' =>
      match skip with
      | S k => split_go sep k cur s'
      | O =>
          if starts_with sep s
          then string_rev_append cur EmptyString
               :: split_go sep (String.length sep - 1) EmptyString s'
          else split_go sep 0 (String c cur) s'
      end
  end.

Definition str_split (s sep : string) : list string := split_go sep 0 EmptyString s.

(** [sep.join(l)] *)
Fixpoint str_join (sep : string) (l : list string) : string :=
  match l with
  | [] => EmptyString
  | [x] => x
  | x :: l' => (x ++ sep ++ str_join sep l')%string
  end.

(** [os.path.basename]: what follows the last ["/"] *)
Definition basename (p : string) : string :=
  List.last (str_split p "/") EmptyString.

Definition is_digit (c : ascii) : bool :=
  let n := nat_of_ascii c in ((48 <=? n) && (n <=? 57))%nat.

Definition is_space (c : ascii) : bool :=
  let n := nat_of_ascii c in ((n =? 32) || ((9 <=? n) && (n <=? 13)))%nat.

(** longest prefix of digits, and what follows it *)
Fixpoint span_digits (s : string) : string * string :=
  match s with
  | String c s' =>
      if is_digit c
      then let '(d, r) := span_digits s' in (String c d, r)
      else (EmptyString, s)
  | EmptyString => (EmptyString, EmptyString)
  end.

Fixpoint digits_value (acc : N) (s : string) : N :=
  match s with
  | EmptyString => acc
  | String c s' => digits_value (acc * 10 + (N_of_ascii c - 48))%N s'
  end.

Fixpoint lstrip (s : string) : string :=
  match s with
  | String c s' => if is_space c then lstrip s' else s
  | EmptyString => EmptyString
  end.

Definition strip (s : string) : string :=
  lstrip (string_rev_append (lstrip (string_rev_append s EmptyString)) EmptyString).

(** [np.int64(text)]: optional blanks, optional sign, decimal digits *)
Definition parse_int64 (text : string) : result Z :=
  let body := strip text in
  let '(neg, digits) :=
    match body with
    | String "-" r => (true, r)
    | String "+" r => (false, r)
    | _ => (false, body)
    end in
  match span_digits digits with
  | (String c d, EmptyString) =>
      let v := Z.of_N (digits_value 0 (String c d)) in
      Ok (if neg : bool then (- v)%Z else v)
  | _ => Raise ValueError
  end.

(** [float(text)] for a text of the shape [digits "." digits] *)
Definition parse_decimal (int_part frac_part : string) : float64 :=
  Fin (Qc_of_Z (Z.of_N (digits_value 0 (int_part ++ frac_part)%string))
       / Qc_of_Z (10 ^ Z.of_nat (String.length frac_part)))%Qc.

(** One attempt of the similarity pattern at the head of [s]: one or more
    digits, a dot, any number of digits, a percent sign.  Returns the two
    digit groups and the length of the whole match. *)
Definition similarity_match_at (s : string) : option (string * string * nat) :=
  match span_digits s with
  | (String c d, String "." r) =>
      match span_digits r with
      | (e, String "%" _) =>
          Some (String c d, e, String.length (String c d) + 1 + String.length e + 1)
      | _ => None
      end
  | _ => None
  end.

(** [similarity_regex.finditer(text)], each match already converted by
    [float(match.group(1)) / 100] *)
Fixpoint similarity_finditer (skip : nat) (s : string) : list float64 :=
  match s with
  | EmptyString => []
  | String _ s' =>
      match skip with
      | S k => similarity_finditer k s'
      | O =>
          match similarity_match_at s with
          | Some (d, e, len) =>
              f_div (parse_decimal d e) (of_nat 100)
              :: similarity_finditer (len - 1) s'
          | None => similarity_finditer 0 s'
          end
      end
  end.

(** text before the first occurrence of [sep], if [sep] occurs *)
Definition before_first (sep s : string) : option string :=
  match str_split s sep with
  | x :: _ :: _ => Some x
  | _ => None
  end.

(** text after the first occurrence of the character [c], if any *)
Fixpoint after_char (c : ascii) (s : string) : option string :=
  match s with
  | EmptyString => None
  | String a s' => if Ascii.eqb a c then Some s' else after_char c s'
  end.

(** [member_regex.search(line).group(1)] on a text without line breaks: the
    (shortest) text between the first [>] and the first run of three dots
    after it; no match makes [.group] fail on [None]. *)
Definition member_search (line : string) : result string :=
  match after_char ">" line with
  | Some rest =>
      match before_first "..." rest with
      | Some name => Ok name
      | None => Raise AttributeError
      end
  | None => Raise AttributeError
  end.

(** ** The world outside the interpreter *)

(** Regular files with their contents, directories, and the command lines
    handed to [os.system] so far (oldest first). *)
Record world : Type := {
  files : gmap string string;
  dirs : gset string;
  history : list string;
}.

Record SeqRecord : Type := {
  seq_id : string;
  description : string;
  seq_str : string;
}.

(** One alignment returned by [pairwise2.align.globalxx] *)
Record alignment : Type := {
  seqA : string;
  seqB : string;
  score : float64;
}.

(** One row of the pairwise similarity table *)
Record similarity_row : Type := {
  accession_1 : string;
  accession_2 : string;
  similarity : float64;
}.

Record externals : Type := {
  (** [os.getcwd()] *)
  cwd : string;
  (** [get_settings().CDHIT_DIR] *)
  CDHIT_DIR : string;
  (** what running a shell command does: exit status and resulting world *)
  run_command : string -> world -> Z * world;
  (** [list(SeqIO.parse(path, format="fasta"))], from the file's content *)
  SeqIO_parse : string -> list SeqRecord;
  (** [pairwise2.align.globalxx] *)
  globalxx : string -> string -> list alignment;
  (** [scipy.stats.chi2.ppf(q, df)] *)
  chi2_ppf : float64 -> nat -> float64;
  (** [DataFrame.to_csv(index=False)] and [pd.read_csv] followed by the
      selection of the [similarity] column *)
  to_csv : list similarity_row -> string;
  read_csv : string -> result (list similarity_row);
  (** [pickle.dump] of the pair-to-similarity dictionary *)
  pickle_dumps_pairs : list (string * string * float64) -> string;
  (** [pickle.dump] / [pickle.load] of the name translator *)
  pickle_dumps_names : gmap string string -> string;
  pickle_loads_names : string -> result (gmap string string);
  (** how an f-string prints a float *)
  float_str : float64 -> string;
}.

(** State and exceptions: a raised exception keeps the effects so far. *)
Definition M (A : Type) : Type := world -> result A * world.

Definition ret {A} (a : A) : M A := fun w => (Ok a, w).
Definition raise {A} (e : exn) : M A := fun w => (Raise e, w).
Definition bind {A B} (m : M A) (k : A -> M B) : M B :=
  fun w => match m w with
           | (Ok a, w') => k a w'
           | (Raise e, w') => (Raise e, w')
           end.
Definition lift {A} (r : result A) : M A := fun w => (r, w).

#[global] Instance M_ret : MRet M := @ret.
#[global] Instance M_bind : MBind M := fun A B k m => bind m k.

(** whether [p] names a file or a directory of [w] *)
Definition exists_in (w : world) (p : string) : bool :=
  bool_decide (is_Some (files w !! p)) || bool_decide (p ∈ dirs w).

(** [os.path.exists] *)
Definition path_exists (p : string) : M bool := fun w => (Ok (exists_in w p), w).

(** [open(p).read()] *)
Definition read_file (p : string) : M string :=
  fun w => match files w !! p with
           | Some c => (Ok c, w)
           | None => (Raise FileNotFoundError, w)
           end.

(** [open(p, "w").write(content)] *)
Definition write_file (p content : string) : M unit :=
  fun w => (Ok tt, {| files := <[p := content]> (files w);
                      dirs := dirs w; history := history w |}).

(** [os.remove] *)
Definition os_remove (p : string) : M unit :=
  fun w => match files w !! p with
           | Some _ => (Ok tt, {| files := delete p (files w);
                                  dirs := dirs w; history := history w |})
           | None => (Raise (if bool_decide (p ∈ dirs w) then OSError
                             else FileNotFoundError), w)
           end.

(** [os.makedirs(p, exist_ok=True)] *)
Definition makedirs (p : string) : M unit :=
  fun w => (Ok tt, {| files := files w; dirs := {[p]} ∪ dirs w;
                      history := history w |}).

Section WithExternals.
Variable ext : externals.

(** [os.system(cmd)] *)
Definition os_system (cmd : string) : M Z :=
  fun w => let '(status, w') := run_command ext cmd w in
           (Ok status, {| files := files w'; dirs := dirs w';
                          history := history w ++ [cmd] |}).

(** [list(SeqIO.parse(p, format="fasta"))] *)
Definition parse_fasta (p : string) : M (list SeqRecord) :=
  c ← read_file p; ret (SeqIO_parse ext c).

End WithExternals.

(** ** OutlierDetector *)

(** [data.to_numpy()]: a two-dimensional array with [shape1] columns; every
    row of a well-formed array has [shape1] entries. *)
Record ndarray : Type := {
  shape1 : nat;
  rows : list (list float64);
}.

Definition shape0 (a : ndarray) : nat := length (rows a).

Definition wf_ndarray (a : ndarray) : Prop :=
  Forall (fun r => length r = shape1 a) (rows a).

Definition entry (r : list float64) (j : nat) : float64 := nth j r NaN.

Definition all_finite (r : list float64) : Prop :=
  Forall (fun x => is_finite x = true) r.

Definition column (a : ndarray) (j : nat) : list float64 :=
  map (fun r => entry r j) (rows a).

(** [np.mean(l)] *)
Definition np_mean (l : list float64) : float64 :=
  f_div (f_sum l) (of_nat (length l)).

(** [np.mean(data, axis=0)] *)
Definition np_mean_axis0 (data : ndarray) : list float64 :=
  map (fun j => np_mean (column data j)) (seq 0 (shape1 data)).

(** [p1 - p2] on one-dimensional arrays *)
Definition vec_sub (p1 p2 : list float64) : list float64 := zip_with f_sub p1 p2.

Definition vec_dot (u v : list float64) : float64 := f_sum (zip_with f_mul u v).

(** [v.dot(m)] for a vector and a matrix given by rows *)
Definition vec_mat (v : list float64) (m : list (list float64)) (ncols : nat)
  : list float64 :=
  map (fun k => vec_dot v (map (fun r => entry r k) m)) (seq 0 ncols).

(** Determinant by expansion along the first row; [n] is the size. *)
Fixpoint det_go (n : nat) (m : list (list float64)) : float64 :=
  match n, m with
  | S n', r :: rest =>
      f_sum (imap (fun j x =>
                     f_mul (if Nat.even j then x else f_opp x)
                           (det_go n' (map (delete j) rest))) r)
  | _, _ => f_one
  end.

(** [np.linalg.det]: defined on square arrays only *)
Definition np_linalg_det (data : ndarray) : result float64 :=
  if shape0 data =? shape1 data then Ok (det_go (shape0 data) (rows data))
  else Raise LinAlgError.

(** [np.cov(data, rowvar=False)] before squeezing: entry (j, k) is the sum
    over the rows of the products of the deviations from the column means,
    multiplied by [1 / fact], where [fact] is the number of rows minus one and
    is set to [0.0] when that is not positive. *)
Definition np_cov (data : ndarray) : list (list float64) :=
  let avg := np_mean_axis0 data in
  let X := map (fun r => vec_sub r avg) (rows data) in
  let fact := if 1 <? shape0 data then of_nat (shape0 data - 1) else f_zero in
  let d := seq 0 (shape1 data) in
  map (fun j =>
         map (fun k =>
                f_mul (f_sum (map (fun r => f_mul (entry r j) (entry r k)) X))
                      (f_div f_one fact)) d) d.

(** Index (relative to the start of [m]) of the first row whose entry in
    column [k] is not zero. *)
Fixpoint find_pivot (k : nat) (m : list (list float64)) : option nat :=
  match m with
  | [] => None
  | r :: m' =>
      if f_eqb (entry r k) f_zero then S <$> find_pivot k m' else Some 0
  end.

(** Gauss-Jordan elimination on an augmented matrix, columns [k], [k+1], ...;
    [None] when a column has no pivot (the matrix is singular). *)
Fixpoint gauss_jordan (steps k : nat) (m : list (list float64))
  : option (list (list float64)) :=
  match steps with
  | O => Some m
  | S steps' =>
      match find_pivot k (drop k m) with
      | None => None
      | Some off =>
          let p := k + off in
          let prow := nth p m [] in
          let prow' := map (fun x => f_div x (entry prow k)) prow in
          let m1 := <[k := prow']> (<[p := nth k m []]> m) in
          let m2 := imap (fun i r =>
                            if i =? k then r
                            else zip_with (fun x y => f_sub x (f_mul (entry r k) y))
                                          r prow') m1 in
          gauss_jordan steps' (S k) m2
      end
  end.

Definition unit_row (n i : nat) : list float64 :=
  map (fun j => if j =? i then f_one else f_zero) (seq 0 n).

(** [np.linalg.inv] *)
Definition np_linalg_inv (m : list (list float64)) : result (list (list float64)) :=
  let n := length m in
  match gauss_jordan n 0 (imap (fun i r => r ++ unit_row n i) m) with
  | Some m' => Ok (map (drop n) m')
  | None => Raise LinAlgError
  end.

(** [np.linalg.matrix_power(np.cov(data, rowvar=False), -1)]: the covariance
    of a one-column array is squeezed to a zero-dimensional array, which
    [matrix_power] refuses. *)
Definition covariance_power_m1 (data : ndarray) : result (list (list float64)) :=
  if shape1 data =? 1 then Raise LinAlgError
  else np_linalg_inv (np_cov data).

(** [list(np.where(distances > cutoff)[0])] *)
Fixpoint where_gt (i : nat) (distances : list float64) (cutoff : float64)
  : list nat :=
  match distances with
  | [] => []
  | x :: l => (if f_gtb x cutoff then [i] else []) ++ where_gt (S i) l cutoff
  end.

(** What the detectors return: a list of row positions, or [np.nan]. *)
Inductive outliers : Type :=
  | Indexes (l : list nat)
  | Undefined.

(** [a[j]] on a one-dimensional array *)
Definition np_index (a : list float64) (j : nat) : result float64 :=
  match a !! j with
  | Some x => Ok x
  | None => Raise IndexError
  end.

Section Outliers.
Variable ext : externals.

(** [compute_outliers_with_mahalanobis_dist].  After the outlier positions
    are known the function draws the confidence ellipse: [covariance[0, 1]]
    needs two columns and [np.linalg.eig] refuses a non-finite matrix; the
    drawing itself does not influence the value returned. *)
Definition compute_outliers_with_mahalanobis_dist (data : ndarray)
  : result outliers :=
  let zero_det := match np_linalg_det data with
                  | Ok det => f_eqb det f_zero
                  | Raise _ => false            (* data is not squared *)
                  end in
  if zero_det then Ok Undefined
  else
    let centroid := np_mean_axis0 data in
    let covariance := np_cov data in
    match covariance_power_m1 data with
    | Raise _ => Ok Undefined
    | Ok covariance_pm1 =>
        let distances :=
          map (fun val =>
                 let p := vec_sub val centroid in
                 vec_dot (vec_mat p covariance_pm1 (shape1 data)) p)
              (rows data) in
        let cutoff := chi2_ppf ext (lit 95 100) (shape1 data) in
        let outlier_indexes := where_gt 0 distances cutoff in
        if shape1 data <? 2 then Raise IndexError
        else if negb (forallb (forallb is_finite) covariance) then Raise LinAlgError
        else Ok (Indexes outlier_indexes)
    end.

(** [compute_outliers_with_euclidean_dist].  The circle of the diagnostic
    plot is centred at [(centroid[0], centroid[1])]. *)
Definition compute_outliers_with_euclidean_dist (data : ndarray)
  : result outliers :=
  let centroid := np_mean_axis0 data in
  let distances := map (fun val => f_sum (vec_sub val centroid)) (rows data) in
  let cutoff := chi2_ppf ext (lit 95 100) (shape1 data) in
  let outlier_indexes := where_gt 0 distances cutoff in
  rbind (np_index centroid 0) (fun _ =>
  rbind (np_index centroid 1) (fun _ =>
  Ok (Indexes outlier_indexes))).

(** The Euclidean rule as the specification words it. *)
Definition signed_score (data : ndarray) (row : list float64) : float64 :=
  f_sum (map (fun j => f_sub (entry row j) (np_mean (column data j)))
             (seq 0 (shape1 data))).

Definition is_euclidean_outlier (data : ndarray) (i : nat) : Prop :=
  exists row, rows data !! i = Some row /\
    f_gtb (signed_score data row)
          (chi2_ppf ext (lit 95 100) (shape1 data)) = true.

End Outliers.

(** ** Summary statistics *)

Definition nan4 : list float64 := [NaN; NaN; NaN; NaN].

Definition f_min (x y : float64) : float64 := if f_ltb y x then y else x.
Definition f_max (x y : float64) : float64 := if f_ltb x y then y else x.

(** [np.min] / [np.max] of a Python list: no identity on an empty input,
    [nan] as soon as one value is [nan] *)
Definition np_min (l : list float64) : result float64 :=
  match l with
  | [] => Raise ValueError
  | x :: l' => Ok (if existsb is_nan l then NaN else fold_left f_min l' x)
  end.

Definition np_max (l : list float64) : result float64 :=
  match l with
  | [] => Raise ValueError
  | x :: l' => Ok (if existsb is_nan l then NaN else fold_left f_max l' x)
  end.

Fixpoint insert_sorted (x : float64) (l : list float64) : list float64 :=
  match l with
  | [] => [x]
  | y :: l' => if f_leb x y then x :: l else y :: insert_sorted x l'
  end.

Definition sort_floats (l : list float64) : list float64 :=
  fold_right insert_sorted [] l.

(** [np.median] *)
Definition np_median (l : list float64) : float64 :=
  if existsb is_nan l then NaN
  else
    let s := sort_floats l in
    let n := length s in
    if n =? 0 then NaN
    else if Nat.even n
         then f_div (f_add (nth (n / 2 - 1) s NaN) (nth (n / 2) s NaN)) (of_nat 2)
         else nth (n / 2) s NaN.

(** mean, min, max, median of a non-empty Python list *)
Definition list_summary (similarities : list float64) : result (list float64) :=
  let mean_sim := np_mean similarities in
  rbind (np_min similarities) (fun min_sim =>
  rbind (np_max similarities) (fun max_sim =>
  let med_sim := np_median similarities in
  Ok [mean_sim; min_sim; max_sim; med_sim])).

Definition dropna (l : list float64) : list float64 :=
  filter (fun x => is_nan x = false) l.

(** The same four numbers for a pandas [Series]: [np.mean], [np.min] and
    [np.max] defer to the methods of the series, which skip [nan];
    [np.median] works on the underlying array. *)
Definition series_summary (similarities : list float64) : list float64 :=
  let kept := dropna similarities in
  [ np_mean kept;
    match kept with [] => NaN | x :: l => fold_left f_min l x end;
    match kept with [] => NaN | x :: l => fold_left f_max l x end;
    np_median similarities ].

(** ** SimilarityMatrixBuilder *)

(** An insertion-ordered dictionary with string keys *)
Definition pydict (V : Type) : Type := list (string * V).

Fixpoint dict_get {V} (d : pydict V) (k : string) : option V :=
  match d with
  | [] => None
  | (k', v) :: d' => if String.eqb k' k then Some v else dict_get d' k
  end.

Fixpoint dict_set {V} (d : pydict V) (k : string) (v : V) : pydict V :=
  match d with
  | [] => [(k, v)]
  | (k', v') :: d' =>
      if String.eqb k' k then (k', v) :: d' else (k', v') :: dict_set d' k v
  end.

Definition dict_keys {V} (d : pydict V) : list string := map fst d.

(** [d[k]] *)
Definition dict_item {V} (d : pydict V) (k : string) : result V :=
  match dict_get d k with
  | Some v => Ok v
  | None => Raise KeyError
  end.

(** [scipy.spatial.distance.hamming]: the share of positions that differ;
    arrays of different shapes are refused, two empty arrays give [nan]. *)
Definition hamming (u v : list Z) : result float64 :=
  if length u =? length v
  then Ok (np_mean (zip_with (fun a b => if Z.eqb a b then f_zero else f_one) u v))
  else Raise ValueError.

(** [compute_similarity_across_aligned_sequences]; [record] carries the
    columns [accession_1] and [accession_2] of the row. *)
Definition compute_similarity_across_aligned_sequences
  (record : string * string) (seq_to_token : pydict (list Z)) : result float64 :=
  if String.eqb (fst record) (snd record) then Ok f_one
  else
    rbind (dict_item seq_to_token (fst record)) (fun seq_1 =>
    rbind (dict_item seq_to_token (snd record)) (fun seq_2 =>
    rbind (hamming seq_1 seq_2) (fun d =>
    Ok (f_sub f_one d)))).

(** [seq_map[char]] *)
Definition seq_map (c : ascii) : result Z :=
  match c with
  | "A" | "a" => Ok 0
  | "C" | "c" => Ok 1
  | "G" | "g" => Ok 2
  | "T" | "t" => Ok 3
  | "-" => Ok 4
  | _ => Raise KeyError
  end%char%Z.

(** The table computed from the aligned sequences when no table is on disk:
    the first log line reads [aligned_sequences[0]]; a character outside
    [seq_map] is re-raised as [ValueError]; every ordered pair of keys gets
    its similarity. *)
Definition compute_similarity_table (aligned_sequences : list SeqRecord)
  : result (list similarity_row) :=
  match aligned_sequences with
  | [] => Raise IndexError
  | _ =>
      let tokens :=
        fold_left
          (fun acc s =>
             rbind acc (fun d =>
             rbind (rmapM seq_map (list_ascii_of_string (seq_str s))) (fun a =>
             Ok (dict_set d (seq_id s) a))))
          aligned_sequences (Ok []) in
      match tokens with
      | Raise _ => Raise ValueError
      | Ok seq_id_to_array =>
          let keys := dict_keys seq_id_to_array in
          rmapM (fun p =>
                   rbind (compute_similarity_across_aligned_sequences p seq_id_to_array)
                         (fun s => Ok {| accession_1 := fst p; accession_2 := snd p;
                                         similarity := s |}))
                (flat_map (fun acc1 => map (fun acc2 => (acc1, acc2)) keys) keys)
      end
  end.

(** [itertools.combinations(l, 2)] *)
Fixpoint combinations2 {A} (l : list A) : list (A * A) :=
  match l with
  | [] => []
  | x :: l' => map (fun y => (x, y)) l' ++ combinations2 l'
  end.

(** [d[pair]] for a dictionary keyed by pairs of identifiers and a [pair] of
    [SeqRecord] objects: [SeqRecord] defines [__eq__] and no [__hash__], so
    hashing the tuple raises [TypeError] before any key is compared. *)
Definition item_by_records (d : list (string * string * list alignment))
  (pair : SeqRecord * SeqRecord) : result (list alignment) :=
  Raise TypeError.

(** [alignments.score] on the list returned by [globalxx] *)
Definition list_score (alignments : list alignment) : result float64 :=
  Raise AttributeError.

Definition nl : string := String (ascii_of_nat 10) EmptyString.

Section SimilarityBuilders.
Variable ext : externals.

(** [get_sequence_similarity_with_multiple_alignment], in three parts: the
    derived paths, the alignment step, the similarity table, and the function
    itself. *)
Definition aligned_path (sequence_data_path : string) : string :=
  str_replace sequence_data_path "." "_aligned.".

Definition mafft_log_path (sequence_data_path : string) : string :=
  str_replace sequence_data_path ".fasta" ".log".

Definition similarities_path (sequence_data_path : string) : string :=
  str_replace sequence_data_path ".fasta" "_similarity_values.csv".

Definition mafft_cmd (sequence_data_path output_path : string) : string :=
  ("mafft --retree 1 --maxiterate 0 " ++ sequence_data_path ++ " > "
   ++ output_path)%string.

(** The block guarded by [if not os.path.exists(output_path)]; the value is
    [false] when the function is to return the undefined values because
    mafft failed. *)
Definition align_with_mafft (sequence_data_path : string) : M bool :=
  let output_path := aligned_path sequence_data_path in
  let log_path := mafft_log_path sequence_data_path in
  aligned ← path_exists output_path;
  if negb aligned then
    _ ← parse_fasta ext sequence_data_path;
    res ← os_system ext (mafft_cmd sequence_data_path output_path);
    if negb (res =? 0)%Z then ret false
    else
      produced ← path_exists output_path;
      if negb produced then raise RuntimeError
      else
        logged ← path_exists log_path;
        (if (logged : bool) then os_remove log_path else ret tt);;
        ret true
  else ret true.

(** The block that computes and stores the table, or reads the stored one *)
Definition similarity_table (sequence_data_path : string)
  : M (list similarity_row) :=
  let output_path := aligned_path sequence_data_path in
  let similarities_output_path := similarities_path sequence_data_path in
  stored ← path_exists similarities_output_path;
  if negb stored then
    aligned_sequences ← parse_fasta ext output_path;
    table ← lift (compute_similarity_table aligned_sequences);
    write_file similarities_output_path (to_csv ext table);;
    ret table
  else
    c ← read_file similarities_output_path;
    lift (read_csv ext c).

Definition summary_of_table (pair_to_similarity : list similarity_row)
  : list float64 :=
  let similarities := map similarity pair_to_similarity in
  if 0 <? length pair_to_similarity then series_summary similarities
  else nan4.

Definition get_sequence_similarity_with_multiple_alignment
  (sequence_data_path : string) : M (list float64) :=
  present ← path_exists sequence_data_path;
  if negb present then ret nan4
  else
    proceed ← align_with_mafft sequence_data_path;
    if negb proceed then ret nan4
    else
      pair_to_similarity ← similarity_table sequence_data_path;
      ret (summary_of_table pair_to_similarity).

(** [get_sequences_similarity_with_pairwise_alignments] *)
Definition get_sequences_similarity_with_pairwise_alignments
  (sequence_data_path : string) : M (list float64) :=
  present ← path_exists sequence_data_path;
  if negb present then ret nan4
  else
    sequences ← parse_fasta ext sequence_data_path;
    let sequences_pairs := combinations2 sequences in
    let sequences_pair_to_pairwise_alignment :=
      map (fun pair => (seq_id (fst pair), seq_id (snd pair),
                        globalxx ext (seq_str (fst pair)) (seq_str (snd pair))))
          sequences_pairs in
    sequences_pair_to_pairwise_similarity ←
      lift (rmapM (fun pair =>
                     rbind (item_by_records sequences_pair_to_pairwise_alignment pair)
                       (fun found =>
                     rbind (list_score found) (fun s =>
                     Ok (seq_id (fst pair), seq_id (snd pair), s))))
                  sequences_pairs);
    let pickle_path :=
      str_replace sequence_data_path ".fasta" "_sequences_similarity.pickle" in
    write_file pickle_path (pickle_dumps_pairs ext sequences_pair_to_pairwise_similarity);;
    lift (list_summary (map snd sequences_pair_to_pairwise_similarity)).

(** [get_sequences_similarity_with_cdhit] *)
Definition threshold_range_to_wordlen : list (float64 * float64 * Z) :=
  [ (lit 7 10, lit 10 10, 5%Z); (lit 6 10, lit 7 10, 4%Z);
    (lit 5 10, lit 6 10, 3%Z); (lit 4 10, lit 5 10, 2%Z) ].

Definition cdhit_cmd (mem_limit : Z) (cdhit_input_path cdhit_output_path : string)
  (threshold : float64) (word_len : Z) (cdhit_log_path : string) : string :=
  ("cd-hit -M " ++ pretty mem_limit ++ " -i " ++ cdhit_input_path
   ++ " -o " ++ cdhit_output_path ++ " -c " ++ float_str ext threshold
   ++ " -n " ++ pretty word_len ++ " > " ++ cdhit_log_path)%string.

Definition cdhit_aux_dir : string := (cwd ext ++ "/cdhit_aux/")%string.

Definition cdhit_group_out (cdhit_input_path : string) : string :=
  (cdhit_aux_dir ++ "/cdhit_group_out_" ++ basename cdhit_input_path)%string.

Definition get_sequences_similarity_with_cdhit
  (sequence_data_path : string) (mem_limit : Z) (threshold : float64)
  : M (list float64) :=
  present ← path_exists sequence_data_path;
  if negb present then ret nan4
  else
    let aux_dir := cdhit_aux_dir in
    makedirs aux_dir;;
    let cdhit_input_path := sequence_data_path in
    let cdhit_output_path := cdhit_group_out cdhit_input_path in
    let cdhit_log_path := (cdhit_output_path ++ ".log")%string in
    clustered ← path_exists cdhit_output_path;
    let finish : M (list float64) :=
      text ← read_file (cdhit_output_path ++ ".clstr")%string;
      let similarities := similarity_finditer 0 text in
      if length similarities =? 0 then ret nan4
      else
        res ← os_system ext ("rm -r " ++ cdhit_output_path)%string;
        if negb (res =? 0)%Z then raise RuntimeError
        else
          logged ← path_exists cdhit_log_path;
          (if (logged : bool) then
             res ← os_system ext ("rm -r " ++ cdhit_log_path)%string;
             if negb (res =? 0)%Z then raise RuntimeError else ret tt
           else ret tt);;
          lift (list_summary similarities) in
    if negb clustered then
      sequences ← parse_fasta ext sequence_data_path;
      let num_sequences := length sequences in
      if num_sequences <? 3
      then get_sequences_similarity_with_pairwise_alignments sequence_data_path
      else
        match filter (fun key => f_leb key.1.1 threshold && f_leb threshold key.1.2)
                     threshold_range_to_wordlen with
        | [] => raise IndexError
        | (_, word_len) :: _ =>
            os_system ext (cdhit_cmd mem_limit cdhit_input_path cdhit_output_path
                                     threshold word_len cdhit_log_path);;
            finish
        end
    else finish.

End SimilarityBuilders.

(** ** ClusterAssigner *)

(** The word length handed to [cd-hit-est], from the homology threshold *)
Definition word_len (homology_threshold : float64) : Z :=
  if f_gtb homology_threshold (lit 6 10)
  then (if f_gtb homology_threshold (lit 7 10) then 8 else 4)%Z
  else (if f_gtb homology_threshold (lit 5 10) then 3 else 2)%Z.

(** how an f-string prints the [sequence] cell *)
Definition sequence_str (s : option string) : string :=
  match s with Some x => x | None => "nan" end.

(** State of the loop over [elements.iterrows()] *)
Record naming : Type := {
  elm_to_fake_name : gmap string string;
  fake_name_to_elm : gmap string string;
  elm_to_seq : pydict string;
  counter : nat;
}.

Definition naming_step (st : naming) (row : element) : naming :=
  let elm := (accession row ++ "_" ++ taxon_name row)%string in
  let fake := ("S" ++ pretty (counter st))%string in
  {| elm_to_fake_name := <[elm := fake]> (elm_to_fake_name st);
     fake_name_to_elm := <[fake := elm]> (fake_name_to_elm st);
     elm_to_seq := dict_set (elm_to_seq st) elm (sequence_str (sequence row));
     counter := S (counter st) |}.

Definition name_elements (elements : list element) : naming :=
  fold_left naming_step elements
    {| elm_to_fake_name := ∅; fake_name_to_elm := ∅; elm_to_seq := []; counter := 0 |}.

(** the text written to [sequences.fasta] *)
Definition cdhit_input_text (st : naming) : string :=
  str_join nl
    (map (fun kv => (">" ++ default "" (elm_to_fake_name st !! kv.1)
                     ++ nl ++ kv.2)%string)
         (elm_to_seq st)).

(** One block of the cluster report (the text after a [>Cluster] marker):
    its number and its members, translated back to element names. *)
Definition parse_cluster (fake_name_to_elm : gmap string string) (cluster : string)
  : result (Z * list string) :=
  match str_split cluster nl with
  | [] => Raise IndexError
  | head :: member_lines =>
      rbind (parse_int64 head) (fun cluster_id =>
      rbind (rmapM (fun member_data =>
                      rbind (member_search member_data) (fun member_fake_name =>
                      match fake_name_to_elm !! member_fake_name with
                      | Some member => Ok member
                      | None => Raise KeyError
                      end))
                   (filter (fun member_data => 0 < String.length member_data)
                           member_lines))
            (fun cluster_members => Ok (cluster_id, cluster_members)))
  end.

(** the loop over the blocks, updating [elm_to_cluster] *)
Fixpoint parse_clusters (fake_name_to_elm : gmap string string)
  (clusters : list string) (elm_to_cluster : gmap string Z)
  : result (gmap string Z) :=
  match clusters with
  | [] => Ok elm_to_cluster
  | cluster :: rest =>
      rbind (parse_cluster fake_name_to_elm cluster) (fun '(cluster_id, members) =>
      parse_clusters fake_name_to_elm rest
        (fold_left (fun m member => <[member := cluster_id]> m) members
                   elm_to_cluster))
  end.

Section ClusterAssigner.
Variable ext : externals.

Definition cdhit_est_cmd (cdhit_input_path cdhit_output_file : string)
  (homology_threshold : float64) (n : Z) (memory_limit : Z)
  (cdhit_log_file : string) : string :=
  (CDHIT_DIR ext ++ "cd-hit-est -i " ++ cdhit_input_path ++ " -o "
   ++ cdhit_output_file ++ " -c " ++ float_str ext homology_threshold
   ++ " -n " ++ pretty n ++ " -M " ++ pretty memory_limit ++ " > "
   ++ cdhit_log_file)%string.

(** [get_cdhit_clusters] *)
Definition get_cdhit_clusters (elements : list element)
  (homology_threshold : float64) (memory_limit : Z) (aux_dir : string)
  : M (gmap string Z) :=
  makedirs aux_dir;;
  let cdhit_input_path := (aux_dir ++ "/sequences.fasta")%string in
  let names_translator_path := (aux_dir ++ "/names_translator.pickle")%string in
  has_input ← path_exists cdhit_input_path;
  has_names ← path_exists names_translator_path;
  (if negb has_input || negb has_names then
     let st := name_elements elements in
     write_file cdhit_input_path (cdhit_input_text st);;
     write_file names_translator_path (pickle_dumps_names ext (fake_name_to_elm st))
   else ret tt);;
  let cdhit_output_file :=
    (aux_dir ++ "/cdhit_out_thr_" ++ float_str ext homology_threshold)%string in
  let cdhit_log_file := (aux_dir ++ "/cdhit.log")%string in
  has_output ← path_exists cdhit_output_file;
  (if negb has_output then
     res ← os_system ext
             (cdhit_est_cmd cdhit_input_path cdhit_output_file homology_threshold
                            (word_len homology_threshold) memory_limit
                            cdhit_log_file);
     if negb (res =? 0)%Z then raise RuntimeError else ret tt
   else ret tt);;
  let clusters_data_path := (cdhit_output_file ++ ".clstr")%string in
  pickled ← read_file names_translator_path;
  fake_name_to_elm ← lift (pickle_loads_names ext pickled);
  text ← read_file clusters_data_path;
  let clusters := tail (str_split text ">Cluster") in
  lift (parse_clusters fake_name_to_elm clusters ∅).

End ClusterAssigner.

(** ** compute_clusters_representatives: from element names to accessions *)

(** [accession_regex.search(elm)] for the pattern [(.*?)_\D], on ASCII text:
    the match ends at the first underscore that is followed by a character
    other than a digit, and its group is the text before that underscore,
    from the last line break on (the dot of the pattern matches no line
    break, so the search restarts after one). *)
Fixpoint accession_go (cur : string) (s : string) : option string :=
  match s with
  | EmptyString => None
  | String c s' =>
      if Ascii.eqb c "_"
         && match s' with
            | String d _ => negb (is_digit d)
            | EmptyString => false
            end
      then Some (string_rev_append cur EmptyString)
      else if Ascii.eqb c (ascii_of_nat 10) then accession_go EmptyString s'
      else accession_go (String c cur) s'
  end.

(** [accession_regex.search(elm).group(1)]: no match makes [.group] fail on
    [None]. *)
Definition accession_search (elm : string) : result string :=
  match accession_go EmptyString elm with
  | Some accession => Ok accession
  | None => Raise AttributeError
  end.

(** The element name given to a row by [get_cdhit_clusters] *)
Definition element_name (row : element) : string :=
  (accession row ++ "_" ++ taxon_name row)%string.

(** ** The outlier stage: the accessions that are kept *)

(** [[accessions[idx] for idx in range(len(accessions)) if idx not in
    outliers_idx]] *)
Definition accessions_to_keep (accessions : list string) (outliers_idx : list nat)
  : list string :=
  flat_map (fun idx =>
              if existsb (Nat.eqb idx) outliers_idx then []
              else match accessions !! idx with
                   | Some a => [a]
                   | None => []
                   end)
           (seq 0 (length accessions)).

(** the value returned by the two [get_relevant_accessions_...] functions *)
Definition relevant_accessions (accessions : list string) (outliers_idx : list nat)
  : string :=
  str_join ";" (accessions_to_keep accessions outliers_idx).

(** ** The stages that call the similarity strategies
    ([compute_sequence_similarity_across_species.py]) *)

Definition is_alnum (c : ascii) : bool :=
  let n := nat_of_ascii c in
  is_digit c || ((65 <=? n) && (n <=? 90))%nat || ((97 <=? n) && (n <=? 122))%nat.

(** [re.sub('[^0-9a-zA-Z]+', '_', name)]: every maximal run of characters
    other than ASCII letters and digits becomes one underscore; [in_run]
    tells that the underscore of the current run was already written. *)
Fixpoint sub_go (in_run : bool) (s : string) : string :=
  match s with
  | EmptyString => EmptyString
  | String c s' =>
      if is_alnum c then String c (sub_go false s')
      else if in_run then sub_go true s'
      else String "_" (sub_go true s')
  end.

Definition re_sub_non_alnum (name : string) : string := sub_go false name.

(** the path handed to the similarity strategy by
    [compute_entries_sequence_similarities] *)
Definition sequence_data_path (seq_data_dir virus_species_name : string) : string :=
  (seq_data_dir ++ "/" ++ re_sub_non_alnum virus_species_name ++ ".fasta")%string.

(** the input path handed to [clean_sequence_data_from_outliers] by
    [compute_sequence_similarities_across_species] *)
Definition cleaning_input_path (seq_data_dir virus_species_name : string) : string :=
  (seq_data_dir ++ "/" ++ re_sub_non_alnum virus_species_name
   ++ "_aligned.fasta")%string.

(** the path of the similarity table read by [remove_outliers] *)
Definition similarities_data_path (similarities_data_dir virus_species_name : string)
  : string :=
  (similarities_data_dir ++ "/" ++ re_sub_non_alnum virus_species_name
   ++ "_similarity_values.csv")%string.

(** [record.relevant_genome_accessions.split(";")] of
    [clean_sequence_data_from_outliers] *)
Definition selected_accessions (relevant_genome_accessions : string) : list string :=
  str_split relevant_genome_accessions ";".

(** [x.count(";") + 1] of [remove_outliers] *)
Fixpoint count_semicolons (x : string) : nat :=
  match x with
  | EmptyString => 0
  | String c x' => (if Ascii.eqb c ";" then 1 else 0) + count_semicolons x'
  end.

Definition relevant_sequences (x : string) : nat := count_semicolons x + 1.

(** ** A reference environment

    A small concrete choice of the third-party behaviour, on which the
    embedding can be run: a line-based FASTA reader, a shell that knows
    [mafft] (copies its input, standing for sequences that are already
    aligned) and [rm -r], a table of chi-square quantiles, and an invertible
    encoding of the similarity table standing for CSV. *)

Definition first_word (s : string) : string :=
  match str_split s " " with
  | x :: _ => x
  | [] => EmptyString
  end.

Definition flush (cur : option SeqRecord) : list SeqRecord :=
  match cur with Some r => [r] | None => [] end.

Fixpoint fasta_records (lines : list string) (cur : option SeqRecord)
  : list SeqRecord :=
  match lines with
  | [] => flush cur
  | String ">" h :: ls =>
      flush cur ++ fasta_records ls
        (Some {| seq_id := first_word h; description := h; seq_str := EmptyString |})
  | l :: ls =>
      fasta_records ls
        ((fun r => {| seq_id := seq_id r; description := description r;
                      seq_str := (seq_str r ++ l)%string |}) <$> cur)
  end.

Definition ref_parse (content : string) : list SeqRecord :=
  fasta_records (str_split content nl) None.

Definition with_files (w : world) (f : gmap string string) : world :=
  {| files := f; dirs := dirs w; history := history w |}.

Definition ref_shell (cmd : string) (w : world) : Z * world :=
  match strip_prefix "mafft --retree 1 --maxiterate 0 " cmd with
  | Some rest =>
      match str_split rest " > " with
      | [inp; out] =>
          match files w !! inp with
          | Some c => (0%Z, with_files w (<[out := c]> (files w)))
          | None => (1%Z, with_files w (<[out := EmptyString]> (files w)))
          end
      | _ => (2%Z, w)
      end
  | None =>
      match strip_prefix "rm -r " cmd with
      | Some p => (0%Z, with_files w (delete p (files w)))
      | None => (127%Z, w)
      end
  end.

Definition count_matches (a b : string) : nat :=
  length (filter (fun p => p.1 = p.2)
                 (zip (list_ascii_of_string a) (list_ascii_of_string b))).

Definition ref_globalxx (a b : string) : list alignment :=
  [ {| seqA := a; seqB := b; score := of_nat (count_matches a b) |} ].

Definition ref_chi2_ppf (q : float64) (df : nat) : float64 :=
  match df with
  | 0 => NaN
  | 1 => lit 3841 1000
  | 2 => lit 5991 1000
  | 3 => lit 7815 1000
  | 4 => lit 9488 1000
  | _ => of_nat (2 * df)
  end.

Definition float64_to_sum (x : float64) : option (bool + Qc) :=
  match x with
  | NaN => None
  | Inf b => Some (inl b)
  | Fin q => Some (inr q)
  end.

Definition float64_of_sum (x : option (bool + Qc)) : float64 :=
  match x with
  | None => NaN
  | Some (inl b) => Inf b
  | Some (inr q) => Fin q
  end.

#[global] Instance float64_eq_dec : EqDecision float64.
Proof. solve_decision. Defined.

#[global] Instance float64_countable : Countable float64.
Proof.
  apply (inj_countable' float64_to_sum float64_of_sum).
  intros []; reflexivity.
Defined.

#[global] Instance exn_eq_dec : EqDecision exn.
Proof. solve_decision. Defined.

#[global] Instance result_eq_dec {A} `{EqDecision A} : EqDecision (result A).
Proof. solve_decision. Defined.

#[global] Instance similarity_row_eq_dec : EqDecision similarity_row.
Proof. solve_decision. Defined.

#[global] Instance similarity_row_countable : Countable similarity_row.
Proof.
  apply (inj_countable'
           (fun r => (accession_1 r, accession_2 r, similarity r))
           (fun t => {| accession_1 := t.1.1; accession_2 := t.1.2;
                        similarity := t.2 |})).
  intros []; reflexivity.
Defined.

Fixpoint bits_of_positive (p : positive) : string :=
  match p with
  | xH => EmptyString
  | xO p' => String "0" (bits_of_positive p')
  | xI p' => String "1" (bits_of_positive p')
  end.

Fixpoint positive_of_bits (s : string) : option positive :=
  match s with
  | EmptyString => Some xH
  | String "0" s' => xO <$> positive_of_bits s'
  | String "1" s' => xI <$> positive_of_bits s'
  | String _ _ => None
  end.

Definition ref_to_csv (t : list similarity_row) : string :=
  bits_of_positive (encode t).

Definition ref_read_csv (c : string) : result (list similarity_row) :=
  match positive_of_bits c ≫= decode with
  | Some t => Ok t
  | None => Raise ValueError
  end.

Definition ref_float_str (x : float64) : string :=
  match x with
  | NaN => "nan"
  | Inf b => if b then "-inf" else "inf"
  | Fin q =>
      (* two decimals are enough for the thresholds used here *)
      let h := (Qnum (this q) * 100 / Zpos (Qden (this q)))%Z in
      (pretty (h / 100)%Z ++ "." ++ pretty (h mod 100 / 10)%Z
       ++ pretty (h mod 10)%Z)%string
  end.

Definition ref_ext : externals := {|
  cwd := "/work";
  CDHIT_DIR := "/opt/cdhit/";
  run_command := ref_shell;
  SeqIO_parse := ref_parse;
  globalxx := ref_globalxx;
  chi2_ppf := ref_chi2_ppf;
  to_csv := ref_to_csv;
  read_csv := ref_read_csv;
  pickle_dumps_pairs := fun d => bits_of_positive (encode d);
  pickle_dumps_names := fun d => bits_of_positive (encode d);
  pickle_loads_names := fun c => match positive_of_bits c ≫= decode with
                                 | Some d => Ok d
                                 | None => Raise ValueError
                                 end;
  float_str := ref_float_str;
|}.

Definition world_of (l : list (string * string)) : world :=
  {| files := list_to_map l; dirs := ∅; history := [] |}.




(** ** Auxiliary notions used to state properties *)

(** keys in strictly increasing order *)
Definition keys_sorted (acc : list (string * float64)) : Prop :=
  StronglySorted (fun a b => String.compare a b = Lt) (map fst acc).

(** the values summed for key [k]: the distances of its rows, [nan] as 0 *)
Definition group_values (df : list distance_row) (k : string) : list float64 :=
  map (fun r => nan_to_zero (distance r))
      (filter (fun r => String.eqb (element_1 r) k = true) df).

(** adding one more value to an optional running sum *)
Definition add_to (o : option float64) (v : float64) : option float64 :=
  Some (match o with Some s => f_add s v | None => v end).

(** one step of the loop that builds [seq_id_to_array] *)
Definition tokenize_step (acc : result (pydict (list Z))) (s : SeqRecord)
  : result (pydict (list Z)) :=
  rbind acc (fun d =>
  rbind (rmapM seq_map (list_ascii_of_string (seq_str s))) (fun a =>
  Ok (dict_set d (seq_id s) a))).

(** all ordered pairs of the members of [keys], first member varying slowest *)
Definition ordered_pairs (keys : list string) : list (string * string) :=
  flat_map (fun acc1 => map (fun acc2 => (acc1, acc2)) keys) keys.

(** Python's [sub in s] for a non-empty [sub] *)
Fixpoint contains (s sub : string) : bool :=
  starts_with sub s ||
  match s with
  | EmptyString => false
  | String _ s' => contains s' sub
  end.

(** the world after [os.system(cmd)] returned in world [w] *)
Definition after_command (ext : externals) (cmd : string) (w : world) : world :=
  {| files := files (snd (run_command ext cmd w));
     dirs := dirs (snd (run_command ext cmd w));
     history := history w ++ [cmd] |}.

(** the world after [os.makedirs(aux_dir, exist_ok=True)] of the CD-HIT
    similarity strategy *)
Definition with_aux_dir (ext : externals) (w : world) : world :=
  {| files := files w; dirs := {[cdhit_aux_dir ext]} ∪ dirs w;
     history := history w |}.

(** an accession without line break in which every underscore is followed
    by a digit, as in [NC_045512] *)
Fixpoint plain_accession (s : string) : bool :=
  match s with
  | EmptyString => true
  | String c s' =>
      negb (Ascii.eqb c (ascii_of_nat 10))
      && (if Ascii.eqb c "_"
          then match s' with String d _ => is_digit d | EmptyString => false end
          else true)
      && plain_accession s'
  end.

(** A row of integers small enough for the sum of [n] copies of any entry
    to stay within the 53 bits of a double's mantissa.  On [n] such rows,
    all the same, every operation of the two detectors is exact in double
    precision: the partial sums of a column are multiples [k * x] with
    [k <= n], their quotient by [n] is [x] itself, and the differences and
    products that follow are zeros. *)
Definition exact_entry (n : nat) (x : float64) : Prop :=
  exists z : Z, x = of_Z z /\ (Z.of_nat n * Z.abs z <= 2 ^ 53)%Z.

Definition exact_row (n : nat) (r : list float64) : Prop :=
  Forall (exact_entry n) r.

(** ** Concrete inputs *)

Definition drow (a b : string) (num : Z) (den : positive) : distance_row :=
  {| element_1 := a; element_2 := b; distance := lit num den |}.

(** The symmetric table [(A,B) = 0.2], [(A,C) = 0.8], [(B,C) = 0.6] with a
    zero diagonal, in the row order [compute_pairwise_sequence_distances]
    produces. *)
Definition abc_table : list distance_row :=
  [ drow "A" "A" 0 1; drow "A" "B" 2 10; drow "A" "C" 8 10;
    drow "B" "A" 2 10; drow "B" "B" 0 1; drow "B" "C" 6 10;
    drow "C" "A" 8 10; drow "C" "B" 6 10; drow "C" "C" 0 1 ].

(** The same distances without the self-pairs *)
Definition abc_table_off_diagonal : list distance_row :=
  [ drow "A" "B" 2 10; drow "A" "C" 8 10;
    drow "B" "A" 2 10; drow "B" "C" 6 10;
    drow "C" "A" 8 10; drow "C" "B" 6 10 ].

Definition member (acc s : string) : element :=
  {| accession := acc; taxon_name := "Coronaviridae"; sequence := Some s |}.

(** Three members of one cluster; the middle one is one edit away from each
    of the other two. *)
Definition abc_members : list element :=
  [ member "A" "AAAA"; member "B" "AAAT"; member "C" "AATT" ].

Definition matrix (ncols : nat) (l : list (list Z)) : ndarray :=
  {| shape1 := ncols; rows := map (map of_Z) l |}.

(** Six observations of two features; the last one lies far out. *)
Definition six_points : ndarray :=
  matrix 2 [ [1; 2]; [2; 1]; [3; 5]; [0; 0]; [1; 1]; [100; 100] ]%Z.

(** Three observations of a single feature *)
Definition one_column : ndarray := matrix 1 [ [1]; [2]; [3] ]%Z.

(** Three identical observations of two features *)
Definition three_equal_rows : ndarray := matrix 2 [ [1; 2]; [1; 2]; [1; 2] ]%Z.

(** Two sequences, and a cluster report left behind by an earlier CD-HIT
    run on a file of the same name. *)
Definition two_sequences : string :=
  (">a" ++ nl ++ "ACGT" ++ nl ++ ">b" ++ nl ++ "ACGA" ++ nl)%string.

Definition stale_report : string :=
  (">Cluster 0" ++ nl ++ "0 4nt, >a... *" ++ nl
   ++ "1 4nt, >b... at 10.00%" ++ nl)%string.

Definition world_with_stale_report : world :=
  world_of [ ("seqs.fasta", two_sequences);
             ("/work/cdhit_aux//cdhit_group_out_seqs.fasta", "");
             ("/work/cdhit_aux//cdhit_group_out_seqs.fasta.clstr", stale_report) ].

(** Three aligned sequences in [d/x.fasta] and nothing else *)
Definition three_sequences : string :=
  (">a first" ++ nl ++ "ACGT" ++ nl ++ ">b" ++ nl ++ "ACGA" ++ nl
   ++ ">c" ++ nl ++ "A-GA" ++ nl)%string.

Definition fresh_world : world := world_of [ ("d/x.fasta", three_sequences) ].


(** A sequence file whose name does not end in [.fasta] *)
Definition world_with_fa : world := world_of [ ("x.fa", three_sequences) ].

(** * Properties *)

(** ** The embedding on small inputs *)

Example lev_kitten_sitting : lev "kitten" "sitting" = 3.
Proof. reflexivity. Qed.

Example distance_one_edit_in_four :
  get_pairwise_alignment_distance "AAAA" "AAAT" = lit 1 4.
Proof. apply (bool_decide_unpack _). vm_compute. exact I. Qed.

Example replace_every_dot :
  aligned_path "run.1/seqs.fasta" = "run_aligned.1/seqs_aligned.fasta".
Proof. reflexivity. Qed.

Example replace_suffix :
  similarities_path "run.1/seqs.fasta" = "run.1/seqs_similarity_values.csv".
Proof. reflexivity. Qed.

Example split_cluster_report :
  str_split "x>Cluster 0>Cluster 1" ">Cluster" = ["x"; " 0"; " 1"].
Proof. reflexivity. Qed.

Example parse_cluster_number : parse_int64 " 12" = Ok 12%Z.
Proof. reflexivity. Qed.

Example find_percentages :
  similarity_finditer 0 "0 4nt, >a... * 1 4nt, >b... at +/98.50% 7.% .5%"
  = [lit 985 1000; lit 7 100].
Proof. apply (bool_decide_unpack _). vm_compute. exact I. Qed.

Example search_member : member_search "1 4nt, >S12... at 75.00%" = Ok "S12".
Proof. reflexivity. Qed.

Example groupby_sorts_keys :
  map fst (groupby_sum [drow "C" "A" 1 2; drow "A" "C" 1 2; drow "C" "C" 0 1])
  = ["A"; "C"].
Proof. reflexivity. Qed.

Example argmin_skips_nan :
  series_argmin [NaN; lit 3 10; lit 1 10; lit 1 10] = Ok 2%Z.
Proof. reflexivity. Qed.

Example inverse_two_by_two :
  np_linalg_inv [[of_Z 2; of_Z 1]; [of_Z 1; of_Z 3]]
  = Ok [[lit 3 5; lit (-1) 5]; [lit (-1) 5; lit 2 5]].
Proof. apply (bool_decide_unpack _). vm_compute. exact I. Qed.

Example inverse_of_singular :
  np_linalg_inv [[of_Z 1; of_Z 2]; [of_Z 2; of_Z 4]] = Raise LinAlgError.
Proof. vm_compute. reflexivity. Qed.

Example determinant_three_by_three :
  det_go 3 [[of_Z 0; of_Z 2; of_Z 1]; [of_Z 1; of_Z 0; of_Z 0];
            [of_Z 3; of_Z 1; of_Z 4]] = of_Z (-7).
Proof. apply (bool_decide_unpack _). vm_compute. exact I. Qed.

Example euclidean_on_six_points :
  compute_outliers_with_euclidean_dist ref_ext six_points = Ok (Indexes [5]).
Proof. vm_compute. reflexivity. Qed.

Example similarity_one_mismatch_in_four :
  compute_similarity_across_aligned_sequences ("a", "b")
    [("a", [0; 1; 2; 3]%Z); ("b", [0; 1; 2; 0]%Z)] = Ok (lit 3 4).
Proof. apply (bool_decide_unpack _). vm_compute. exact I. Qed.

Example msa_on_fresh_world :
  fst (get_sequence_similarity_with_multiple_alignment ref_ext "d/x.fasta" fresh_world)
  = Ok [lit 7 9; lit 1 2; lit 1 1; lit 3 4].
Proof. apply (bool_decide_unpack _). vm_compute. exact I. Qed.

Example pairwise_on_two_sequences :
  fst (get_sequences_similarity_with_pairwise_alignments ref_ext "seqs.fasta"
         (world_of [("seqs.fasta", two_sequences)])) = Raise TypeError.
Proof. vm_compute. reflexivity. Qed.

Example cdhit_input_of_members :
  cdhit_input_text (name_elements abc_members)
  = (">S0" ++ nl ++ "AAAA" ++ nl ++ ">S1" ++ nl ++ "AAAT" ++ nl ++ ">S2" ++ nl
     ++ "AATT")%string.
Proof. vm_compute. reflexivity. Qed.

(** ** Arithmetic of the float model *)

Lemma Qc_is0_of_nat (n : nat) : Qc_is0 (Qc_of_Z (Z.of_nat n)) = bool_decide (n = 0).
Proof.
  unfold Qc_is0. rewrite <- Z2Qc_inj_0.
  apply bool_decide_ext. rewrite Z2Qc_inj_iff. lia.
Qed.

Lemma f_div_zero_nat (n : nat) : n <> 0 -> f_div (of_nat 0) (of_nat n) = f_zero.
Proof.
  intros Hn. unfold f_div, of_nat, of_Z, f_zero.
  rewrite Qc_is0_of_nat, bool_decide_eq_false_2 by exact Hn.
  f_equal. change (Qc_of_Z (Z.of_nat 0)) with (Qc_of_Z 0).
  rewrite Z2Qc_inj_0. unfold Qcdiv. apply Qcmult_0_l.
Qed.

Lemma f_ltb_trans (x y z : float64) :
  f_ltb x y = true -> f_ltb y z = true -> f_ltb x z = true.
Proof.
  destruct x as [|[]|qx], y as [|[]|qy], z as [|[]|qz]; simpl;
    try discriminate; try reflexivity.
  rewrite !bool_decide_eq_true. apply Qclt_trans.
Qed.

(** ** DistanceMetric *)

Lemma lev_nil_r (s : string) : lev s EmptyString = String.length s.
Proof. destruct s; reflexivity. Qed.

Lemma lev_nil_l (t : string) : lev EmptyString t = String.length t.
Proof. destruct t; reflexivity. Qed.

Lemma lev_cons (a b : ascii) (s t : string) :
  lev (String a s) (String b t) =
  Nat.min (S (lev s (String b t)))
    (Nat.min (S (lev (String a s) t))
             ((if Ascii.eqb a b then 0 else 1) + lev s t)).
Proof. reflexivity. Qed.

Lemma lev_sym (s t : string) : lev s t = lev t s.
Proof.
  revert t. induction s as [|a s IHs]; intros t.
  - rewrite lev_nil_r. apply lev_nil_l.
  - induction t as [|b t IHt].
    + reflexivity.
    + rewrite !lev_cons, IHt, !IHs, (Ascii.eqb_sym b a). lia.
Qed.

Lemma lev_refl (s : string) : lev s s = 0.
Proof.
  induction s as [|a s IH]; [reflexivity|].
  rewrite lev_cons, Ascii.eqb_refl, IH. lia.
Qed.

Lemma distance_finite (a b : string) :
  a <> EmptyString \/ b <> EmptyString ->
  exists q, get_pairwise_alignment_distance a b = Fin q.
Proof.
  intros Hab. unfold get_pairwise_alignment_distance, f_div, of_nat, of_Z.
  rewrite Qc_is0_of_nat, bool_decide_eq_false_2; [eauto|].
  destruct a, b; simpl; try lia. destruct Hab; congruence.
Qed.

(** C5, as the code has it: the distance is the same value in both argument
    orders, Python's [==] holds between the two whenever one of the sequences
    is not empty, a non-empty sequence is at distance 0 from itself, and two
    empty sequences give the undefined value [nan]. *)
Theorem alignment_distance_symmetric_zero_on_nonempty :
  (forall a b : string,
      get_pairwise_alignment_distance a b = get_pairwise_alignment_distance b a) /\
  (forall a b : string,
      a <> EmptyString \/ b <> EmptyString ->
      f_eqb (get_pairwise_alignment_distance a b)
            (get_pairwise_alignment_distance b a) = true) /\
  (forall a : string,
      a <> EmptyString -> get_pairwise_alignment_distance a a = f_zero) /\
  get_pairwise_alignment_distance EmptyString EmptyString = NaN.
Proof.
  assert (Hsym : forall a b : string,
             get_pairwise_alignment_distance a b = get_pairwise_alignment_distance b a).
  { intros a b. unfold get_pairwise_alignment_distance.
    rewrite (lev_sym a b), (Nat.max_comm (String.length a)). reflexivity. }
  split; [|split; [|split]].
  - exact Hsym.
  - intros a b Hab. rewrite (Hsym b a).
    destruct (distance_finite a b Hab) as [q ->]. simpl.
    apply bool_decide_eq_true. reflexivity.
  - intros a Ha. unfold get_pairwise_alignment_distance.
    rewrite lev_refl, Nat.max_id. apply f_div_zero_nat.
    destruct a; simpl; [congruence | lia].
  - reflexivity.
Qed.

Lemma alignment_distance_symmetric_zero_on_nonempty_witness :
  "ACGT" <> EmptyString /\
  get_pairwise_alignment_distance "ACGT" "ACGT" = f_zero /\
  f_eqb (get_pairwise_alignment_distance "ACGT" "AGT")
        (get_pairwise_alignment_distance "AGT" "ACGT") = true.
Proof.
  destruct alignment_distance_symmetric_zero_on_nonempty as (_ & Heq & Hzero & _).
  split; [discriminate|]. split.
  - apply Hzero. discriminate.
  - apply Heq. left. discriminate.
Defined.

(** C5 fails as stated on the empty sequence: the distance of the empty
    sequence to itself is [nan], which is neither 0 nor equal to itself. *)
Lemma alignment_distance_empty_is_nan :
  get_pairwise_alignment_distance EmptyString EmptyString <> f_zero /\
  f_eqb (get_pairwise_alignment_distance EmptyString EmptyString) f_zero = false /\
  f_eqb (get_pairwise_alignment_distance EmptyString EmptyString)
        (get_pairwise_alignment_distance EmptyString EmptyString) = false.
Proof. split; [discriminate | split; reflexivity]. Qed.

(** ** Column similarity *)

(** C4: on a record whose two accessions are equal the similarity is 1,
    whatever the token map holds; in particular for a map without that key. *)
Theorem similarity_identity_shortcut
  (record : string * string) (seq_to_token : pydict (list Z)) :
  fst record = snd record ->
  compute_similarity_across_aligned_sequences record seq_to_token = Ok f_one.
Proof.
  intros H. unfold compute_similarity_across_aligned_sequences.
  rewrite H, String.eqb_refl. reflexivity.
Qed.

Lemma similarity_identity_shortcut_witness :
  dict_get (V := list Z) [] "NC_045512" = None /\
  compute_similarity_across_aligned_sequences ("NC_045512", "NC_045512") [] = Ok f_one.
Proof.
  split; [reflexivity|].
  apply (similarity_identity_shortcut ("NC_045512", "NC_045512") []). reflexivity.
Defined.

(** ** ClusterAssigner: word length *)

Lemma f_leb_not_gtb (x y : float64) : f_leb x y = true -> f_gtb x y = false.
Proof.
  unfold f_leb, f_gtb.
  destruct x as [|[]|qx], y as [|[]|qy]; simpl; try discriminate; try reflexivity.
  intros H. apply bool_decide_eq_false. apply orb_true_iff in H.
  rewrite !bool_decide_eq_true in H. apply Qcle_not_lt.
  destruct H as [H | ->]; [apply Qclt_le_weak, H | apply Qcle_refl].
Qed.

Lemma f_leb_ltb_not_gtb (x y z : float64) :
  f_leb x y = true -> f_ltb y z = true -> f_gtb x z = false.
Proof.
  intros Hxy Hyz. destruct (f_gtb x z) eqn:E; [|reflexivity].
  unfold f_gtb in E. pose proof (f_ltb_trans _ _ _ Hyz E) as Hyx.
  apply f_leb_not_gtb in Hxy. unfold f_gtb in Hxy. congruence.
Qed.

(** The word length as a function of the threshold:
    [> 0.7 -> 8], [(0.6, 0.7] -> 4], [(0.5, 0.6] -> 3], [<= 0.5 -> 2]. *)
Lemma word_len_bands (t : float64) :
  (f_gtb t (lit 7 10) = true -> word_len t = 8%Z) /\
  (f_gtb t (lit 6 10) = true -> f_leb t (lit 7 10) = true -> word_len t = 4%Z) /\
  (f_gtb t (lit 5 10) = true -> f_leb t (lit 6 10) = true -> word_len t = 3%Z) /\
  (f_leb t (lit 5 10) = true -> word_len t = 2%Z).
Proof.
  unfold word_len. split; [|split; [|split]].
  - intros H7. assert (H6 : f_gtb t (lit 6 10) = true).
    { unfold f_gtb in *. eapply f_ltb_trans; [|exact H7].
      apply bool_decide_eq_true. reflexivity. }
    rewrite H6, H7. reflexivity.
  - intros H6 H7. apply f_leb_not_gtb in H7. rewrite H6, H7. reflexivity.
  - intros H5 H6. apply f_leb_not_gtb in H6. rewrite H6, H5. reflexivity.
  - intros H5. assert (H6 : f_gtb t (lit 6 10) = false).
    { eapply f_leb_ltb_not_gtb; [exact H5|].
      apply bool_decide_eq_true. reflexivity. }
    apply f_leb_not_gtb in H5. rewrite H6, H5. reflexivity.
Qed.

(** ** Running the monad *)

Ltac run :=
  unfold mbind, M_bind, bind, ret, raise, lift, path_exists, makedirs; simpl.

Lemma exists_in_more_dirs (w : world) (f : gmap string string) (d : gset string)
  (h : list string) (p : string) :
  f = files w -> dirs w ⊆ d ->
  exists_in w p = true ->
  exists_in {| files := f; dirs := d; history := h |} p = true.
Proof.
  intros -> Hd. unfold exists_in. simpl.
  rewrite !orb_true_iff, !bool_decide_eq_true.
  intros [Hf | Hp]; [left; exact Hf | right; apply Hd, Hp].
Qed.

(** ** SimilarityMatrixBuilder: missing input *)

(** C3: when the sequence path does not exist, each of the three strategies
    returns the four undefined values, raises nothing and leaves the world
    as it is. *)
Theorem missing_input_gives_nan4 (ext : externals) (path : string) (w : world) :
  exists_in w path = false ->
  get_sequence_similarity_with_multiple_alignment ext path w = (Ok nan4, w) /\
  get_sequences_similarity_with_pairwise_alignments ext path w = (Ok nan4, w) /\
  forall (mem_limit : Z) (threshold : float64),
    get_sequences_similarity_with_cdhit ext path mem_limit threshold w
    = (Ok nan4, w).
Proof.
  intros H. split; [|split; [|intros mem_limit threshold]].
  - unfold get_sequence_similarity_with_multiple_alignment. run.
    rewrite H. reflexivity.
  - unfold get_sequences_similarity_with_pairwise_alignments. run.
    rewrite H. reflexivity.
  - unfold get_sequences_similarity_with_cdhit. run.
    rewrite H. reflexivity.
Qed.

Lemma missing_input_gives_nan4_witness :
  get_sequence_similarity_with_multiple_alignment ref_ext "absent.fasta" (world_of [])
  = (Ok nan4, world_of []) /\
  get_sequences_similarity_with_pairwise_alignments ref_ext "absent.fasta" (world_of [])
  = (Ok nan4, world_of []) /\
  get_sequences_similarity_with_cdhit ref_ext "absent.fasta" 4000 (lit 5 10) (world_of [])
  = (Ok nan4, world_of []).
Proof.
  destruct (missing_input_gives_nan4 ref_ext "absent.fasta" (world_of []))
    as (H1 & H2 & H3); [reflexivity|].
  split; [exact H1 | split; [exact H2 | apply H3]].
Defined.

(** ** ClusterAssigner: cached inputs *)

(** C10: when [sequences.fasta], [names_translator.pickle] and the CD-HIT
    output for the threshold are present under [aux_dir], the outcome of
    [get_cdhit_clusters] (mapping, exception and resulting world alike) does
    not depend on the [elements] argument. *)
Theorem cdhit_clusters_ignore_elements_when_cached
  (ext : externals) (elements elements' : list element)
  (homology_threshold : float64) (memory_limit : Z) (aux_dir : string) (w : world) :
  exists_in w (aux_dir ++ "/sequences.fasta")%string = true ->
  exists_in w (aux_dir ++ "/names_translator.pickle")%string = true ->
  exists_in w (aux_dir ++ "/cdhit_out_thr_" ++ float_str ext homology_threshold)%string
  = true ->
  get_cdhit_clusters ext elements homology_threshold memory_limit aux_dir w
  = get_cdhit_clusters ext elements' homology_threshold memory_limit aux_dir w.
Proof.
  intros Hin Hnames Hout. unfold get_cdhit_clusters. run.
  rewrite (exists_in_more_dirs w _ _ _ _ eq_refl (union_subseteq_r _ _) Hin).
  rewrite (exists_in_more_dirs w _ _ _ _ eq_refl (union_subseteq_r _ _) Hnames).
  simpl.
  rewrite (exists_in_more_dirs w _ _ _ _ eq_refl (union_subseteq_r _ _) Hout).
  reflexivity.
Qed.

Lemma cdhit_clusters_ignore_elements_when_cached_witness :
  let w := world_of [ ("/aux/sequences.fasta", ">S0");
                      ("/aux/names_translator.pickle",
                       pickle_dumps_names ref_ext {[ "S0" := "NC_1_virus" ]});
                      ("/aux/cdhit_out_thr_0.99", "");
                      ("/aux/cdhit_out_thr_0.99.clstr",
                       (">Cluster 0" ++ nl ++ "0 4nt, >S0... *" ++ nl)%string) ] in
  get_cdhit_clusters ref_ext abc_members (lit 99 100) 6000 "/aux" w
  = get_cdhit_clusters ref_ext [] (lit 99 100) 6000 "/aux" w /\
  fst (get_cdhit_clusters ref_ext [] (lit 99 100) 6000 "/aux" w)
  = Ok {[ "NC_1_virus" := 0%Z ]}.
Proof.
  intros w. split.
  - apply cdhit_clusters_ignore_elements_when_cached; vm_compute; reflexivity.
  - vm_compute. reflexivity.
Defined.

(** ** RepresentativeSelector *)

(** C1 on its own example: on the table [(A,B) = 0.2], [(A,C) = 0.8],
    [(B,C) = 0.6] the element with the smallest row sum is [B], yet
    [get_centroid] returns [A]; likewise for a three-member cluster whose
    middle member is the centroid. *)
Theorem get_centroid_returns_A_on_abc :
  get_centroid abc_table = Ok "A" /\
  centroid_by_row_sums abc_table = Some "B" /\
  get_centroid abc_table_off_diagonal = Ok "A" /\
  centroid_by_row_sums abc_table_off_diagonal = Some "B" /\
  cluster_representative abc_members = Ok "A" /\
  centroid_by_row_sums (compute_pairwise_sequence_distances abc_members) = Some "B".
Proof. vm_compute. repeat split; reflexivity. Qed.

(** *** What [get_centroid] returns in general

    Whenever the first row of the pairwise table has distance 0 and no row
    has a negative distance, which is what
    [compute_pairwise_sequence_distances] produces, the position handed to
    [iloc] is 0 and the result is the first key of the grouped sums, whatever
    the sums are. *)

Lemma argmin_go_keeps (i0 i : nat) (b : float64) (l : list float64) :
  Forall (fun x => f_ltb x b = false) l ->
  argmin_go i (Some (i0, b)) l = Some i0.
Proof.
  intros H. revert i. induction H as [|x l Hx Hl IH]; intros i; simpl.
  - reflexivity.
  - destruct (is_nan x); [apply IH|]. rewrite Hx. apply IH.
Qed.

Lemma group_add_cons (k : string) (v : float64) (acc : list (string * float64)) :
  exists kv tl, group_add k v acc = kv :: tl.
Proof.
  destruct acc as [|[k' s] acc]; simpl; [eauto|].
  destruct (String.compare k k'); eauto.
Qed.

Lemma groupby_fold_cons (df : list distance_row) (acc : list (string * float64)) :
  acc <> [] ->
  exists kv tl,
    fold_left (fun acc r => group_add (element_1 r) (nan_to_zero (distance r)) acc)
              df acc = kv :: tl.
Proof.
  revert acc. induction df as [|r df IH]; intros acc Hacc; simpl.
  - destruct acc; [congruence | eauto].
  - apply IH.
    destruct (group_add_cons (element_1 r) (nan_to_zero (distance r)) acc)
      as (kv & tl & ->). discriminate.
Qed.

Lemma get_centroid_first_group (r0 : distance_row) (rest : list distance_row) :
  distance r0 = f_zero ->
  Forall (fun r => f_ltb (distance r) f_zero = false) rest ->
  exists k s tl,
    groupby_sum (r0 :: rest) = (k, s) :: tl /\
    get_centroid (r0 :: rest) = Ok k.
Proof.
  intros H0 Hrest. unfold get_centroid, series_argmin.
  destruct (groupby_fold_cons rest
              (group_add (element_1 r0) (nan_to_zero (distance r0)) []))
    as ([k s] & tl & Hg); [discriminate|].
  exists k, s, tl. unfold groupby_sum. simpl fold_left. simpl in Hg.
  rewrite Hg. split; [reflexivity|].
  simpl map. cbn [argmin_go]. rewrite H0. simpl is_nan. cbn iota.
  rewrite argmin_go_keeps; [reflexivity|].
  apply Forall_forall. intros x Hx. apply in_map_iff in Hx.
  destruct Hx as (r & <- & Hr). rewrite Forall_forall in Hrest. auto.
Qed.

Lemma Qc_of_nat_nonneg (n : nat) : (0 <= Qc_of_Z (Z.of_nat n))%Qc.
Proof.
  rewrite <- Z2Qc_inj_0. apply (proj1 (Z2Qc_inj_le 0 (Z.of_nat n))). lia.
Qed.

Lemma distance_not_negative (a b : string) :
  f_ltb (get_pairwise_alignment_distance a b) f_zero = false.
Proof.
  unfold get_pairwise_alignment_distance, f_div, of_nat, of_Z.
  set (x := Qc_of_Z (Z.of_nat (lev a b))).
  set (y := Qc_of_Z (Z.of_nat _)).
  assert (Hx : (0 <= x)%Qc) by apply Qc_of_nat_nonneg.
  assert (Hy : (0 <= y)%Qc) by apply Qc_of_nat_nonneg.
  assert (Hneg : Qc_negb x = false).
  { apply bool_decide_eq_false. apply Qcle_not_lt, Hx. }
  unfold Qc_is0. destruct (decide (y = 0%Qc)) as [Hy0 | Hy0].
  - rewrite (bool_decide_eq_true_2 _ Hy0).
    destruct (bool_decide (x = 0%Qc)); simpl; [reflexivity | exact Hneg].
  - rewrite (bool_decide_eq_false_2 _ Hy0). simpl.
    apply bool_decide_eq_false. intros Hlt.
    assert (Hypos : (0 < y)%Qc).
    { destruct (Qcle_lt_or_eq _ _ Hy) as [H | H]; [exact H | congruence]. }
    apply (Qcmult_lt_compat_r _ _ y Hypos) in Hlt.
    rewrite Qcmult_0_l, (Qcmult_comm (x / y) y), Qcmult_div_r in Hlt by exact Hy0.
    apply (Qcle_not_lt _ _ Hx Hlt).
Qed.

Lemma get_distance_not_negative (p : string * string) (records_data : list element) :
  f_ltb (get_distance p records_data) f_zero = false.
Proof.
  unfold get_distance.
  destruct (first_sequence records_data (fst p)); [|reflexivity].
  destruct (first_sequence records_data (snd p)); [|reflexivity].
  apply distance_not_negative.
Qed.

(** For a cluster of two or more members whose first member has a non-empty
    sequence, the representative is the first key of the grouped sums (the
    keys are sorted), not the key with the smallest sum. *)
Lemma cluster_representative_first_group (m0 m1 : element) (rest : list element)
  (s0 : string) :
  sequence m0 = Some s0 -> s0 <> EmptyString ->
  exists k s tl,
    groupby_sum (compute_pairwise_sequence_distances (m0 :: m1 :: rest))
    = (k, s) :: tl /\
    cluster_representative (m0 :: m1 :: rest) = Ok k.
Proof.
  intros Hs0 Hne. cbn [cluster_representative].
  set (members := m0 :: m1 :: rest).
  assert (Hall : Forall (fun r => f_ltb (distance r) f_zero = false)
                        (compute_pairwise_sequence_distances members)).
  { apply Forall_forall. intros r Hr. unfold compute_pairwise_sequence_distances in Hr.
    apply in_map_iff in Hr. destruct Hr as (p & <- & _).
    apply get_distance_not_negative. }
  assert (Hhead : exists tl,
             compute_pairwise_sequence_distances members
             = {| element_1 := accession m0; element_2 := accession m0;
                  distance := get_distance (accession m0, accession m0) members |}
               :: tl).
  { unfold compute_pairwise_sequence_distances, members. simpl. eauto. }
  destruct Hhead as [tl Ht]. rewrite Ht in *.
  apply get_centroid_first_group; [|eapply Forall_inv_tail, Hall].
  cbn [distance]. unfold get_distance. cbn [fst snd].
  assert (Hfirst : first_sequence members (accession m0) = Ok s0).
  { unfold first_sequence, members. simpl. rewrite String.eqb_refl, Hs0. reflexivity. }
  rewrite Hfirst. unfold get_pairwise_alignment_distance.
  rewrite lev_refl, Nat.max_id. apply f_div_zero_nat.
  destruct s0; simpl; [congruence | lia].
Qed.

(** ** OutlierDetector *)

Lemma zip_with_map_seq {A B C} (f : A -> B -> C) (d : A) (l : list A) (g : nat -> B) :
  zip_with f l (map g (seq 0 (length l)))
  = map (fun j => f (nth j l d) (g j)) (seq 0 (length l)).
Proof.
  revert g. induction l as [|x l IH]; intros g; [reflexivity|].
  simpl. f_equal. rewrite <- seq_shift, !map_map. apply IH.
Qed.

Lemma map_nth_seq {A} (d : A) (l : list A) :
  map (fun j => nth j l d) (seq 0 (length l)) = l.
Proof.
  induction l as [|x l IH]; [reflexivity|].
  simpl. f_equal. rewrite <- seq_shift, map_map. exact IH.
Qed.

Lemma length_np_mean_axis0 (data : ndarray) :
  length (np_mean_axis0 data) = shape1 data.
Proof. unfold np_mean_axis0. rewrite length_map, length_seq. reflexivity. Qed.

Lemma euclidean_score_eq (data : ndarray) (row : list float64) :
  length row = shape1 data ->
  f_sum (vec_sub row (np_mean_axis0 data)) = signed_score data row.
Proof.
  intros Hlen. unfold vec_sub, np_mean_axis0, signed_score.
  rewrite <- Hlen. rewrite (zip_with_map_seq f_sub NaN). reflexivity.
Qed.

Lemma where_gt_In (l : list float64) (c : float64) (i0 k : nat) :
  In k (where_gt i0 l c) <->
  i0 <= k /\ exists x, l !! (k - i0) = Some x /\ f_gtb x c = true.
Proof.
  revert i0. induction l as [|y l IH]; intros i0; simpl.
  - split; [tauto | intros (_ & x & Hx & _); discriminate].
  - rewrite in_app_iff, IH. split.
    + intros [Hhead | (Hle & x & Hx & Hgt)].
      * destruct (f_gtb y c) eqn:E; simpl in Hhead; [|tauto].
        destruct Hhead as [<- | []]. split; [lia|].
        exists y. rewrite Nat.sub_diag. auto.
      * split; [lia|]. exists x. split; [|exact Hgt].
        replace (k - i0) with (S (k - S i0)) by lia. exact Hx.
    + intros (Hle & x & Hx & Hgt).
      destruct (decide (k = i0)) as [-> | Hne].
      * left. rewrite Nat.sub_diag in Hx. simpl in Hx.
        injection Hx as ->. rewrite Hgt. left. reflexivity.
      * right. split; [lia|]. exists x. split; [|exact Hgt].
        replace (k - i0) with (S (k - S i0)) in Hx by lia. exact Hx.
Qed.

Lemma where_gt_sorted (l : list float64) (c : float64) (i0 : nat) :
  StronglySorted lt (where_gt i0 l c).
Proof.
  revert i0. induction l as [|y l IH]; intros i0; simpl; [constructor|].
  destruct (f_gtb y c); simpl; [|apply IH].
  constructor; [apply IH|].
  apply Forall_forall. intros k Hk. apply where_gt_In in Hk. lia.
Qed.

(** X29: on an array with at least two columns the Euclidean detector
    returns the increasing list of exactly those row positions whose signed
    sum of (row - column mean) strictly exceeds the chi-square quantile at
    0.95 with as many degrees of freedom as columns. *)
Theorem euclidean_outliers_exact (ext : externals) (data : ndarray) :
  wf_ndarray data ->
  2 <= shape1 data ->
  exists l : list nat,
    compute_outliers_with_euclidean_dist ext data = Ok (Indexes l) /\
    StronglySorted lt l /\
    forall i : nat, In i l <-> is_euclidean_outlier ext data i.
Proof.
  intros Hwf Hcols. unfold compute_outliers_with_euclidean_dist, np_index.
  pose proof (length_np_mean_axis0 data) as Hlen.
  destruct (lookup_lt_is_Some_2 (np_mean_axis0 data) 0 ltac:(lia)) as [c0 ->].
  destruct (lookup_lt_is_Some_2 (np_mean_axis0 data) 1 ltac:(lia)) as [c1 ->].
  simpl. eexists. split; [reflexivity|]. split; [apply where_gt_sorted|].
  intros i. rewrite where_gt_In, Nat.sub_0_r. unfold is_euclidean_outlier.
  split.
  - intros (_ & x & Hx & Hgt).
    rewrite list_lookup_fmap in Hx.
    destruct (rows data !! i) as [row|] eqn:Hrow; [|discriminate].
    simpl in Hx. injection Hx as <-. exists row. split; [reflexivity|].
    rewrite <- euclidean_score_eq; [exact Hgt|].
    unfold wf_ndarray in Hwf. rewrite Forall_forall in Hwf.
    apply Hwf. apply list_elem_of_In. eapply list_elem_of_lookup_2, Hrow.
  - intros (row & Hrow & Hgt). split; [lia|].
    exists (f_sum (vec_sub row (np_mean_axis0 data))).
    rewrite list_lookup_fmap, Hrow. split; [reflexivity|].
    rewrite euclidean_score_eq; [exact Hgt|].
    unfold wf_ndarray in Hwf. rewrite Forall_forall in Hwf.
    apply Hwf. apply list_elem_of_In. eapply list_elem_of_lookup_2, Hrow.
Qed.

Lemma euclidean_outliers_exact_witness :
  wf_ndarray six_points /\ 2 <= shape1 six_points /\
  exists l : list nat,
    compute_outliers_with_euclidean_dist ref_ext six_points = Ok (Indexes l) /\
    In 5 l /\ ~ In 0 l.
Proof.
  assert (Hwf : wf_ndarray six_points) by (repeat constructor).
  assert (Hcols : 2 <= shape1 six_points) by (simpl; lia).
  split; [exact Hwf|]. split; [exact Hcols|].
  destruct (euclidean_outliers_exact ref_ext six_points Hwf Hcols)
    as (l & Hl & _ & Hi).
  exists l. split; [exact Hl|]. split.
  - apply Hi. eexists. split; [reflexivity|]. vm_compute. reflexivity.
  - intros H0. apply Hi in H0. destruct H0 as (row & Hrow & Hgt).
    injection Hrow as <-. vm_compute in Hgt. discriminate.
Defined.

(** C6 on a one-column array: the scores and the cutoff are computed and no
    row exceeds the cutoff, so the list of outliers is the empty one, but
    the function does not return it: it raises [IndexError] when it reads
    [centroid[1]] for the diagnostic plot. *)
Lemma euclidean_one_column_raises :
  compute_outliers_with_euclidean_dist ref_ext one_column = Raise IndexError /\
  where_gt 0 (map (signed_score one_column) (rows one_column))
           (chi2_ppf ref_ext (lit 95 100) (shape1 one_column)) = [].
Proof. split; vm_compute; reflexivity. Qed.

(** *** Arrays whose rows are all the same *)

Lemma Qc_of_nat_S (n : nat) :
  Qc_of_Z (Z.of_nat (S n)) = (Qc_of_Z (Z.of_nat n) + 1)%Qc.
Proof. rewrite Nat2Z.inj_succ, <- Z.add_1_r, Z2Qc_inj_add, Z2Qc_inj_1. reflexivity. Qed.

Lemma Qc_of_nat_neq_0 (n : nat) : n <> 0 -> Qc_of_Z (Z.of_nat n) <> 0%Qc.
Proof. rewrite <- Z2Qc_inj_0, Z2Qc_inj_iff. lia. Qed.

Lemma fold_add_replicate (n : nat) (a q : Qc) :
  fold_left f_add (replicate n (Fin q)) (Fin a)
  = Fin (a + Qc_of_Z (Z.of_nat n) * q)%Qc.
Proof.
  revert a. induction n as [|n IH]; intros a.
  - simpl. f_equal. change (Qc_of_Z (Z.of_nat 0)) with (Qc_of_Z 0).
    rewrite Z2Qc_inj_0. ring.
  - simpl replicate. simpl fold_left. rewrite IH, Qc_of_nat_S. f_equal. ring.
Qed.

Lemma np_mean_replicate (n : nat) (q : Qc) :
  n <> 0 -> np_mean (replicate n (Fin q)) = Fin q.
Proof.
  intros Hn. unfold np_mean, f_sum, f_zero.
  rewrite fold_add_replicate, length_replicate. unfold of_nat, of_Z, f_div.
  rewrite Qc_is0_of_nat, bool_decide_eq_false_2 by exact Hn.
  f_equal. field. apply Qc_of_nat_neq_0, Hn.
Qed.

Lemma entry_finite (r : list float64) (j : nat) :
  all_finite r -> j < length r -> exists q, entry r j = Fin q.
Proof.
  intros Hr. revert j. induction Hr as [|x r Hx Hr IH]; intros j Hj; simpl in Hj.
  - lia.
  - destruct j as [|j]; simpl.
    + destruct x; try discriminate. eauto.
    + apply IH. lia.
Qed.

Lemma column_replicate (n : nat) (r : list float64) (j : nat) :
  column {| shape1 := length r; rows := replicate n r |} j = replicate n (entry r j).
Proof.
  unfold column. simpl. induction n as [|n IH]; simpl; [reflexivity|].
  f_equal. exact IH.
Qed.

Lemma np_mean_axis0_replicate (n : nat) (r : list float64) :
  n <> 0 -> all_finite r ->
  np_mean_axis0 {| shape1 := length r; rows := replicate n r |} = r.
Proof.
  intros Hn Hr. unfold np_mean_axis0. simpl shape1.
  transitivity (map (fun j => nth j r NaN) (seq 0 (length r)));
    [|apply map_nth_seq].
  apply map_ext_in. intros j Hj. apply in_seq in Hj.
  rewrite column_replicate.
  destruct (entry_finite r j Hr) as [q Hq]; [lia|].
  unfold entry in Hq. unfold entry. rewrite Hq. apply np_mean_replicate, Hn.
Qed.

Lemma vec_sub_self (r : list float64) :
  all_finite r -> vec_sub r r = replicate (length r) f_zero.
Proof.
  intros Hr. induction Hr as [|x r Hx Hr IH]; [reflexivity|].
  unfold vec_sub in *. simpl. rewrite IH. f_equal.
  destruct x; try discriminate. unfold f_sub, f_zero. simpl. f_equal. ring.
Qed.

Lemma f_sum_zeros (n : nat) : f_sum (replicate n f_zero) = f_zero.
Proof.
  unfold f_sum, f_zero. rewrite fold_add_replicate. f_equal. ring.
Qed.

Lemma map_replicate {A B} (f : A -> B) (n : nat) (x : A) :
  map f (replicate n x) = replicate n (f x).
Proof. induction n as [|n IH]; simpl; [reflexivity | f_equal; exact IH]. Qed.

Lemma where_gt_replicate (n i : nat) (x c : float64) :
  f_gtb x c = false -> where_gt i (replicate n x) c = [].
Proof.
  intros Hx. revert i. induction n as [|n IH]; intros i; simpl; [reflexivity|].
  rewrite Hx. simpl. apply IH.
Qed.

Lemma nth_replicate_lt {A} (n j : nat) (x d : A) :
  j < n -> nth j (replicate n x) d = x.
Proof.
  revert j. induction n as [|n IH]; intros j Hj; [lia|].
  destruct j as [|j]; simpl; [reflexivity | apply IH; lia].
Qed.

Lemma cov_entry_zero (n : nat) :
  2 <= n ->
  f_mul (f_sum (replicate n (f_mul f_zero f_zero))) (f_div f_one (of_nat (n - 1)))
  = f_zero.
Proof.
  intros Hn. unfold f_sum, f_zero, f_one, of_nat, of_Z. simpl f_mul at 2.
  rewrite fold_add_replicate. unfold f_div.
  rewrite Qc_is0_of_nat, bool_decide_eq_false_2 by lia.
  simpl. f_equal. unfold Qcdiv. ring.
Qed.

Lemma np_cov_replicate (n : nat) (r : list float64) :
  2 <= n -> all_finite r ->
  np_cov {| shape1 := length r; rows := replicate n r |}
  = map (fun _ => map (fun _ => f_zero) (seq 0 (length r))) (seq 0 (length r)).
Proof.
  intros Hn Hr. unfold np_cov.
  rewrite np_mean_axis0_replicate by (lia || exact Hr).
  unfold shape0. simpl shape1. simpl rows.
  rewrite length_replicate, map_replicate, vec_sub_self by exact Hr.
  destruct (Nat.ltb_spec 1 n) as [_|Hlt]; [|lia].
  apply map_ext_in. intros j Hj. apply in_seq in Hj.
  apply map_ext_in. intros k Hk. apply in_seq in Hk.
  rewrite map_replicate. unfold entry.
  rewrite !nth_replicate_lt by lia. apply cov_entry_zero, Hn.
Qed.

Lemma find_pivot_none (k : nat) (m : list (list float64)) :
  Forall (fun r => f_eqb (entry r k) f_zero = true) m -> find_pivot k m = None.
Proof.
  induction 1 as [|r m Hr Hm IH]; simpl; [reflexivity|].
  rewrite Hr, IH. reflexivity.
Qed.

Lemma inv_zero_matrix (d : nat) :
  d <> 0 ->
  np_linalg_inv (map (fun _ : nat => map (fun _ : nat => f_zero) (seq 0 d)) (seq 0 d))
  = Raise LinAlgError.
Proof.
  intros Hd. unfold np_linalg_inv. rewrite length_map, length_seq.
  destruct d as [|d]; [congruence|].
  cbn [gauss_jordan]. rewrite drop_0, find_pivot_none; [reflexivity|].
  apply Forall_forall. intros row Hrow.
  apply list_elem_of_In, elem_of_lookup_imap in Hrow.
  destruct Hrow as (i & r0 & -> & Hr0).
  apply list_elem_of_lookup_2, list_elem_of_In, in_map_iff in Hr0.
  destruct Hr0 as (j & <- & _). reflexivity.
Qed.

(** In the exact arithmetic of the model: on an array of finite values whose
    rows are all the same, the Mahalanobis detector (two or more rows, one
    or more columns) returns the undefined value [nan] and not a list, and
    the Euclidean detector (two or more columns, chi-square quantile not
    negative) returns the empty list. *)
Lemma identical_rows_in_exact_arithmetic (ext : externals) (n : nat)
  (r : list float64) :
  all_finite r ->
  (2 <= n -> 1 <= length r ->
   compute_outliers_with_mahalanobis_dist ext
     {| shape1 := length r; rows := replicate n r |} = Ok Undefined) /\
  (2 <= length r ->
   f_gtb f_zero (chi2_ppf ext (lit 95 100) (length r)) = false ->
   compute_outliers_with_euclidean_dist ext
     {| shape1 := length r; rows := replicate n r |} = Ok (Indexes [])).
Proof.
  intros Hr. split.
  - intros Hn Hd. unfold compute_outliers_with_mahalanobis_dist.
    match goal with |- (if ?b then _ else _) = _ => destruct b end; [reflexivity|].
    unfold covariance_power_m1. simpl shape1.
    destruct (length r =? 1); [reflexivity|].
    rewrite np_cov_replicate, inv_zero_matrix by (lia || exact Hr). reflexivity.
  - intros Hd Hcut. unfold compute_outliers_with_euclidean_dist, np_index.
    set (data := {| shape1 := length r; rows := replicate n r |}).
    pose proof (length_np_mean_axis0 data) as Hlen. simpl in Hlen.
    destruct (lookup_lt_is_Some_2 (np_mean_axis0 data) 0 ltac:(lia)) as [c0 ->].
    destruct (lookup_lt_is_Some_2 (np_mean_axis0 data) 1 ltac:(lia)) as [c1 ->].
    simpl rbind. do 2 f_equal. simpl rows. simpl shape1.
    destruct n as [|n]; [reflexivity|].
    subst data. rewrite np_mean_axis0_replicate by (lia || exact Hr).
    rewrite map_replicate, vec_sub_self, f_sum_zeros by exact Hr.
    apply where_gt_replicate, Hcut.
Qed.

Lemma exact_row_finite (n : nat) (r : list float64) :
  exact_row n r -> all_finite r.
Proof.
  unfold exact_row, all_finite. apply Forall_impl.
  intros x (z & -> & _). reflexivity.
Qed.

(** C2, as the code has it: on an array whose rows are all the same row of
    integers, small enough for the column sums to be exact in double
    precision, the Mahalanobis detector (two or more rows, one or more
    columns) returns the undefined value [nan] and not a list, and the
    Euclidean detector (two or more columns, chi-square quantile not
    negative) returns the empty list. *)
Theorem identical_rows_outliers (ext : externals) (n : nat) (r : list float64) :
  exact_row n r ->
  (2 <= n -> 1 <= length r ->
   compute_outliers_with_mahalanobis_dist ext
     {| shape1 := length r; rows := replicate n r |} = Ok Undefined) /\
  (2 <= length r ->
   f_gtb f_zero (chi2_ppf ext (lit 95 100) (length r)) = false ->
   compute_outliers_with_euclidean_dist ext
     {| shape1 := length r; rows := replicate n r |} = Ok (Indexes [])).
Proof.
  intros Hr. apply identical_rows_in_exact_arithmetic, (exact_row_finite n), Hr.
Qed.

Lemma identical_rows_outliers_witness :
  exact_row 3 [of_Z 1; of_Z 2] /\
  compute_outliers_with_mahalanobis_dist ref_ext three_equal_rows = Ok Undefined /\
  compute_outliers_with_euclidean_dist ref_ext three_equal_rows = Ok (Indexes []).
Proof.
  assert (Hr : exact_row 3 [of_Z 1; of_Z 2]).
  { repeat constructor; [exists 1%Z | exists 2%Z]; (split; [reflexivity | lia]). }
  destruct (identical_rows_outliers ref_ext 3 [of_Z 1; of_Z 2] Hr) as [Hm He].
  split; [exact Hr|]. split.
  - apply Hm; simpl; lia.
  - apply He; [simpl; lia | vm_compute; reflexivity].
Defined.

(** C2 fails as stated for the Mahalanobis detector: on three identical rows
    it returns [nan], not the empty list. *)
Lemma mahalanobis_identical_rows_is_nan :
  compute_outliers_with_mahalanobis_dist ref_ext three_equal_rows = Ok Undefined /\
  compute_outliers_with_mahalanobis_dist ref_ext three_equal_rows <> Ok (Indexes []).
Proof. split; [vm_compute; reflexivity | vm_compute; discriminate]. Qed.

(** ** SimilarityMatrixBuilder: CD-HIT fallback *)

Lemma append_eq_self (a b : string) : (a ++ b)%string = a -> b = EmptyString.
Proof.
  induction a as [|c a IH]; simpl; [auto|].
  intros H. injection H as H. auto.
Qed.

Lemma exists_in_file (w : world) (p c : string) :
  files w !! p = Some c -> exists_in w p = true.
Proof.
  intros H. unfold exists_in. rewrite H.
  rewrite bool_decide_eq_true_2 by eauto. reflexivity.
Qed.

Lemma pairwise_result_ignores_dirs (ext : externals) (path : string) (w : world)
  (d : gset string) (h : list string) (c : string) :
  files w !! path = Some c ->
  let w' := {| files := files w; dirs := d; history := h |} in
  fst (get_sequences_similarity_with_pairwise_alignments ext path w')
  = fst (get_sequences_similarity_with_pairwise_alignments ext path w) /\
  files (snd (get_sequences_similarity_with_pairwise_alignments ext path w'))
  = files (snd (get_sequences_similarity_with_pairwise_alignments ext path w)).
Proof.
  intros Hc w'. unfold get_sequences_similarity_with_pairwise_alignments. run.
  rewrite (exists_in_file w path c Hc), (exists_in_file w' path c Hc). simpl.
  unfold parse_fasta, read_file. run. rewrite Hc. simpl.
  match goal with
  | |- context [rmapM ?f ?l] => destruct (rmapM f l) as [sims|e]
  end; simpl; [|split; reflexivity].
  unfold write_file. simpl.
  destruct (list_summary (map snd sims)); simpl; split; reflexivity.
Qed.

(** C9, as the code has it: for an existing input with fewer than three
    sequences whose CD-HIT output file is not already present in the
    auxiliary directory, the CD-HIT strategy returns (or raises) exactly what
    the pairwise strategy does on that input, and leaves the same files. *)
Theorem cdhit_falls_back_to_pairwise (ext : externals) (path : string)
  (mem_limit : Z) (threshold : float64) (w : world) (content : string) :
  files w !! path = Some content ->
  length (SeqIO_parse ext content) < 3 ->
  exists_in w (cdhit_group_out ext path) = false ->
  fst (get_sequences_similarity_with_cdhit ext path mem_limit threshold w)
  = fst (get_sequences_similarity_with_pairwise_alignments ext path w) /\
  files (snd (get_sequences_similarity_with_cdhit ext path mem_limit threshold w))
  = files (snd (get_sequences_similarity_with_pairwise_alignments ext path w)).
Proof.
  intros Hc Hfew Hout.
  set (w' := {| files := files w; dirs := {[cdhit_aux_dir ext]} ∪ dirs w;
                history := history w |}).
  assert (Hout' : exists_in w' (cdhit_group_out ext path) = false).
  { unfold exists_in in *. simpl.
    apply orb_false_iff in Hout. destruct Hout as [Hf Hd].
    rewrite Hf. simpl. apply bool_decide_eq_false.
    apply bool_decide_eq_false in Hd. intros Hin.
    apply elem_of_union in Hin. destruct Hin as [Hin | Hin]; [|tauto].
    apply elem_of_singleton in Hin. unfold cdhit_group_out in Hin.
    apply append_eq_self in Hin. discriminate. }
  assert (E : get_sequences_similarity_with_cdhit ext path mem_limit threshold w
              = get_sequences_similarity_with_pairwise_alignments ext path w').
  { unfold get_sequences_similarity_with_cdhit. run.
    rewrite (exists_in_file w path content Hc). simpl. fold w'.
    rewrite Hout'. simpl.
    unfold parse_fasta, read_file. run. rewrite Hc. simpl.
    destruct (Nat.ltb_spec (length (SeqIO_parse ext content)) 3) as [_|Hge];
      [reflexivity | lia]. }
  rewrite E. apply (pairwise_result_ignores_dirs ext path w _ _ content Hc).
Qed.

Lemma cdhit_falls_back_to_pairwise_witness :
  fst (get_sequences_similarity_with_cdhit ref_ext "seqs.fasta" 4000 (lit 5 10)
         (world_of [("seqs.fasta", two_sequences)]))
  = fst (get_sequences_similarity_with_pairwise_alignments ref_ext "seqs.fasta"
           (world_of [("seqs.fasta", two_sequences)])).
Proof.
  apply (cdhit_falls_back_to_pairwise ref_ext "seqs.fasta" 4000 (lit 5 10)
           (world_of [("seqs.fasta", two_sequences)]) two_sequences).
  - reflexivity.
  - vm_compute. lia.
  - vm_compute. reflexivity.
Defined.

(** C9 fails as stated when a CD-HIT output of an earlier run is still in the
    auxiliary directory: with two sequences the CD-HIT strategy reads the
    stale report and returns its statistics, while the pairwise strategy
    does something else on the same input. *)
Lemma cdhit_reads_stale_report :
  fst (get_sequences_similarity_with_cdhit ref_ext "seqs.fasta" 4000 (lit 5 10)
         world_with_stale_report)
  = Ok [lit 10 100; lit 10 100; lit 10 100; lit 10 100] /\
  fst (get_sequences_similarity_with_cdhit ref_ext "seqs.fasta" 4000 (lit 5 10)
         world_with_stale_report)
  <> fst (get_sequences_similarity_with_pairwise_alignments ref_ext "seqs.fasta"
            world_with_stale_report).
Proof.
  split.
  - apply (bool_decide_unpack _). vm_compute. exact I.
  - apply (bool_decide_unpack _). vm_compute. exact I.
Qed.

(** ** SimilarityMatrixBuilder: a second run of the alignment strategy *)

Lemma string_length_append (a b : string) :
  String.length (a ++ b) = String.length a + String.length b.
Proof. induction a as [|c a IH]; simpl; [reflexivity | rewrite IH; reflexivity]. Qed.




Lemma replace_dot_length (s : string) :
  String.length s <= String.length (replace_go "." "_aligned." 0 s).
Proof.
  induction s as [|c s IH]; [simpl; lia|].
  cbn [replace_go]. destruct (starts_with "." (String c s)).
  - rewrite string_length_append. simpl. simpl in IH. lia.
  - simpl. lia.
Qed.





Section SecondRun.
Variable ext : externals.
Variable path : string.





End SecondRun.

Lemma positive_of_bits_of_positive (p : positive) :
  positive_of_bits (bits_of_positive p) = Some p.
Proof. induction p as [p IH|p IH|]; simpl; [rewrite IH..|]; reflexivity. Qed.




(** ** ClusterAssigner: the command that is run *)

Lemma os_system_eq (ext : externals) (cmd : string) (w : world) :
  os_system ext cmd w = (Ok (fst (run_command ext cmd w)), after_command ext cmd w).
Proof.
  unfold os_system, after_command. destruct (run_command ext cmd w). reflexivity.
Qed.

Lemma string_app_inv_head (a b c : string) :
  (a ++ b)%string = (a ++ c)%string -> b = c.
Proof.
  induction a as [|x a IH]; simpl; [auto|]. intros H. injection H as H. auto.
Qed.

(** Whenever the output for the threshold is not in the auxiliary directory,
    whether or not the input files had to be written first, the only command
    run is [cd-hit-est] with the word length [word_len homology_threshold]. *)
Lemma get_cdhit_clusters_history (ext : externals) (elements : list element)
  (homology_threshold : float64) (memory_limit : Z) (aux_dir : string) (w : world) :
  exists_in w (aux_dir ++ "/cdhit_out_thr_" ++ float_str ext homology_threshold)%string
  = false ->
  history (snd (get_cdhit_clusters ext elements homology_threshold memory_limit
                  aux_dir w))
  = history w ++
    [cdhit_est_cmd ext (aux_dir ++ "/sequences.fasta")%string
       (aux_dir ++ "/cdhit_out_thr_" ++ float_str ext homology_threshold)%string
       homology_threshold (word_len homology_threshold) memory_limit
       (aux_dir ++ "/cdhit.log")%string].
Proof.
  set (out := (aux_dir ++ "/cdhit_out_thr_" ++ float_str ext homology_threshold)%string).
  intros Hout.
  assert (Hne1 : out <> (aux_dir ++ "/sequences.fasta")%string).
  { intros E. apply string_app_inv_head in E. discriminate. }
  assert (Hne2 : out <> (aux_dir ++ "/names_translator.pickle")%string).
  { intros E. apply string_app_inv_head in E. discriminate. }
  assert (Hgo : forall x : world,
             files x !! out = files w !! out -> dirs x = {[aux_dir]} ∪ dirs w ->
             exists_in x out = false).
  { intros x Hf Hdx. unfold exists_in in *. rewrite Hf, Hdx.
    apply orb_false_iff in Hout. destruct Hout as [Hfw Hd].
    rewrite Hfw. simpl. apply bool_decide_eq_false.
    apply bool_decide_eq_false in Hd. intros Hmem.
    apply elem_of_union in Hmem. destruct Hmem as [Hmem | Hmem]; [|tauto].
    apply elem_of_singleton in Hmem. apply append_eq_self in Hmem. discriminate. }
  unfold get_cdhit_clusters. run.
  match goal with
  | |- context [if ?b then _ else _] => destruct b
  end; simpl; unfold write_file; simpl; fold out;
  match goal with
  | |- context [exists_in ?x out] => rewrite (Hgo x)
  end; simpl; rewrite ?lookup_insert_ne by congruence; try reflexivity;
  rewrite os_system_eq; simpl;
  match goal with
  | |- context [(?x =? 0)%Z] => destruct (x =? 0)%Z
  end; simpl; try reflexivity;
  unfold read_file; simpl;
  repeat match goal with
         | |- context [match ?x with _ => _ end] =>
             match x with
             | files _ !! _ => destruct x
             | pickle_loads_names ext _ => destruct x
             | parse_clusters _ _ _ => destruct x
             end; simpl; try reflexivity
         end.
Qed.

(** C7: when the output for the threshold is not in the auxiliary directory,
    the one command that [get_cdhit_clusters] runs is [cd-hit-est] with, after
    [-n], the word length of the band of the homology threshold:
    8 above 0.7, 4 above 0.6 and up to 0.7, 3 above 0.5 and up to 0.6, and
    2 up to 0.5. *)
Theorem cdhit_clusters_word_len_bands (ext : externals) (elements : list element)
  (homology_threshold : float64) (memory_limit : Z) (aux_dir : string) (w : world) :
  exists_in w (aux_dir ++ "/cdhit_out_thr_" ++ float_str ext homology_threshold)%string
  = false ->
  let issued (n : string) :=
    history (snd (get_cdhit_clusters ext elements homology_threshold memory_limit
                    aux_dir w))
    = history w ++
      [(CDHIT_DIR ext ++ "cd-hit-est -i " ++ (aux_dir ++ "/sequences.fasta")
        ++ " -o " ++ (aux_dir ++ "/cdhit_out_thr_" ++ float_str ext homology_threshold)
        ++ " -c " ++ float_str ext homology_threshold
        ++ " -n " ++ n ++ " -M " ++ pretty memory_limit
        ++ " > " ++ (aux_dir ++ "/cdhit.log"))%string] in
  (f_gtb homology_threshold (lit 7 10) = true -> issued "8") /\
  (f_gtb homology_threshold (lit 6 10) = true ->
   f_leb homology_threshold (lit 7 10) = true -> issued "4") /\
  (f_gtb homology_threshold (lit 5 10) = true ->
   f_leb homology_threshold (lit 6 10) = true -> issued "3") /\
  (f_leb homology_threshold (lit 5 10) = true -> issued "2").
Proof.
  intros Hout issued.
  pose proof (get_cdhit_clusters_history ext elements homology_threshold
                memory_limit aux_dir w Hout) as Hrun.
  destruct (word_len_bands homology_threshold) as (B8 & B4 & B3 & B2).
  unfold issued, cdhit_est_cmd in *.
  split; [|split; [|split]].
  - intros H7. rewrite Hrun, (B8 H7). reflexivity.
  - intros H6 H7. rewrite Hrun, (B4 H6 H7). reflexivity.
  - intros H5 H6. rewrite Hrun, (B3 H5 H6). reflexivity.
  - intros H5. rewrite Hrun, (B2 H5). reflexivity.
Qed.

Lemma cdhit_clusters_word_len_bands_witness :
  history (snd (get_cdhit_clusters ref_ext abc_members (lit 99 100) 6000 "/aux"
                  (world_of [])))
  = [ "/opt/cdhit/cd-hit-est -i /aux/sequences.fasta -o /aux/cdhit_out_thr_0.99 -c 0.99 -n 8 -M 6000 > /aux/cdhit.log" ] /\
  history (snd (get_cdhit_clusters ref_ext abc_members (lit 65 100) 6000 "/aux"
                  (world_of [])))
  = [ "/opt/cdhit/cd-hit-est -i /aux/sequences.fasta -o /aux/cdhit_out_thr_0.65 -c 0.65 -n 4 -M 6000 > /aux/cdhit.log" ].
Proof.
  split.
  - apply (proj1 (cdhit_clusters_word_len_bands ref_ext abc_members (lit 99 100)
                    6000 "/aux" (world_of []) eq_refl)).
    vm_compute. reflexivity.
  - apply (proj1 (proj2 (cdhit_clusters_word_len_bands ref_ext abc_members
                           (lit 65 100) 6000 "/aux" (world_of []) eq_refl)));
      vm_compute; reflexivity.
Defined.

(** * Further properties of the embedded code *)

(** ** DistanceMetric: range and identity *)

Lemma lev_le_max (s t : string) :
  lev s t <= Nat.max (String.length s) (String.length t).
Proof.
  revert t. induction s as [|a s IHs]; intros t.
  - rewrite lev_nil_l. simpl. lia.
  - destruct t as [|b t].
    + rewrite lev_nil_r. lia.
    + rewrite lev_cons. specialize (IHs t). simpl String.length.
      destruct (Ascii.eqb a b); lia.
Qed.

Lemma lev_zero_iff (s t : string) : lev s t = 0 <-> s = t.
Proof.
  split; [|intros ->; apply lev_refl].
  revert t. induction s as [|a s IHs]; intros t.
  - rewrite lev_nil_l. destruct t; simpl; [reflexivity | discriminate].
  - destruct t as [|b t]; [rewrite lev_nil_r; discriminate|].
    rewrite lev_cons. intros H.
    destruct (Ascii.eqb a b) eqn:E; [|lia].
    apply Ascii.eqb_eq in E. subst b. f_equal. apply IHs. lia.
Qed.

Lemma Qc_div_mul_cancel (x y : Qc) : y <> 0%Qc -> (x / y * y)%Qc = x.
Proof. intros Hy. rewrite Qcmult_comm. apply Qcmult_div_r, Hy. Qed.

Lemma Qc_of_nat_pos (n : nat) : n <> 0 -> (0 < Qc_of_Z (Z.of_nat n))%Qc.
Proof.
  intros Hn. rewrite <- Z2Qc_inj_0.
  apply (proj1 (Z2Qc_inj_lt 0 (Z.of_nat n))). lia.
Qed.

Lemma distance_value (a b : string) :
  a <> EmptyString \/ b <> EmptyString ->
  get_pairwise_alignment_distance a b
  = Fin (Qc_of_Z (Z.of_nat (lev a b))
         / Qc_of_Z (Z.of_nat (Nat.max (String.length a) (String.length b))))%Qc
  /\ Nat.max (String.length a) (String.length b) <> 0.
Proof.
  intros Hab.
  assert (Hmax : Nat.max (String.length a) (String.length b) <> 0).
  { destruct a, b; simpl; try lia. destruct Hab; congruence. }
  split; [|exact Hmax].
  unfold get_pairwise_alignment_distance, f_div, of_nat, of_Z.
  rewrite Qc_is0_of_nat, bool_decide_eq_false_2 by exact Hmax. reflexivity.
Qed.

(** X1: unless both sequences are empty, the distance is a number between 0
    and 1, as the docstring of [get_pairwise_alignment_distance] says. *)
Theorem alignment_distance_in_unit_interval (a b : string) :
  a <> EmptyString \/ b <> EmptyString ->
  f_leb f_zero (get_pairwise_alignment_distance a b) = true /\
  f_leb (get_pairwise_alignment_distance a b) f_one = true.
Proof.
  intros Hab. destruct (distance_value a b Hab) as [-> Hmax].
  set (x := Qc_of_Z (Z.of_nat (lev a b))).
  set (y := Qc_of_Z (Z.of_nat _)).
  assert (Hy : (0 < y)%Qc) by (apply Qc_of_nat_pos, Hmax).
  assert (Hy0 : y <> 0%Qc) by (apply not_eq_sym, Qclt_not_eq, Hy).
  assert (Hx : (0 <= x)%Qc) by apply Qc_of_nat_nonneg.
  assert (Hxy : (x <= y)%Qc).
  { apply (proj1 (Z2Qc_inj_le _ _)). apply inj_le, lev_le_max. }
  assert (H0 : (0 <= x / y)%Qc).
  { apply (Qcmult_lt_0_le_reg_r _ _ y Hy).
    rewrite Qcmult_0_l, Qc_div_mul_cancel by exact Hy0. exact Hx. }
  assert (H1 : (x / y <= 1)%Qc).
  { apply (Qcmult_lt_0_le_reg_r _ _ y Hy).
    rewrite Qcmult_1_l, Qc_div_mul_cancel by exact Hy0. exact Hxy. }
  unfold f_leb, f_zero, f_one. simpl. split.
  - destruct (Qcle_lt_or_eq _ _ H0) as [H | H].
    + rewrite (bool_decide_eq_true_2 _ H). reflexivity.
    + rewrite (bool_decide_eq_true_2 (0%Qc = (x / y)%Qc) H). apply orb_true_r.
  - destruct (Qcle_lt_or_eq _ _ H1) as [H | H].
    + rewrite (bool_decide_eq_true_2 _ H). reflexivity.
    + rewrite (bool_decide_eq_true_2 ((x / y)%Qc = 1%Qc) H). apply orb_true_r.
Qed.

Lemma alignment_distance_in_unit_interval_witness :
  f_leb f_zero (get_pairwise_alignment_distance "ACGT" "AG") = true /\
  f_leb (get_pairwise_alignment_distance "ACGT" "AG") f_one = true.
Proof.
  apply (alignment_distance_in_unit_interval "ACGT" "AG"). left. discriminate.
Defined.

(** X2: unless both sequences are empty, the distance is 0 exactly when the
    two sequences are the same. *)
Theorem alignment_distance_zero_iff_equal (a b : string) :
  a <> EmptyString \/ b <> EmptyString ->
  get_pairwise_alignment_distance a b = f_zero <-> a = b.
Proof.
  intros Hab. destruct (distance_value a b Hab) as [-> Hmax].
  pose proof (Qc_of_nat_neq_0 _ Hmax) as Hy0.
  rewrite <- lev_zero_iff. unfold f_zero. split.
  - intros H.
    apply (f_equal (fun f => match f with Fin q => q | _ => 0%Qc end)) in H.
    cbv beta iota in H.
    assert (Hx : Qc_of_Z (Z.of_nat (lev a b)) = 0%Qc).
    { rewrite <- (Qc_div_mul_cancel (Qc_of_Z (Z.of_nat (lev a b))) _ Hy0).
      rewrite H. apply Qcmult_0_l. }
    rewrite <- Z2Qc_inj_0 in Hx. apply Z2Qc_inj in Hx. lia.
  - intros ->. f_equal. change (Qc_of_Z (Z.of_nat 0)) with (Qc_of_Z 0).
    rewrite Z2Qc_inj_0. unfold Qcdiv. apply Qcmult_0_l.
Qed.

Lemma alignment_distance_zero_iff_equal_witness :
  get_pairwise_alignment_distance "ACGT" "ACGT" = f_zero /\
  get_pairwise_alignment_distance "ACGT" "ACGA" <> f_zero.
Proof.
  split.
  - apply (alignment_distance_zero_iff_equal "ACGT" "ACGT"); [left; discriminate|].
    reflexivity.
  - intros H.
    apply (alignment_distance_zero_iff_equal "ACGT" "ACGA") in H;
      [discriminate | left; discriminate].
Defined.

(** ** The pairwise distance table *)

Lemma first_sequence_missing (records_data : list element) (elm : string) :
  (forall r, In r records_data -> accession r = elm -> sequence r = None) ->
  first_sequence records_data elm = Raise IndexError.
Proof.
  intros H. unfold first_sequence.
  assert (E : omap (fun r => if String.eqb (accession r) elm then sequence r else None)
                   records_data = []).
  { induction records_data as [|r l IH]; [reflexivity|].
    simpl. destruct (String.eqb (accession r) elm) eqn:Eq.
    - apply String.eqb_eq in Eq. rewrite (H r (or_introl eq_refl) Eq).
      apply IH. intros r' Hr'. apply H. right. exact Hr'.
    - apply IH. intros r' Hr'. apply H. right. exact Hr'. }
  rewrite E. reflexivity.
Qed.

(** X3: when no row of [records_data] carries a sequence for an accession,
    [get_distance] gives [nan] for every pair that involves it, in either
    position, instead of raising. *)
Theorem get_distance_nan_without_sequence
  (records_data : list element) (elm other : string) :
  (forall r, In r records_data -> accession r = elm -> sequence r = None) ->
  get_distance (elm, other) records_data = NaN /\
  get_distance (other, elm) records_data = NaN.
Proof.
  intros H. unfold get_distance. cbn [fst snd].
  rewrite (first_sequence_missing records_data elm H). split; [reflexivity|].
  destruct (first_sequence records_data other); reflexivity.
Qed.

Lemma get_distance_nan_without_sequence_witness :
  get_distance ("Z", "A") abc_members = NaN /\
  get_distance ("A", "Z") abc_members = NaN.
Proof.
  apply (get_distance_nan_without_sequence abc_members "Z" "A").
  intros r Hr Hacc. simpl in Hr.
  destruct Hr as [<- | [<- | [<- | []]]]; discriminate.
Defined.

Lemma distance_sym (a b : string) :
  get_pairwise_alignment_distance a b = get_pairwise_alignment_distance b a.
Proof.
  unfold get_pairwise_alignment_distance.
  rewrite (lev_sym a b), (Nat.max_comm (String.length a)). reflexivity.
Qed.

Lemma get_distance_sym (a b : string) (records_data : list element) :
  get_distance (a, b) records_data = get_distance (b, a) records_data.
Proof.
  unfold get_distance. cbn [fst snd].
  destruct (first_sequence records_data a), (first_sequence records_data b);
    try reflexivity.
  apply distance_sym.
Qed.

Lemma length_flat_map_const {A B} (f : A -> list B) (l : list A) (n : nat) :
  (forall x, length (f x) = n) -> length (flat_map f l) = length l * n.
Proof.
  intros Hf. induction l as [|x l IH]; [reflexivity|].
  simpl. rewrite length_app, Hf, IH. reflexivity.
Qed.

(** X4: the table built by [compute_pairwise_sequence_distances] has one row
    for every ordered pair of accessions (n * n rows for n elements), its
    rows are exactly those pairs with their [get_distance], and the distance
    of a pair does not depend on the order of its two members. *)
Theorem pairwise_table_complete_symmetric (elements : list element) :
  length (compute_pairwise_sequence_distances elements)
  = length elements * length elements /\
  (forall r : distance_row,
      In r (compute_pairwise_sequence_distances elements) <->
      exists a b, In a (map accession elements) /\ In b (map accession elements) /\
                  r = {| element_1 := a; element_2 := b;
                         distance := get_distance (a, b) elements |}) /\
  (forall a b : string,
      get_distance (a, b) elements = get_distance (b, a) elements).
Proof.
  split; [|split].
  - unfold compute_pairwise_sequence_distances.
    rewrite length_map, (length_flat_map_const _ _ (length elements)).
    + rewrite length_map. reflexivity.
    + intros x. rewrite !length_map. reflexivity.
  - intros r. unfold compute_pairwise_sequence_distances.
    rewrite in_map_iff. split.
    + intros ([a b] & <- & Hp). apply in_flat_map in Hp.
      destruct Hp as (a' & Ha' & Hp). apply in_map_iff in Hp.
      destruct Hp as (b' & Heq & Hb'). injection Heq as <- <-.
      exists a', b'. auto.
    + intros (a & b & Ha & Hb & ->). exists (a, b). split; [reflexivity|].
      apply in_flat_map. exists a. split; [exact Ha|].
      apply in_map_iff. exists b. auto.
  - intros a b. apply get_distance_sym.
Qed.

(** ** Grouped sums and the representative *)

Lemma ascii_compare_refl (a : ascii) : Ascii.compare a a = Eq.
Proof. unfold Ascii.compare. apply N.compare_refl. Qed.

Lemma string_compare_refl (s : string) : String.compare s s = Eq.
Proof.
  induction s as [|a s IH]; [reflexivity|].
  simpl. rewrite ascii_compare_refl. exact IH.
Qed.

Lemma string_compare_lt_trans (a b c : string) :
  String.compare a b = Lt -> String.compare b c = Lt -> String.compare a c = Lt.
Proof.
  revert b c. induction a as [|x a IH]; intros [|y b] [|z c]; simpl;
    try discriminate; try reflexivity.
  destruct (Ascii.compare x y) eqn:E1; try discriminate;
    destruct (Ascii.compare y z) eqn:E2; try discriminate.
  - apply Ascii.compare_eq_iff in E1, E2. subst.
    rewrite ascii_compare_refl. apply IH.
  - apply Ascii.compare_eq_iff in E1. subst. rewrite E2. reflexivity.
  - apply Ascii.compare_eq_iff in E2. subst. rewrite E1. reflexivity.
  - intros _ _. unfold Ascii.compare in *.
    rewrite N.compare_lt_iff in *. 
    assert (H : (N_of_ascii x < N_of_ascii z)%N) by lia.
    apply N.compare_lt_iff in H. rewrite H. reflexivity.
Qed.

Lemma dict_get_none_below (k : string) (acc : list (string * float64)) :
  Forall (fun k' => String.compare k k' = Lt) (map fst acc) ->
  dict_get acc k = None.
Proof.
  induction acc as [|[k0 s0] acc IH]; [reflexivity|].
  simpl. intros H. inversion H as [|? ? Hk0 Hrest]; subst.
  destruct (String.eqb k0 k) eqn:E; [|apply IH, Hrest].
  apply String.eqb_eq in E. subst. rewrite string_compare_refl in Hk0. discriminate.
Qed.

Lemma group_add_keys (k : string) (v : float64) (acc : list (string * float64))
  (k' : string) :
  In k' (map fst (group_add k v acc)) <-> k' = k \/ In k' (map fst acc).
Proof.
  induction acc as [|[k0 s0] acc IH]; simpl.
  - intuition.
  - destruct (String.compare k k0) eqn:E; simpl.
    + apply String.compare_eq_iff in E. subst. intuition.
    + intuition.
    + rewrite IH. intuition.
Qed.

Lemma group_add_sorted (k : string) (v : float64) (acc : list (string * float64)) :
  keys_sorted acc -> keys_sorted (group_add k v acc).
Proof.
  unfold keys_sorted. induction acc as [|[k0 s0] acc IH]; simpl; intros H.
  - repeat constructor.
  - inversion H as [|? ? Hs Hall]; subst.
    destruct (String.compare k k0) eqn:E; simpl.
    + exact H.
    + constructor; [exact H|]. constructor; [exact E|].
      eapply Forall_impl; [|exact Hall].
      intros k1 Hk1. simpl in Hk1. eapply string_compare_lt_trans; eauto.
    + constructor; [apply IH, Hs|].
      apply Forall_forall. intros k1 Hk1. apply group_add_keys in Hk1.
      destruct Hk1 as [-> | Hk1].
      * rewrite String.compare_antisym, E. reflexivity.
      * rewrite Forall_forall in Hall. apply Hall, Hk1.
Qed.

Lemma dict_get_group_add (k : string) (v : float64) (acc : list (string * float64))
  (k' : string) :
  keys_sorted acc ->
  dict_get (group_add k v acc) k'
  = if String.eqb k k'
    then Some (match dict_get acc k with Some s => f_add s v | None => v end)
    else dict_get acc k'.
Proof.
  unfold keys_sorted. induction acc as [|[k0 s0] acc IH]; simpl; intros H.
  - reflexivity.
  - inversion H as [|? ? Hs Hall]; subst.
    destruct (String.compare k k0) eqn:E; simpl.
    + apply String.compare_eq_iff in E. subst k0.
      rewrite String.eqb_refl. destruct (String.eqb k k'); reflexivity.
    + assert (Hk0 : String.eqb k0 k = false).
      { apply String.eqb_neq. intros ->. rewrite string_compare_refl in E. discriminate. }
      rewrite Hk0, (dict_get_none_below k acc); [reflexivity|].
      eapply Forall_impl; [|exact Hall].
      intros k1 Hk1. simpl in Hk1. eapply string_compare_lt_trans; eauto.
    + assert (Hk0 : String.eqb k0 k = false).
      { apply String.eqb_neq. intros ->. rewrite string_compare_refl in E. discriminate. }
      rewrite Hk0, (IH Hs).
      destruct (String.eqb k0 k') eqn:E0; [|reflexivity].
      apply String.eqb_eq in E0. subst k'.
      rewrite String.eqb_sym, Hk0. reflexivity.
Qed.

Lemma groupby_fold_spec (df : list distance_row) (acc : list (string * float64)) :
  keys_sorted acc ->
  keys_sorted
    (fold_left (fun acc r => group_add (element_1 r) (nan_to_zero (distance r)) acc)
               df acc) /\
  forall k,
    dict_get
      (fold_left (fun acc r => group_add (element_1 r) (nan_to_zero (distance r)) acc)
                 df acc) k
    = fold_left add_to (group_values df k) (dict_get acc k).
Proof.
  revert acc. induction df as [|r df IH]; intros acc Hacc; simpl.
  - split; [exact Hacc | reflexivity].
  - destruct (IH _ (group_add_sorted (element_1 r) (nan_to_zero (distance r)) acc Hacc))
      as [Hs Hget].
    split; [exact Hs|]. intros k. rewrite Hget, dict_get_group_add by exact Hacc.
    unfold group_values. rewrite filter_cons.
    destruct (String.eqb (element_1 r) k) eqn:E.
    + rewrite decide_True by reflexivity. simpl.
      apply String.eqb_eq in E. rewrite E. reflexivity.
    + rewrite decide_False by discriminate. reflexivity.
Qed.

Lemma f_add_zero_l (x : float64) : f_add f_zero x = x.
Proof. destruct x; simpl; try reflexivity. f_equal. apply Qcplus_0_l. Qed.

Lemma fold_add_to_some (vs : list float64) (s : float64) :
  fold_left add_to vs (Some s) = Some (fold_left f_add vs s).
Proof. revert s. induction vs as [|v vs IH]; intros s; simpl; [reflexivity | apply IH]. Qed.

Lemma fold_add_to_none (vs : list float64) :
  fold_left add_to vs None = match vs with [] => None | _ => Some (f_sum vs) end.
Proof.
  destruct vs as [|v vs]; [reflexivity|].
  change (fold_left add_to (v :: vs) None) with (fold_left add_to vs (Some v)).
  rewrite fold_add_to_some. unfold f_sum. cbn [fold_left].
  rewrite f_add_zero_l. reflexivity.
Qed.

Lemma dict_get_sorted_in (acc : list (string * float64)) (k : string) (s : float64) :
  keys_sorted acc -> In (k, s) acc -> dict_get acc k = Some s.
Proof.
  unfold keys_sorted. induction acc as [|[k0 s0] acc IH]; simpl; intros H Hin; [tauto|].
  inversion H as [|? ? Hs Hall]; subst.
  destruct Hin as [Heq | Hin].
  - injection Heq as -> ->. rewrite String.eqb_refl. reflexivity.
  - destruct (String.eqb k0 k) eqn:E; [|apply IH; assumption].
    apply String.eqb_eq in E. subst k0. exfalso.
    rewrite Forall_forall in Hall.
    specialize (Hall k (in_map fst _ _ Hin)).
    rewrite string_compare_refl in Hall. discriminate.
Qed.

Lemma groupby_keys (df : list distance_row) (acc : list (string * float64)) (k : string) :
  In k (map fst
          (fold_left (fun acc r => group_add (element_1 r) (nan_to_zero (distance r)) acc)
                     df acc))
  <-> In k (map fst acc) \/ In k (map element_1 df).
Proof.
  revert acc. induction df as [|r df IH]; intros acc; simpl; [tauto|].
  rewrite IH, group_add_keys. intuition.
Qed.

(** X5: [groupby_sum] is pandas' grouped sum: its keys are the distinct
    values of [element_1] in strictly increasing order, and the value stored
    for a key is the sum of the distances of that key's rows, a [nan]
    distance counting as 0. *)
Theorem groupby_sum_sorted_sums (df : list distance_row) :
  StronglySorted (fun a b => String.compare a b = Lt) (map fst (groupby_sum df)) /\
  (forall k, In k (map fst (groupby_sum df)) <-> In k (map element_1 df)) /\
  (forall k s, In (k, s) (groupby_sum df) -> s = f_sum (group_values df k)).
Proof.
  assert (Hnil : keys_sorted []) by constructor.
  destruct (groupby_fold_spec df [] Hnil) as [Hs Hget].
  split; [exact Hs|]. split.
  - intros k. unfold groupby_sum. rewrite groupby_keys. simpl. tauto.
  - intros k s Hin. apply (dict_get_sorted_in _ _ _ Hs) in Hin.
    unfold groupby_sum in Hin. rewrite Hget in Hin. simpl in Hin.
    rewrite fold_add_to_none in Hin.
    destruct (group_values df k); [discriminate|]. congruence.
Qed.

Lemma iloc_In {A} (l : list A) (i : Z) (x : A) : iloc l i = Ok x -> In x l.
Proof.
  unfold iloc. destruct (_ || _); [discriminate|].
  destruct (l !! _) as [y|] eqn:E; [|discriminate].
  intros H. injection H as <-.
  apply list_elem_of_In. eapply list_elem_of_lookup_2, E.
Qed.

(** X6: whenever the per-cluster selection returns a representative, it is
    the accession of one of the cluster's members. *)
Theorem cluster_representative_is_member
  (cluster_members : list element) (representative : string) :
  cluster_representative cluster_members = Ok representative ->
  In representative (map accession cluster_members).
Proof.
  destruct cluster_members as [|m0 [|m1 rest]]; cbn [cluster_representative].
  - discriminate.
  - intros H. injection H as <-. left. reflexivity.
  - set (members := m0 :: m1 :: rest). unfold get_centroid.
    destruct (series_argmin _) as [pos|]; [|discriminate]. cbn [rbind].
    destruct (iloc _ pos) as [[k s]|] eqn:E; [|discriminate]. cbn [rbind fst].
    intros H. injection H as <-. apply iloc_In in E.
    apply (in_map fst) in E. cbn [fst] in E.
    unfold groupby_sum in E. apply groupby_keys in E.
    destruct E as [[] | E]. apply in_map_iff in E.
    destruct E as (r & <- & Hr).
    unfold compute_pairwise_sequence_distances in Hr.
    apply in_map_iff in Hr. destruct Hr as ([a b] & <- & Hp).
    apply in_flat_map in Hp. destruct Hp as (a' & Ha' & Hp).
    apply in_map_iff in Hp. destruct Hp as (b' & Heq & _).
    injection Heq as <- <-. exact Ha'.
Qed.

Lemma cluster_representative_is_member_witness :
  In "A" (map accession abc_members).
Proof.
  apply (cluster_representative_is_member abc_members "A").
  vm_compute. reflexivity.
Defined.

(** ** OutlierDetector: what the two detectors return *)

Lemma where_gt_in_range (l : list float64) (c : float64) :
  StronglySorted lt (where_gt 0 l c) /\
  Forall (fun i => i < length l) (where_gt 0 l c).
Proof.
  split; [apply where_gt_sorted|].
  apply Forall_forall. intros i Hi. apply where_gt_In in Hi.
  destruct Hi as (_ & x & Hx & _). rewrite Nat.sub_0_r in Hx.
  eapply lookup_lt_Some, Hx.
Qed.

(** X7: a list returned by either detector holds row positions only: it is
    strictly increasing and every position is below the number of rows. *)
Theorem outlier_indexes_in_range (ext : externals) (data : ndarray) (l : list nat) :
  compute_outliers_with_mahalanobis_dist ext data = Ok (Indexes l) \/
  compute_outliers_with_euclidean_dist ext data = Ok (Indexes l) ->
  StronglySorted lt l /\ Forall (fun i => i < shape0 data) l.
Proof.
  intros [H | H].
  - unfold compute_outliers_with_mahalanobis_dist in H.
    destruct (match np_linalg_det data with Ok det => _ | Raise _ => _ end);
      [discriminate|].
    destruct (covariance_power_m1 data) as [inv|]; [|discriminate].
    destruct (shape1 data <? 2); [discriminate|].
    destruct (negb _); [discriminate|].
    injection H as <-.
    match goal with
    | |- context [where_gt 0 ?d ?c] =>
        pose proof (where_gt_in_range d c) as Hr
    end.
    rewrite length_map in Hr. exact Hr.
  - unfold compute_outliers_with_euclidean_dist in H.
    destruct (np_index _ 0); [|discriminate]. cbn [rbind] in H.
    destruct (np_index _ 1); [|discriminate]. cbn [rbind] in H.
    injection H as <-.
    match goal with
    | |- context [where_gt 0 ?d ?c] =>
        pose proof (where_gt_in_range d c) as Hr
    end.
    rewrite length_map in Hr. exact Hr.
Qed.

Lemma outlier_indexes_in_range_witness :
  StronglySorted lt [5] /\ Forall (fun i => i < shape0 six_points) [5].
Proof.
  apply (outlier_indexes_in_range ref_ext six_points [5]).
  right. vm_compute. reflexivity.
Defined.

(** X8: on an array with a single column the Mahalanobis detector always
    returns the undefined value: the covariance is squeezed to a scalar and
    cannot be inverted as a matrix. *)
Theorem mahalanobis_one_column_undefined (ext : externals) (data : ndarray) :
  shape1 data = 1 ->
  compute_outliers_with_mahalanobis_dist ext data = Ok Undefined.
Proof.
  intros H. unfold compute_outliers_with_mahalanobis_dist, covariance_power_m1.
  rewrite H. simpl.
  destruct (match np_linalg_det data with Ok det => _ | Raise _ => _ end);
    reflexivity.
Qed.

Lemma mahalanobis_one_column_undefined_witness :
  compute_outliers_with_mahalanobis_dist ref_ext one_column = Ok Undefined.
Proof. apply (mahalanobis_one_column_undefined ref_ext one_column). reflexivity. Defined.

(** ** Column similarity: symmetry *)

Lemma mismatches_sym (u v : list Z) :
  zip_with (fun a b => if Z.eqb a b then f_zero else f_one) u v
  = zip_with (fun a b => if Z.eqb a b then f_zero else f_one) v u.
Proof.
  revert v. induction u as [|x u IH]; intros [|y v]; simpl; try reflexivity.
  rewrite (Z.eqb_sym x y), IH. reflexivity.
Qed.

Lemma hamming_sym (u v : list Z) : hamming u v = hamming v u.
Proof.
  unfold hamming. rewrite (Nat.eqb_sym (length u)).
  destruct (length v =? length u); [|reflexivity].
  rewrite (mismatches_sym u v). reflexivity.
Qed.

(** X9: [compute_similarity_across_aligned_sequences] gives the same outcome,
    value or exception, for a pair of accessions in either order. *)
Theorem similarity_symmetric (a b : string) (seq_to_token : pydict (list Z)) :
  compute_similarity_across_aligned_sequences (a, b) seq_to_token
  = compute_similarity_across_aligned_sequences (b, a) seq_to_token.
Proof.
  unfold compute_similarity_across_aligned_sequences, dict_item. cbn [fst snd].
  rewrite (String.eqb_sym b a).
  destruct (String.eqb a b); [reflexivity|].
  destruct (dict_get seq_to_token a) as [u|], (dict_get seq_to_token b) as [v|];
    cbn [rbind]; try reflexivity.
  rewrite (hamming_sym u v). reflexivity.
Qed.

(** ** The similarity table computed from an alignment *)

Lemma rmapM_raise_in {A B} (f : A -> result B) (l : list A) (x : A) (e : exn) :
  In x l -> f x = Raise e -> exists e', rmapM f l = Raise e'.
Proof.
  induction l as [|y l IH]; simpl; [tauto|].
  intros [-> | Hin] Hx.
  - rewrite Hx. eauto.
  - destruct (f y); simpl; [|eauto].
    destruct (IH Hin Hx) as [e' ->]. eauto.
Qed.

Lemma tokenize_fold_raise (l : list SeqRecord) (e : exn) :
  fold_left tokenize_step l (Raise e) = Raise e.
Proof. induction l as [|s l IH]; simpl; [reflexivity | exact IH]. Qed.

Lemma tokenize_fold_bad (l : list SeqRecord) (s : SeqRecord)
  (acc : result (pydict (list Z))) :
  In s l ->
  (exists e, rmapM seq_map (list_ascii_of_string (seq_str s)) = Raise e) ->
  exists e', fold_left tokenize_step l acc = Raise e'.
Proof.
  revert acc. induction l as [|s0 l IH]; intros acc Hin Hbad; simpl; [destruct Hin|].
  destruct Hin as [-> | Hin]; [|apply IH; assumption].
  destruct Hbad as [e He]. unfold tokenize_step at 2.
  destruct acc as [d|e0]; simpl.
  - rewrite He. simpl. rewrite tokenize_fold_raise. eauto.
  - rewrite tokenize_fold_raise. eauto.
Qed.

(** X10: one character outside [A C G T a c g t -] anywhere in the aligned
    sequences makes the table computation fail with [ValueError]. *)
Theorem similarity_table_rejects_unknown_characters
  (aligned_sequences : list SeqRecord) (s : SeqRecord) (c : ascii) (e : exn) :
  In s aligned_sequences ->
  In c (list_ascii_of_string (seq_str s)) ->
  seq_map c = Raise e ->
  compute_similarity_table aligned_sequences = Raise ValueError.
Proof.
  intros Hs Hc He. unfold compute_similarity_table.
  destruct aligned_sequences as [|s0 l]; [destruct Hs|].
  change (fold_left _ (s0 :: l) (Ok [])) with (fold_left tokenize_step (s0 :: l) (Ok [])).
  destruct (tokenize_fold_bad (s0 :: l) s (Ok []) Hs
              (rmapM_raise_in seq_map _ c e Hc He)) as [e' ->].
  reflexivity.
Qed.

Lemma similarity_table_rejects_unknown_characters_witness :
  compute_similarity_table
    [ {| seq_id := "a"; description := "a"; seq_str := "ACGT" |};
      {| seq_id := "b"; description := "b"; seq_str := "ACNT" |} ]
  = Raise ValueError.
Proof.
  apply (similarity_table_rejects_unknown_characters _
           {| seq_id := "b"; description := "b"; seq_str := "ACNT" |} "N" KeyError).
  - right. left. reflexivity.
  - right. right. left. reflexivity.
  - reflexivity.
Defined.

Lemma dict_set_keys {V} (d : pydict V) (k : string) (v : V) :
  dict_keys (dict_set d k v)
  = if bool_decide (k ∈ dict_keys d) then dict_keys d else dict_keys d ++ [k].
Proof.
  unfold dict_keys. induction d as [|[k0 v0] d IH]; simpl; [reflexivity|].
  destruct (String.eqb k0 k) eqn:E; simpl.
  - apply String.eqb_eq in E. subst.
    rewrite bool_decide_eq_true_2 by (left). reflexivity.
  - apply String.eqb_neq in E. rewrite IH.
    destruct (bool_decide (k ∈ map fst d)) eqn:B.
    + apply bool_decide_eq_true in B.
      rewrite bool_decide_eq_true_2 by (right; exact B). reflexivity.
    + apply bool_decide_eq_false in B.
      rewrite bool_decide_eq_false_2; [reflexivity|].
      intros H. apply elem_of_cons in H. destruct H as [H | H]; [congruence | tauto].
Qed.

Lemma tokenize_fold_keys (l : list SeqRecord) (d0 d : pydict (list Z)) :
  NoDup (dict_keys d0) ->
  fold_left tokenize_step l (Ok d0) = Ok d ->
  NoDup (dict_keys d) /\
  forall k, In k (dict_keys d) <-> In k (dict_keys d0) \/ In k (map seq_id l).
Proof.
  revert d0. induction l as [|s l IH]; intros d0 Hnd; simpl.
  - intros H. injection H as <-. split; [exact Hnd | tauto].
  - destruct (rmapM seq_map (list_ascii_of_string (seq_str s))) as [a|e]; simpl;
      [|rewrite tokenize_fold_raise; discriminate].
    intros H. apply IH in H.
    + destruct H as [Hnd' Hk]. split; [exact Hnd'|].
      intros k. rewrite Hk, dict_set_keys.
      destruct (bool_decide (seq_id s ∈ dict_keys d0)) eqn:B.
      * apply bool_decide_eq_true, list_elem_of_In in B. split; [tauto|].
        intros [H | [<- | H]]; tauto.
      * rewrite in_app_iff. simpl. tauto.
    + rewrite dict_set_keys.
      destruct (bool_decide (seq_id s ∈ dict_keys d0)) eqn:B; [exact Hnd|].
      apply bool_decide_eq_false in B.
      apply list.NoDup_app.
      split; [exact Hnd|]. split; [|apply list.NoDup_singleton].
      intros x Hx Hx'. apply list_elem_of_singleton in Hx'. subst. tauto.
Qed.

Lemma rmapM_ok_map {A B C} (f : A -> result B) (g : B -> C) (h : A -> C)
  (l : list A) (t : list B) :
  (forall x y, f x = Ok y -> g y = h x) ->
  rmapM f l = Ok t -> map g t = map h l.
Proof.
  intros Hf. revert t. induction l as [|x l IH]; intros t; simpl.
  - intros H. injection H as <-. reflexivity.
  - destruct (f x) as [y|] eqn:Ex; simpl; [|discriminate].
    destruct (rmapM f l) as [ys|]; simpl; [|discriminate].
    intros H. injection H as <-. simpl. rewrite (Hf x y Ex), (IH ys eq_refl).
    reflexivity.
Qed.

Lemma rmapM_ok_forall {A B} (f : A -> result B) (P : B -> Prop)
  (l : list A) (t : list B) :
  (forall x y, f x = Ok y -> P y) ->
  rmapM f l = Ok t -> Forall P t.
Proof.
  intros Hf. revert t. induction l as [|x l IH]; intros t; simpl.
  - intros H. injection H as <-. constructor.
  - destruct (f x) as [y|] eqn:Ex; simpl; [|discriminate].
    destruct (rmapM f l) as [ys|]; simpl; [|discriminate].
    intros H. injection H as <-. constructor; eauto.
Qed.

(** X11: when the table computation succeeds, its rows are, in order, all
    ordered pairs of the distinct sequence identifiers (each identifier once,
    whatever the number of records that carry it), and every row that pairs
    an identifier with itself has similarity 1. *)
Theorem similarity_table_shape
  (aligned_sequences : list SeqRecord) (table : list similarity_row) :
  compute_similarity_table aligned_sequences = Ok table ->
  exists keys : list string,
    NoDup keys /\
    (forall k, In k keys <-> In k (map seq_id aligned_sequences)) /\
    map (fun r => (accession_1 r, accession_2 r)) table = ordered_pairs keys /\
    length table = length keys * length keys /\
    Forall (fun r => accession_1 r = accession_2 r -> similarity r = f_one) table.
Proof.
  unfold compute_similarity_table.
  destruct aligned_sequences as [|s0 l]; [discriminate|].
  change (fold_left _ (s0 :: l) (Ok [])) with (fold_left tokenize_step (s0 :: l) (Ok [])).
  destruct (fold_left tokenize_step (s0 :: l) (Ok [])) as [d|] eqn:Ed; [|discriminate].
  intros Ht. exists (dict_keys d).
  destruct (tokenize_fold_keys (s0 :: l) [] d (NoDup_nil_2 : NoDup (dict_keys [])) Ed)
    as [Hnd Hk].
  assert (Hpairs : map (fun r => (accession_1 r, accession_2 r)) table
                   = ordered_pairs (dict_keys d)).
  { rewrite <- (map_id (ordered_pairs (dict_keys d))).
    refine (rmapM_ok_map _ _ _ _ _ _ Ht).
    intros p r. destruct (compute_similarity_across_aligned_sequences p d);
      simpl; [|discriminate].
    intros H. injection H as <-. destruct p. reflexivity. }
  split; [exact Hnd|]. split; [|split; [exact Hpairs|split]].
  - intros k. rewrite Hk. simpl. tauto.
  - rewrite <- (length_map (fun r => (accession_1 r, accession_2 r))), Hpairs.
    unfold ordered_pairs.
    apply length_flat_map_const. intros x. apply length_map.
  - refine (rmapM_ok_forall _ _ _ _ _ Ht).
    intros [x y] r. unfold compute_similarity_across_aligned_sequences.
    cbn [fst snd]. destruct (String.eqb x y) eqn:E.
    + simpl. intros H. injection H as <-. reflexivity.
    + intros H Heq.
      assert (Hxy : accession_1 r = x /\ accession_2 r = y).
      { destruct (rbind (dict_item d x) _); simpl in H; [|discriminate].
        injection H as <-. auto. }
      destruct Hxy as [Hx Hy]. rewrite Hx, Hy in Heq. subst y.
      rewrite String.eqb_refl in E. discriminate.
Qed.

Lemma similarity_table_shape_witness :
  exists keys : list string, NoDup keys /\ length keys * length keys = 9.
Proof.
  destruct (compute_similarity_table (ref_parse three_sequences)) as [table|] eqn:E;
    [|vm_compute in E; discriminate].
  destruct (similarity_table_shape _ table E) as (keys & Hnd & _ & _ & Hlen & _).
  exists keys. split; [exact Hnd|]. rewrite <- Hlen.
  apply (f_equal (fun r => match r with Ok t => length t | Raise _ => 0 end)) in E.
  vm_compute in E. symmetry. exact E.
Defined.

(** ** The alignment strategy: failures of mafft and unusual file names *)

(** X12: when the aligned file is missing and mafft exits with a non-zero
    status, the function returns the four undefined values; when mafft exits
    with status 0 but leaves no aligned file, it raises [RuntimeError].  In
    both cases the function itself writes nothing: the world is the one the
    command left. *)
Theorem msa_mafft_failure (ext : externals) (path : string) (w : world)
  (content : string) :
  files w !! path = Some content ->
  exists_in w (aligned_path path) = false ->
  let cmd := mafft_cmd path (aligned_path path) in
  (fst (run_command ext cmd w) <> 0%Z ->
   get_sequence_similarity_with_multiple_alignment ext path w
   = (Ok nan4, after_command ext cmd w)) /\
  (fst (run_command ext cmd w) = 0%Z ->
   exists_in (after_command ext cmd w) (aligned_path path) = false ->
   get_sequence_similarity_with_multiple_alignment ext path w
   = (Raise RuntimeError, after_command ext cmd w)).
Proof.
  intros Hc Hout cmd.
  assert (Hrun : get_sequence_similarity_with_multiple_alignment ext path w
                 = (if negb (fst (run_command ext cmd w) =? 0)%Z
                    then (Ok nan4, after_command ext cmd w)
                    else if negb (exists_in (after_command ext cmd w) (aligned_path path))
                         then (Raise RuntimeError, after_command ext cmd w)
                         else get_sequence_similarity_with_multiple_alignment ext path w)).
  { unfold get_sequence_similarity_with_multiple_alignment at 1.
    unfold align_with_mafft. run.
    rewrite (exists_in_file w path content Hc). simpl. rewrite Hout. simpl.
    unfold parse_fasta, read_file. run. rewrite Hc. simpl.
    rewrite os_system_eq. fold cmd.
    destruct (fst (run_command ext cmd w) =? 0)%Z eqn:Est; simpl; [|reflexivity].
    destruct (exists_in (after_command ext cmd w) (aligned_path path)) eqn:Ep;
      simpl; [|reflexivity].
    unfold get_sequence_similarity_with_multiple_alignment, align_with_mafft. run.
    rewrite (exists_in_file w path content Hc). simpl. rewrite Hout. simpl.
    unfold parse_fasta, read_file. run. rewrite Hc. simpl.
    rewrite os_system_eq. fold cmd. rewrite Est. simpl. rewrite Ep. reflexivity. }
  split.
  - intros Hst. apply Z.eqb_neq in Hst. rewrite Hrun, Hst. reflexivity.
  - intros Hst Hno. rewrite Hrun, Hst, Hno. reflexivity.
Qed.

Lemma msa_mafft_failure_witness :
  fst (get_sequence_similarity_with_multiple_alignment
         {| cwd := "/work"; CDHIT_DIR := ""; run_command := fun _ w => (127%Z, w);
            SeqIO_parse := ref_parse; globalxx := ref_globalxx;
            chi2_ppf := ref_chi2_ppf; to_csv := ref_to_csv; read_csv := ref_read_csv;
            pickle_dumps_pairs := fun _ => ""; pickle_dumps_names := fun _ => "";
            pickle_loads_names := fun _ => Raise ValueError;
            float_str := ref_float_str |}
         "d/x.fasta" fresh_world) = Ok nan4.
Proof.
  match goal with
  | |- fst (get_sequence_similarity_with_multiple_alignment ?e ?p ?w) = _ =>
      destruct (msa_mafft_failure e p w three_sequences eq_refl eq_refl) as [H _];
      rewrite H; [reflexivity | discriminate]
  end.
Defined.

Lemma exists_in_absent (w : world) (p : string) :
  files w !! p = None -> p ∉ dirs w -> exists_in w p = false.
Proof.
  intros Hf Hd. unfold exists_in. rewrite Hf.
  rewrite bool_decide_eq_false_2 by (intros [? ?]; discriminate).
  rewrite bool_decide_eq_false_2 by exact Hd. reflexivity.
Qed.

Lemma contains_cons (c : ascii) (s sub : string) :
  contains (String c s) sub = false ->
  starts_with sub (String c s) = false /\ contains s sub = false.
Proof. simpl. intros H. apply orb_false_iff in H. exact H. Qed.

Lemma replace_absent (s old new : string) :
  contains s old = false -> replace_go old new 0 s = s.
Proof.
  induction s as [|c s IH]; [reflexivity|].
  intros H. apply contains_cons in H. destruct H as [Hs Hc].
  cbn [replace_go]. rewrite Hs, (IH Hc). reflexivity.
Qed.

(** X13: for an existing sequence path without [.fasta] in it (so that the
    log path and the table path both coincide with the sequence path itself)
    whose aligned file is missing, a successful mafft run is followed by the
    removal of the sequence file, taken for the mafft log, and the similarity
    table is then written in its place. *)
Theorem msa_overwrites_input_without_fasta_suffix
  (ext : externals) (path : string) (w : world) (content aligned : string)
  (table : list similarity_row) :
  contains path ".fasta" = false ->
  files w !! path = Some content ->
  exists_in w (aligned_path path) = false ->
  let w' := after_command ext (mafft_cmd path (aligned_path path)) w in
  fst (run_command ext (mafft_cmd path (aligned_path path)) w) = 0%Z ->
  is_Some (files w' !! path) -> path ∉ dirs w' ->
  files w' !! aligned_path path = Some aligned ->
  compute_similarity_table (SeqIO_parse ext aligned) = Ok table ->
  fst (get_sequence_similarity_with_multiple_alignment ext path w)
  = Ok (summary_of_table table) /\
  files (snd (get_sequence_similarity_with_multiple_alignment ext path w)) !! path
  = Some (to_csv ext table).
Proof.
  intros Hno Hc Hout w' Hst [c' Hc'] Hdir Hal Ht.
  assert (Hlog : mafft_log_path path = path) by (apply replace_absent, Hno).
  assert (Hsim : similarities_path path = path) by (apply replace_absent, Hno).
  assert (Hne : aligned_path path <> path).
  { intros E. rewrite E, (exists_in_file w path content Hc) in Hout. discriminate. }
  unfold get_sequence_similarity_with_multiple_alignment, align_with_mafft,
    similarity_table. run.
  rewrite (exists_in_file w path content Hc). simpl. rewrite Hout. simpl.
  unfold parse_fasta, read_file. run. rewrite Hc. simpl.
  rewrite os_system_eq. fold w'. simpl. rewrite Hst. simpl.
  rewrite (exists_in_file w' _ aligned Hal). simpl.
  rewrite Hlog, Hsim, (exists_in_file w' path c' Hc'). simpl.
  unfold os_remove. rewrite Hc'. simpl.
  rewrite exists_in_absent; [|apply lookup_delete_eq|exact Hdir].
  simpl.
  rewrite lookup_delete_ne by (intros E; apply Hne; congruence).
  change (files (run_command ext (mafft_cmd path (aligned_path path)) w).2)
    with (files w').
  rewrite Hal. simpl. rewrite Ht. simpl.
  split; [reflexivity|]. apply lookup_insert_eq.
Qed.

Lemma msa_overwrites_input_without_fasta_suffix_witness :
  files (snd (get_sequence_similarity_with_multiple_alignment ref_ext "x.fa"
                world_with_fa)) !! "x.fa"
  <> Some three_sequences.
Proof.
  destruct (compute_similarity_table (SeqIO_parse ref_ext three_sequences))
    as [table|] eqn:Et; [|vm_compute in Et; discriminate].
  destruct (msa_overwrites_input_without_fasta_suffix ref_ext "x.fa" world_with_fa
              three_sequences three_sequences table) as [_ H].
  - reflexivity.
  - reflexivity.
  - reflexivity.
  - reflexivity.
  - vm_compute. eauto.
  - vm_compute. set_solver.
  - vm_compute. reflexivity.
  - exact Et.
  - rewrite H. intros E. injection E as E.
    assert (Hbit : forall p, bits_of_positive p <> three_sequences).
    { intros [p|p|]; vm_compute; discriminate. }
    apply (Hbit _ E).
Defined.

(** ** The CD-HIT similarity strategy: bands, reports and failures *)

Lemma exists_in_with_aux_dir (ext : externals) (w : world) (path : string) :
  exists_in (with_aux_dir ext w) (cdhit_group_out ext path)
  = exists_in w (cdhit_group_out ext path).
Proof.
  unfold exists_in. simpl. f_equal.
  apply bool_decide_ext. rewrite elem_of_union, elem_of_singleton.
  split; [|tauto]. intros [E | H]; [|exact H].
  unfold cdhit_group_out in E. apply append_eq_self in E. discriminate.
Qed.

Lemma f_leb_trans (x y z : float64) :
  f_leb x y = true -> f_leb y z = true -> f_leb x z = true.
Proof.
  unfold f_leb.
  destruct x as [|[]|qx], y as [|[]|qy], z as [|[]|qz]; simpl;
    try discriminate; try reflexivity.
  rewrite !orb_true_iff, !bool_decide_eq_true.
  intros [H1 | H1] [H2 | H2]; subst; auto.
  left. eapply Qclt_trans; eauto.
Qed.

Lemma f_ltb_leb (x y : float64) : f_ltb x y = true -> f_leb x y = true.
Proof. unfold f_leb. intros ->. reflexivity. Qed.

Lemma f_ltb_not_leb (x y : float64) : f_ltb x y = true -> f_leb y x = false.
Proof.
  intros H. destruct (f_leb y x) eqn:E; [|reflexivity].
  apply f_leb_not_gtb in E. unfold f_gtb in E. congruence.
Qed.

Lemma filter_cons_bool {A : Type} (f : A -> bool) (x : A) (l : list A) :
  filter (fun a => f a) (x :: l)
  = if f x then x :: filter (fun a => f a) l else filter (fun a => f a) l.
Proof. rewrite filter_cons. destruct (f x); reflexivity. Qed.

(** the bands of [threshold_range_to_wordlen] that contain the threshold, in
    the order of the dictionary *)
Lemma cdhit_bands (thr : float64) :
  (f_leb (lit 7 10) thr = true -> f_leb thr (lit 10 10) = true ->
   exists rest,
     filter (fun key : float64 * float64 * Z =>
               f_leb key.1.1 thr && f_leb thr key.1.2) threshold_range_to_wordlen
     = (lit 7 10, lit 10 10, 5%Z) :: rest) /\
  (f_leb (lit 6 10) thr = true -> f_ltb thr (lit 7 10) = true ->
   exists rest,
     filter (fun key : float64 * float64 * Z =>
               f_leb key.1.1 thr && f_leb thr key.1.2) threshold_range_to_wordlen
     = (lit 6 10, lit 7 10, 4%Z) :: rest) /\
  (f_leb (lit 5 10) thr = true -> f_ltb thr (lit 6 10) = true ->
   exists rest,
     filter (fun key : float64 * float64 * Z =>
               f_leb key.1.1 thr && f_leb thr key.1.2) threshold_range_to_wordlen
     = (lit 5 10, lit 6 10, 3%Z) :: rest) /\
  (f_leb (lit 4 10) thr = true -> f_ltb thr (lit 5 10) = true ->
   exists rest,
     filter (fun key : float64 * float64 * Z =>
               f_leb key.1.1 thr && f_leb thr key.1.2) threshold_range_to_wordlen
     = (lit 4 10, lit 5 10, 2%Z) :: rest) /\
  (f_leb (lit 4 10) thr && f_leb thr (lit 10 10) = false ->
   filter (fun key : float64 * float64 * Z =>
             f_leb key.1.1 thr && f_leb thr key.1.2) threshold_range_to_wordlen
   = []).
Proof.
  assert (H67 : f_ltb (lit 6 10) (lit 7 10) = true) by (vm_compute; reflexivity).
  assert (H56 : f_ltb (lit 5 10) (lit 6 10) = true) by (vm_compute; reflexivity).
  assert (H45 : f_ltb (lit 4 10) (lit 5 10) = true) by (vm_compute; reflexivity).
  assert (H71 : f_ltb (lit 7 10) (lit 10 10) = true) by (vm_compute; reflexivity).
  unfold threshold_range_to_wordlen.
  rewrite !(filter_cons_bool (fun key : float64 * float64 * Z =>
                                f_leb key.1.1 thr && f_leb thr key.1.2)).
  rewrite filter_nil. cbn [fst snd].
  split; [|split; [|split; [|split]]].
  - intros H1 H2. rewrite H1, H2. simpl. eauto.
  - intros H1 H2. rewrite (f_ltb_not_leb _ _ H2), H1, (f_ltb_leb _ _ H2).
    simpl. eauto.
  - intros H1 H2.
    rewrite (f_ltb_not_leb _ _ (f_ltb_trans _ _ _ H2 H67)).
    rewrite (f_ltb_not_leb _ _ H2), H1, (f_ltb_leb _ _ H2). simpl. eauto.
  - intros H1 H2.
    rewrite (f_ltb_not_leb _ _ (f_ltb_trans _ _ _ (f_ltb_trans _ _ _ H2 H56) H67)).
    rewrite (f_ltb_not_leb _ _ (f_ltb_trans _ _ _ H2 H56)).
    rewrite (f_ltb_not_leb _ _ H2), H1, (f_ltb_leb _ _ H2). simpl. eauto.
  - intros H.
    assert (Hband : forall lo hi, f_leb (lit 4 10) lo = true ->
                                  f_leb hi (lit 10 10) = true ->
                                  f_leb lo thr && f_leb thr hi = false).
    { intros lo hi Hlo Hhi.
      destruct (f_leb lo thr) eqn:E1; [|reflexivity].
      destruct (f_leb thr hi) eqn:E2; [|reflexivity].
      rewrite (f_leb_trans _ _ _ Hlo E1), (f_leb_trans _ _ _ E2 Hhi) in H.
      discriminate. }
    rewrite !Hband by (vm_compute; reflexivity). reflexivity.
Qed.

Ltac cdhit_start w Hc Hout :=
  unfold get_sequences_similarity_with_cdhit; run;
  rewrite (exists_in_file _ _ _ Hc); simpl;
  match goal with
  | |- context [exists_in ?x (cdhit_group_out ?e ?p)] =>
      change x with (with_aux_dir e w);
      rewrite (exists_in_with_aux_dir e), Hout
  end; simpl.

(** X14: when the CD-HIT output of the input is already in the auxiliary
    directory and its cluster report holds no percentage, the function
    returns the four undefined values; it runs no command, and in
    particular does not remove the output, so the next call finds the same
    report again. *)
Theorem cdhit_report_without_percentages (ext : externals) (path : string)
  (mem_limit : Z) (threshold : float64) (w : world) (content text : string) :
  files w !! path = Some content ->
  exists_in w (cdhit_group_out ext path) = true ->
  files w !! (cdhit_group_out ext path ++ ".clstr")%string = Some text ->
  similarity_finditer 0 text = [] ->
  get_sequences_similarity_with_cdhit ext path mem_limit threshold w
  = (Ok nan4, with_aux_dir ext w).
Proof.
  intros Hc Hout Hcl Hno. cdhit_start w Hc Hout.
  unfold read_file. simpl. rewrite Hcl. simpl. rewrite Hno. reflexivity.
Qed.

Lemma cdhit_report_without_percentages_witness :
  fst (get_sequences_similarity_with_cdhit ref_ext "seqs.fasta" 4000 (lit 5 10)
         (world_of [ ("seqs.fasta", two_sequences);
                     ("/work/cdhit_aux//cdhit_group_out_seqs.fasta", "");
                     ("/work/cdhit_aux//cdhit_group_out_seqs.fasta.clstr",
                      ">Cluster 0") ]))
  = Ok nan4.
Proof.
  rewrite (cdhit_report_without_percentages ref_ext "seqs.fasta" 4000 (lit 5 10)
             _ two_sequences ">Cluster 0"); reflexivity.
Defined.

(** X15: for an existing input of at least three sequences without a CD-HIT
    output, a threshold outside the interval from 0.4 to 1.0 (or an
    undefined one) lies in no band of the word-length table: the function
    raises [IndexError] before any command is run. *)
Theorem cdhit_threshold_outside_bands (ext : externals) (path : string)
  (mem_limit : Z) (threshold : float64) (w : world) (content : string) :
  files w !! path = Some content ->
  exists_in w (cdhit_group_out ext path) = false ->
  3 <= length (SeqIO_parse ext content) ->
  f_leb (lit 4 10) threshold && f_leb threshold (lit 10 10) = false ->
  get_sequences_similarity_with_cdhit ext path mem_limit threshold w
  = (Raise IndexError, with_aux_dir ext w).
Proof.
  intros Hc Hout Hmany Hthr. cdhit_start w Hc Hout.
  unfold parse_fasta, read_file. run. rewrite Hc. simpl.
  destruct (Nat.ltb_spec (length (SeqIO_parse ext content)) 3) as [Hlt|_]; [lia|].
  rewrite (proj2 (proj2 (proj2 (proj2 (cdhit_bands threshold)))) Hthr).
  reflexivity.
Qed.

Lemma cdhit_threshold_outside_bands_witness :
  fst (get_sequences_similarity_with_cdhit ref_ext "d/x.fasta" 4000 (lit 3 10)
         fresh_world) = Raise IndexError /\
  fst (get_sequences_similarity_with_cdhit ref_ext "d/x.fasta" 4000 NaN
         fresh_world) = Raise IndexError.
Proof.
  split.
  - rewrite (cdhit_threshold_outside_bands ref_ext "d/x.fasta" 4000 (lit 3 10)
               fresh_world three_sequences);
      [reflexivity | reflexivity | reflexivity | vm_compute; lia
      | vm_compute; reflexivity].
  - rewrite (cdhit_threshold_outside_bands ref_ext "d/x.fasta" 4000 NaN
               fresh_world three_sequences);
      [reflexivity | reflexivity | reflexivity | vm_compute; lia
      | vm_compute; reflexivity].
Defined.

(** X16: for an existing input of at least three sequences without a CD-HIT
    output, the first command the function runs is [cd-hit] with the word
    length of the first band of the table that contains the threshold:
    5 from 0.7 to 1.0, 4 from 0.6 to below 0.7, 3 from 0.5 to below 0.6 and
    2 from 0.4 to below 0.5 (a threshold on the border of two bands gets the
    word length of the upper one). *)
Theorem cdhit_similarity_word_len (ext : externals) (path : string)
  (mem_limit : Z) (threshold : float64) (w : world) (content : string) :
  files w !! path = Some content ->
  exists_in w (cdhit_group_out ext path) = false ->
  3 <= length (SeqIO_parse ext content) ->
  let issued (n : Z) :=
    exists rest,
      history (snd (get_sequences_similarity_with_cdhit ext path mem_limit
                      threshold w))
      = history w
        ++ cdhit_cmd ext mem_limit path (cdhit_group_out ext path) threshold n
             (cdhit_group_out ext path ++ ".log")%string :: rest in
  (f_leb (lit 7 10) threshold = true -> f_leb threshold (lit 10 10) = true ->
   issued 5%Z) /\
  (f_leb (lit 6 10) threshold = true -> f_ltb threshold (lit 7 10) = true ->
   issued 4%Z) /\
  (f_leb (lit 5 10) threshold = true -> f_ltb threshold (lit 6 10) = true ->
   issued 3%Z) /\
  (f_leb (lit 4 10) threshold = true -> f_ltb threshold (lit 5 10) = true ->
   issued 2%Z).
Proof.
  intros Hc Hout Hmany issued.
  assert (Hrun : forall lo hi n rest,
             filter (fun key : float64 * float64 * Z =>
                       f_leb key.1.1 threshold && f_leb threshold key.1.2)
                    threshold_range_to_wordlen = (lo, hi, n) :: rest ->
             issued n).
  { intros lo hi n rest Hband. unfold issued. cdhit_start w Hc Hout.
    unfold parse_fasta, read_file. run. rewrite Hc. simpl.
    destruct (Nat.ltb_spec (length (SeqIO_parse ext content)) 3) as [Hlt|_]; [lia|].
    rewrite Hband. rewrite os_system_eq. simpl.
    match goal with
    | |- context [files ?x !! ?p] => destruct (files x !! p) as [text|]
    end; simpl; [|eauto].
    destruct (length (similarity_finditer 0 text) =? 0); simpl; [eauto|].
    rewrite os_system_eq. simpl.
    match goal with
    | |- context [(?x =? 0)%Z] => destruct (x =? 0)%Z
    end; simpl; [|rewrite <- app_assoc; simpl; eauto].
    match goal with
    | |- context [exists_in ?x ?p] => destruct (exists_in x p)
    end; simpl.
    - rewrite os_system_eq. simpl.
      match goal with
      | |- context [(?x =? 0)%Z] => destruct (x =? 0)%Z
      end; simpl;
        [destruct (list_summary (similarity_finditer 0 text)); simpl|];
        rewrite <- !app_assoc; simpl; eauto.
    - destruct (list_summary (similarity_finditer 0 text)); simpl;
        rewrite <- !app_assoc; simpl; eauto. }
  destruct (cdhit_bands threshold) as (B5 & B4 & B3 & B2 & _).
  split; [|split; [|split]]; intros H1 H2.
  - destruct (B5 H1 H2) as [rest E]. exact (Hrun _ _ _ _ E).
  - destruct (B4 H1 H2) as [rest E]. exact (Hrun _ _ _ _ E).
  - destruct (B3 H1 H2) as [rest E]. exact (Hrun _ _ _ _ E).
  - destruct (B2 H1 H2) as [rest E]. exact (Hrun _ _ _ _ E).
Qed.

Lemma cdhit_similarity_word_len_witness :
  exists rest,
    history (snd (get_sequences_similarity_with_cdhit ref_ext "d/x.fasta" 4000
                    (lit 7 10) fresh_world))
    = history fresh_world
      ++ cdhit_cmd ref_ext 4000 "d/x.fasta" (cdhit_group_out ref_ext "d/x.fasta")
           (lit 7 10) 5
           (cdhit_group_out ref_ext "d/x.fasta" ++ ".log")%string :: rest.
Proof.
  apply (proj1 (cdhit_similarity_word_len ref_ext "d/x.fasta" 4000 (lit 7 10)
                  fresh_world three_sequences eq_refl eq_refl
                  ltac:(vm_compute; lia)));
    vm_compute; reflexivity.
Defined.

(** X17: a failing [cd-hit] run is not detected by its exit status.  For an
    existing input of at least three sequences without a CD-HIT output and a
    threshold between 0.4 and 1.0, if the command leaves no cluster report,
    the function raises [FileNotFoundError], whatever the exit status, and
    not the undefined values. *)
Theorem cdhit_failure_raises_file_not_found (ext : externals) (path : string)
  (mem_limit : Z) (threshold : float64) (w : world) (content : string) :
  files w !! path = Some content ->
  exists_in w (cdhit_group_out ext path) = false ->
  3 <= length (SeqIO_parse ext content) ->
  f_leb (lit 4 10) threshold = true -> f_leb threshold (lit 10 10) = true ->
  (forall n : Z,
     files (snd (run_command ext
                   (cdhit_cmd ext mem_limit path (cdhit_group_out ext path)
                      threshold n (cdhit_group_out ext path ++ ".log")%string)
                   (with_aux_dir ext w)))
     !! (cdhit_group_out ext path ++ ".clstr")%string = None) ->
  fst (get_sequences_similarity_with_cdhit ext path mem_limit threshold w)
  = Raise FileNotFoundError.
Proof.
  intros Hc Hout Hmany Hlo Hhi Hfail.
  assert (Hband : exists lo hi n rest,
             filter (fun key : float64 * float64 * Z =>
                       f_leb key.1.1 threshold && f_leb threshold key.1.2)
                    threshold_range_to_wordlen = (lo, hi, n) :: rest).
  { destruct (cdhit_bands threshold) as (B5 & B4 & B3 & B2 & _).
    destruct (f_leb (lit 7 10) threshold) eqn:E7;
      [destruct (B5 eq_refl Hhi) as [r E]; eauto 6|].
    assert (Hfin : forall x, f_leb (lit x 10) threshold = false ->
                             f_ltb threshold (lit x 10) = true).
    { intros x. unfold f_leb, lit in *.
      destruct threshold as [|[]|q]; simpl in *; try discriminate.
      rewrite orb_false_iff, !bool_decide_eq_false, bool_decide_eq_true.
      intros [Hnlt Hne]. destruct (Qc_dec (Q2Qc (x # 10)) q) as [[H | H] | H];
        [contradiction | exact H | contradiction]. }
    destruct (f_leb (lit 6 10) threshold) eqn:E6;
      [destruct (B4 eq_refl (Hfin _ E7)) as [r E]; eauto 6|].
    destruct (f_leb (lit 5 10) threshold) eqn:E5;
      [destruct (B3 eq_refl (Hfin _ E6)) as [r E]; eauto 6|].
    destruct (B2 Hlo (Hfin _ E5)) as [r E]; eauto 6. }
  destruct Hband as (lo & hi & n & rest & Hband).
  cdhit_start w Hc Hout.
  unfold parse_fasta, read_file. run. rewrite Hc. simpl.
  destruct (Nat.ltb_spec (length (SeqIO_parse ext content)) 3) as [Hlt|_]; [lia|].
  rewrite Hband. rewrite os_system_eq. simpl.
  rewrite Hfail. reflexivity.
Qed.

Lemma cdhit_failure_raises_file_not_found_witness :
  fst (get_sequences_similarity_with_cdhit ref_ext "d/x.fasta" 4000 (lit 5 10)
         fresh_world) = Raise FileNotFoundError.
Proof.
  apply (cdhit_failure_raises_file_not_found ref_ext "d/x.fasta" 4000 (lit 5 10)
           fresh_world three_sequences eq_refl eq_refl).
  - vm_compute. lia.
  - vm_compute. reflexivity.
  - vm_compute. reflexivity.
  - intros n. unfold ref_ext, run_command, ref_shell.
    assert (Hmafft : forall s, strip_prefix "mafft --retree 1 --maxiterate 0 "
                                 ("cd-hit -M " ++ s) = None)
      by (intros s; reflexivity).
    assert (Hrm : forall s, strip_prefix "rm -r " ("cd-hit -M " ++ s) = None)
      by (intros s; reflexivity).
    unfold cdhit_cmd. rewrite Hmafft, Hrm. reflexivity.
Defined.

(** ** The representative of a cluster *)

(** X18: for a cluster of two or more members whose first member has a
    non-empty sequence, the representative is the smallest accession of the
    cluster in string order, whatever the distances are: it is the accession
    of a member, and every other accession of the cluster comes after it.
    Position 0 of the pairwise table holds the distance 0 of the first
    member to itself, and position 0 of the grouped sums is the first key in
    sorted order. *)
Theorem representative_is_least_accession (m0 m1 : element) (rest : list element)
  (s0 : string) :
  sequence m0 = Some s0 -> s0 <> EmptyString ->
  exists k,
    cluster_representative (m0 :: m1 :: rest) = Ok k /\
    In k (map accession (m0 :: m1 :: rest)) /\
    forall a, In a (map accession (m0 :: m1 :: rest)) ->
              a = k \/ String.compare k a = Lt.
Proof.
  intros Hs0 Hne.
  destruct (cluster_representative_first_group m0 m1 rest s0 Hs0 Hne)
    as (k & s & tl & Hg & Hrep).
  exists k. split; [exact Hrep|].
  set (members := m0 :: m1 :: rest) in *.
  split.
  { assert (Hk : In k (map fst (groupby_sum
                                  (compute_pairwise_sequence_distances members))))
      by (rewrite Hg; left; reflexivity).
    unfold groupby_sum in Hk. apply groupby_keys in Hk.
    destruct Hk as [[] | Hk]. apply in_map_iff in Hk.
    destruct Hk as (r & <- & Hr).
    unfold compute_pairwise_sequence_distances in Hr.
    apply in_map_iff in Hr. destruct Hr as ([a b] & <- & Hp).
    apply in_flat_map in Hp. destruct Hp as (a' & Ha' & Hp).
    apply in_map_iff in Hp. destruct Hp as (b' & Heq & _).
    injection Heq as <- <-. exact Ha'. }
  intros a Ha.
  assert (Hnil : keys_sorted []) by constructor.
  destruct (groupby_fold_spec (compute_pairwise_sequence_distances members) []
              Hnil) as [Hsorted _].
  fold (groupby_sum (compute_pairwise_sequence_distances members)) in Hsorted.
  rewrite Hg in Hsorted. unfold keys_sorted in Hsorted. simpl in Hsorted.
  inversion Hsorted as [|? ? _ Hall]; subst.
  assert (Hkey : In a (map fst (groupby_sum
                                  (compute_pairwise_sequence_distances members)))).
  { unfold groupby_sum. apply groupby_keys. right.
    apply in_map_iff.
    exists {| element_1 := a; element_2 := a;
              distance := get_distance (a, a) members |}.
    split; [reflexivity|].
    unfold compute_pairwise_sequence_distances. apply in_map_iff.
    exists (a, a). split; [reflexivity|].
    apply in_flat_map. exists a. split; [exact Ha|].
    apply in_map_iff. exists a. auto. }
  rewrite Hg in Hkey. simpl in Hkey. destruct Hkey as [<- | Hkey]; [left; reflexivity|].
  right. rewrite Forall_forall in Hall. apply Hall. exact Hkey.
Qed.

Lemma representative_is_least_accession_witness :
  exists k,
    cluster_representative
      [ member "C" "AATT"; member "B" "AAAT"; member "A" "TTTT" ] = Ok k /\
    In k ["C"; "B"; "A"] /\
    forall a, In a ["C"; "B"; "A"] -> a = k \/ String.compare k a = Lt.
Proof.
  apply (representative_is_least_accession (member "C" "AATT") (member "B" "AAAT")
           [member "A" "TTTT"] "AATT"); [reflexivity | discriminate].
Defined.

(** ** ClusterAssigner: the names translator and the cluster report *)

Lemma fake_name_inj (i j : nat) :
  ("S" ++ pretty i)%string = ("S" ++ pretty j)%string -> i = j.
Proof. intros H. injection H as H. exact (inj pretty _ _ H). Qed.

Lemma name_elements_invariant (elements : list element) (st : naming) :
  (forall elm f, elm_to_fake_name st !! elm = Some f ->
                 fake_name_to_elm st !! f = Some elm) ->
  (forall f elm, fake_name_to_elm st !! f = Some elm ->
                 exists i, i < counter st /\ f = ("S" ++ pretty i)%string) ->
  let st' := fold_left naming_step elements st in
  (forall elm f, elm_to_fake_name st' !! elm = Some f ->
                 fake_name_to_elm st' !! f = Some elm) /\
  (forall f elm, fake_name_to_elm st' !! f = Some elm ->
                 exists i, i < counter st' /\ f = ("S" ++ pretty i)%string) /\
  counter st' = counter st + length elements.
Proof.
  revert st. induction elements as [|row elements IH]; intros st H1 H2; simpl.
  - split; [exact H1|]. split; [exact H2 | lia].
  - destruct (IH (naming_step st row)) as (I1 & I2 & I3).
    + simpl. intros elm f Hl.
      destruct (decide (elm = accession row ++ "_" ++ taxon_name row)%string)
        as [-> | Hne].
      * rewrite lookup_insert_eq in Hl. injection Hl as <-.
        apply lookup_insert_eq.
      * rewrite lookup_insert_ne in Hl by congruence.
        rewrite lookup_insert_ne; [apply H1, Hl|].
        intros <-. destruct (H2 _ _ (H1 _ _ Hl)) as (i & Hi & Hf).
        apply fake_name_inj in Hf. lia.
    + simpl. intros f elm Hl.
      destruct (decide (f = "S" ++ pretty (counter st))%string) as [-> | Hne].
      * exists (counter st). split; [lia | reflexivity].
      * rewrite lookup_insert_ne in Hl by congruence.
        destruct (H2 _ _ Hl) as (i & Hi & Hf). exists i. split; [lia | exact Hf].
    + split; [exact I1|]. split; [exact I2|]. rewrite I3. simpl. lia.
Qed.

(** X19: the two dictionaries built from the elements agree: the fake name
    recorded for an element translates back to that element, every fake
    name is [S] followed by a row position, and the counter ends at the
    number of rows. *)
Theorem name_elements_round_trip (elements : list element) :
  let st := name_elements elements in
  (forall elm f, elm_to_fake_name st !! elm = Some f ->
                 fake_name_to_elm st !! f = Some elm) /\
  (forall f elm, fake_name_to_elm st !! f = Some elm ->
                 exists i, i < length elements /\ f = ("S" ++ pretty i)%string) /\
  counter st = length elements.
Proof.
  unfold name_elements.
  destruct (name_elements_invariant elements
              {| elm_to_fake_name := ∅; fake_name_to_elm := ∅; elm_to_seq := [];
                 counter := 0 |}) as (I1 & I2 & I3).
  - simpl. intros elm f H. rewrite lookup_empty in H. discriminate.
  - simpl. intros f elm H. rewrite lookup_empty in H. discriminate.
  - simpl in *. split; [exact I1|]. split; [|exact I3].
    intros f elm H. destruct (I2 f elm H) as (i & Hi & Hf).
    exists i. split; [lia | exact Hf].
Qed.



Lemma parse_cluster_members (fake_name_to_elm : gmap string string)
  (cluster : string) (cluster_id : Z) (members : list string) :
  parse_cluster fake_name_to_elm cluster = Ok (cluster_id, members) ->
  Forall (fun member => exists f, fake_name_to_elm !! f = Some member) members.
Proof.
  unfold parse_cluster. destruct (str_split cluster nl) as [|head lines];
    [discriminate|].
  destruct (parse_int64 head) as [n|]; simpl; [|discriminate].
  match goal with
  | |- context [rmapM ?f ?l] => destruct (rmapM f l) as [ms|] eqn:E
  end; simpl; [|discriminate].
  intros H. injection H as <- <-.
  refine (rmapM_ok_forall _ _ _ _ _ E).
  intros x y. destruct (member_search x) as [f|]; simpl; [|discriminate].
  destruct (fake_name_to_elm !! f) as [member|] eqn:Ef; [|discriminate].
  intros H. injection H as <-. eauto.
Qed.

Lemma update_members_lookup (members : list string) (cluster_id : Z)
  (m0 : gmap string Z) (elm : string) (v : Z) :
  fold_left (fun m member => <[member := cluster_id]> m) members m0 !! elm = Some v ->
  (In elm members /\ v = cluster_id) \/ m0 !! elm = Some v.
Proof.
  revert m0. induction members as [|x members IH]; intros m0; simpl; [auto|].
  intros H. destruct (IH _ H) as [[Hin ->] | Hl]; [auto|].
  destruct (decide (elm = x)) as [-> | Hne].
  - rewrite lookup_insert_eq in Hl. injection Hl as <-. auto.
  - rewrite lookup_insert_ne in Hl by congruence. auto.
Qed.

Lemma parse_clusters_origin (fake_name_to_elm : gmap string string)
  (clusters : list string) (m0 m : gmap string Z) (elm : string) (v : Z) :
  parse_clusters fake_name_to_elm clusters m0 = Ok m ->
  m !! elm = Some v ->
  m0 !! elm = Some v \/
  exists cluster members,
    In cluster clusters /\
    parse_cluster fake_name_to_elm cluster = Ok (v, members) /\ In elm members.
Proof.
  revert m0. induction clusters as [|c clusters IH]; intros m0; simpl.
  - intros H. injection H as <-. auto.
  - destruct (parse_cluster fake_name_to_elm c) as [[cluster_id members]|] eqn:Ec;
      simpl; [|discriminate].
    intros Hrest Hl. destruct (IH _ Hrest Hl) as [H0 | (c' & ms & Hin & Hc' & Hm)].
    + apply update_members_lookup in H0. destruct H0 as [[Hin ->] | H0]; [|auto].
      right. exists c, members. auto.
    + right. exists c', ms. auto.
Qed.

(** X21: every element of the mapping returned from the cluster report is an
    element of the names translator, and its cluster number is the number
    read from the first line of a block of the report that lists it. *)
Theorem parse_clusters_known_elements (fake_name_to_elm : gmap string string)
  (clusters : list string) (elm_to_cluster : gmap string Z) :
  parse_clusters fake_name_to_elm clusters ∅ = Ok elm_to_cluster ->
  forall (elm : string) (cluster_id : Z),
    elm_to_cluster !! elm = Some cluster_id ->
    (exists f, fake_name_to_elm !! f = Some elm) /\
    exists cluster members,
      In cluster clusters /\
      parse_cluster fake_name_to_elm cluster = Ok (cluster_id, members) /\
      In elm members.
Proof.
  intros Hp elm cluster_id Hl.
  destruct (parse_clusters_origin _ _ _ _ _ _ Hp Hl)
    as [H0 | (c & ms & Hin & Hc & Hm)].
  - rewrite lookup_empty in H0. discriminate.
  - split; [|exists c, ms; auto].
    pose proof (parse_cluster_members _ _ _ _ Hc) as Hall.
    rewrite Forall_forall in Hall. apply Hall. exact Hm.
Qed.

Lemma parse_clusters_known_elements_witness :
  exists f, ({[ "S0" := "A_Coronaviridae" ]} : gmap string string) !! f
            = Some "A_Coronaviridae".
Proof.
  destruct (parse_clusters {[ "S0" := "A_Coronaviridae" ]}
              [(" 0" ++ nl ++ "0       4nt, >S0... *" ++ nl)%string] ∅)
    as [m|] eqn:E; [|vm_compute in E; discriminate].
  refine (proj1 (parse_clusters_known_elements _ _ m E "A_Coronaviridae" 0%Z _)).
  apply (f_equal (fun r => match r with
                           | Ok m => m !! "A_Coronaviridae"
                           | Raise _ => None
                           end)) in E.
  rewrite <- E. vm_compute. reflexivity.
Defined.

(** the pieces of [s.split(sep)] are never none *)
Lemma split_go_not_nil (sep : string) (skip : nat) (cur s : string) :
  split_go sep skip cur s <> [].
Proof.
  revert skip cur. induction s as [|c s IH]; intros skip cur; simpl; [discriminate|].
  destruct skip; [|apply IH].
  destruct (starts_with sep (String c s)); [discriminate | apply IH].
Qed.

Lemma split_dots (name post cur : string) :
  contains name "." = false ->
  exists y ys,
    split_go "..." 0 cur (name ++ "..." ++ post)
    = string_rev_append cur name :: y :: ys.
Proof.
  revert cur. induction name as [|c name IH]; intros cur Hno.
  - simpl.
    match goal with
    | |- context [split_go ?a ?b ?c ?d] =>
        destruct (split_go a b c d) as [|y ys] eqn:E
    end; [apply split_go_not_nil in E; destruct E|].
    exists y, ys. reflexivity.
  - apply contains_cons in Hno. destruct Hno as [Hc Hn].
    change (String c name ++ "..." ++ post)%string
      with (String c (name ++ "..." ++ post)).
    assert (Hs : starts_with "..." (String c (name ++ "..." ++ post)) = false).
    { unfold starts_with in *. cbn [strip_prefix] in *.
      destruct (Ascii.eqb "." c); [discriminate Hc | reflexivity]. }
    cbn [split_go]. rewrite Hs.
    destruct (IH (String c cur) Hn) as (y & ys & E). exists y, ys.
    rewrite E. reflexivity.
Qed.

Lemma after_char_app (c : ascii) (pre rest : string) :
  contains pre (String c EmptyString) = false ->
  after_char c (pre ++ String c rest) = Some rest.
Proof.
  induction pre as [|a pre IH]; intros Hno.
  - simpl. rewrite Ascii.eqb_refl. reflexivity.
  - apply contains_cons in Hno. destruct Hno as [Ha Hn].
    change (String a pre ++ String c rest)%string
      with (String a (pre ++ String c rest)).
    cbn [after_char]. unfold starts_with in Ha. cbn [strip_prefix] in Ha.
    rewrite Ascii.eqb_sym. destruct (Ascii.eqb c a); [discriminate Ha | apply IH, Hn].
Qed.

(** X22: on a line of the cluster report in the format of CD-HIT, any text
    without [>], then [>], a name without a dot, three dots and any text,
    the member pattern extracts exactly the name. *)
Theorem member_search_round_trip (pre name post : string) :
  contains pre ">" = false -> contains name "." = false ->
  member_search (pre ++ ">" ++ name ++ "..." ++ post) = Ok name.
Proof.
  intros Hpre Hname. unfold member_search.
  change (pre ++ ">" ++ name ++ "..." ++ post)%string
    with (pre ++ String ">" (name ++ "..." ++ post))%string.
  rewrite (after_char_app _ _ _ Hpre). unfold before_first, str_split.
  destruct (split_dots name post EmptyString Hname) as (y & ys & E).
  rewrite E. reflexivity.
Qed.

Lemma member_search_round_trip_witness :
  member_search "0       4nt, >S12... at +/98.50%" = Ok "S12".
Proof.
  apply (member_search_round_trip "0       4nt, " "S12" " at +/98.50%");
    reflexivity.
Defined.

(** ** From element names back to accessions *)

Lemma accession_go_plain (acc rest cur : string) :
  plain_accession acc = true ->
  (forall d t, rest = String d t -> is_digit d = false) ->
  accession_go cur (acc ++ String "_" rest)
  = match rest with
    | EmptyString => None
    | String _ _ => Some (string_rev_append cur acc)
    end.
Proof.
  revert cur. induction acc as [|c acc IH]; intros cur Hp Hrest.
  - change (EmptyString ++ String "_" rest)%string with (String "_" rest).
    cbn [accession_go]. rewrite Ascii.eqb_refl.
    destruct rest as [|d t]; [reflexivity|].
    rewrite (Hrest d t eq_refl). reflexivity.
  - cbn [plain_accession] in Hp.
    apply andb_true_iff in Hp. destruct Hp as [Hp Hacc].
    apply andb_true_iff in Hp. destruct Hp as [Hnl Hus].
    change (String c acc ++ String "_" rest)%string
      with (String c (acc ++ String "_" rest)).
    cbn [accession_go].
    assert (Hcond : Ascii.eqb c "_"
                    && match (acc ++ String "_" rest)%string with
                       | String d _ => negb (is_digit d)
                       | EmptyString => false
                       end = false).
    { destruct (Ascii.eqb c "_"); [|reflexivity].
      destruct acc as [|d acc']; [discriminate Hus|].
      simpl. rewrite Hus. reflexivity. }
    rewrite Hcond. apply negb_true_iff in Hnl. rewrite Hnl.
    rewrite (IH (String c cur) Hacc Hrest).
    destruct rest; reflexivity.
Qed.

Lemma accession_go_no_underscore (s cur : string) :
  contains s "_" = false -> accession_go cur s = None.
Proof.
  revert cur. induction s as [|c s IH]; intros cur Hno; [reflexivity|].
  apply contains_cons in Hno. destruct Hno as [Hc Hs].
  unfold starts_with in Hc. cbn [strip_prefix] in Hc.
  cbn [accession_go]. rewrite Ascii.eqb_sym.
  destruct (Ascii.eqb "_" c); [discriminate Hc|]. cbn [andb].
  destruct (Ascii.eqb c (ascii_of_nat 10)); apply IH, Hs.
Qed.

Lemma accession_go_digit (acc cur : string) (d : ascii) (t : string) :
  plain_accession acc = true -> is_digit d = true -> contains t "_" = false ->
  accession_go cur (acc ++ String "_" (String d t)) = None.
Proof.
  intros Hp Hd Hno. revert cur Hp. induction acc as [|c acc IH]; intros cur Hp.
  - change (EmptyString ++ String "_" (String d t))%string
      with (String "_" (String d t)).
    assert (Hd_ : Ascii.eqb d "_" = false).
    { destruct (Ascii.eqb d "_") eqn:Ed; [|reflexivity].
      apply Ascii.eqb_eq in Ed. subst d. discriminate Hd. }
    assert (Hd_nl : Ascii.eqb d (ascii_of_nat 10) = false).
    { destruct (Ascii.eqb d (ascii_of_nat 10)) eqn:Ed; [|reflexivity].
      apply Ascii.eqb_eq in Ed. subst d. discriminate Hd. }
    cbn [accession_go]. rewrite Ascii.eqb_refl, Hd. cbn [negb andb].
    change (Ascii.eqb "_" (ascii_of_nat 10)) with false. cbv iota.
    rewrite Hd_. cbn [andb]. rewrite Hd_nl.
    apply accession_go_no_underscore, Hno.
  - cbn [plain_accession] in Hp.
    apply andb_true_iff in Hp. destruct Hp as [Hp Hrec].
    apply andb_true_iff in Hp. destruct Hp as [Hnl Hus].
    change (String c acc ++ String "_" (String d t))%string
      with (String c (acc ++ String "_" (String d t))).
    cbn [accession_go].
    assert (Hcond : Ascii.eqb c "_"
                    && match (acc ++ String "_" (String d t))%string with
                       | String d0 _ => negb (is_digit d0)
                       | EmptyString => false
                       end = false).
    { destruct (Ascii.eqb c "_"); [|reflexivity].
      destruct acc as [|d0 acc']; [discriminate Hus|].
      simpl. rewrite Hus. reflexivity. }
    rewrite Hcond. apply negb_true_iff in Hnl. rewrite Hnl.
    apply (IH _ Hrec).
Qed.

(** X23: the accession is recovered from the element name
    [accession_taxon] that [get_cdhit_clusters] builds, for an accession in
    which every underscore is followed by a digit, exactly when the taxon
    name begins with a character other than a digit; with an empty taxon
    name, or one that begins with a digit and holds no underscore, the
    search finds nothing and [.group] raises [AttributeError]. *)
Theorem accession_search_round_trip (row : element) :
  plain_accession (accession row) = true ->
  (forall d t, taxon_name row = String d t -> is_digit d = false ->
               accession_search (element_name row) = Ok (accession row)) /\
  (forall d t, taxon_name row = String d t -> is_digit d = true ->
               contains t "_" = false ->
               accession_search (element_name row) = Raise AttributeError) /\
  (taxon_name row = EmptyString ->
   accession_search (element_name row) = Raise AttributeError).
Proof.
  intros Hp. unfold accession_search, element_name.
  change (accession row ++ "_" ++ taxon_name row)%string
    with (accession row ++ String "_" (taxon_name row))%string.
  split; [|split].
  - intros d t Ht Hd. rewrite Ht, accession_go_plain; [reflexivity | exact Hp |].
    intros d' t' E. injection E as <- <-. exact Hd.
  - intros d t Ht Hd Hno. rewrite Ht, accession_go_digit; auto.
  - intros Ht. rewrite Ht, accession_go_plain; [reflexivity | exact Hp |].
    intros d t E. discriminate E.
Qed.

Lemma accession_search_round_trip_witness :
  accession_search "NC_045512_Coronaviridae" = Ok "NC_045512" /\
  accession_search "MN908947_2019-nCoV" = Raise AttributeError.
Proof.
  split.
  - apply (proj1 (accession_search_round_trip
                    {| accession := "NC_045512"; taxon_name := "Coronaviridae";
                       sequence := None |} eq_refl) "C"%char "oronaviridae");
      reflexivity.
  - apply (proj1 (proj2 (accession_search_round_trip
                    {| accession := "MN908947"; taxon_name := "2019-nCoV";
                       sequence := None |} eq_refl)) "2"%char "019-nCoV");
      reflexivity.
Defined.

(** ** File names of the species *)

Lemma starts_with_char (c x : ascii) (s : string) :
  starts_with (String c EmptyString) (String x s) = Ascii.eqb c x.
Proof.
  unfold starts_with. cbn [strip_prefix]. destruct (Ascii.eqb c x); reflexivity.
Qed.

Lemma contains_app_char (c : ascii) (a b : string) :
  contains (a ++ b) (String c EmptyString)
  = contains a (String c EmptyString) || contains b (String c EmptyString).
Proof.
  induction a as [|x a IH].
  - change (EmptyString ++ b)%string with b. destruct b; reflexivity.
  - change (String x a ++ b)%string with (String x (a ++ b)).
    cbn [contains]. rewrite !starts_with_char, IH, orb_assoc. reflexivity.
Qed.

Lemma string_app_assoc (a b c : string) :
  ((a ++ b) ++ c)%string = (a ++ (b ++ c))%string.
Proof.
  induction a as [|x a IH]; [reflexivity|].
  change (String x ((a ++ b) ++ c) = String x (a ++ (b ++ c))). f_equal. exact IH.
Qed.

Lemma is_alnum_not_dot (c : ascii) : is_alnum c = true -> Ascii.eqb "." c = false.
Proof.
  intros H. destruct (Ascii.eqb "." c) eqn:E; [|reflexivity].
  apply Ascii.eqb_eq in E. subst c. discriminate H.
Qed.

Lemma sub_go_no_dot (in_run : bool) (s : string) :
  contains (sub_go in_run s) "." = false.
Proof.
  revert in_run. induction s as [|c s IH]; intros in_run; [reflexivity|].
  cbn [sub_go]. destruct (is_alnum c) eqn:Ec.
  - cbn [contains]. rewrite starts_with_char, (is_alnum_not_dot c Ec), IH.
    reflexivity.
  - destruct in_run; [apply IH|].
    cbn [contains]. rewrite starts_with_char, IH. reflexivity.
Qed.

Lemma sub_go_idempotent (s : string) :
  sub_go true (sub_go true s) = sub_go true s /\
  forall in_run, sub_go false (sub_go in_run s) = sub_go in_run s.
Proof.
  induction s as [|c s [IHt IHf]]; [split; [|intros []]; reflexivity|].
  cbn [sub_go]. destruct (is_alnum c) eqn:Ec.
  - split; [|intros in_run]; cbn [sub_go]; rewrite Ec, (IHf false); reflexivity.
  - split; [exact IHt|]. intros [|]; [apply IHf|].
    cbn [sub_go]. change (is_alnum "_") with false. cbv iota.
    rewrite IHt. reflexivity.
Qed.

Lemma sub_go_alphabet (in_run : bool) (s : string) :
  Forall (fun c => is_alnum c = true \/ c = "_"%char)
         (list_ascii_of_string (sub_go in_run s)).
Proof.
  revert in_run. induction s as [|c s IH]; intros in_run; [constructor|].
  cbn [sub_go]. destruct (is_alnum c) eqn:Ec.
  - cbn [list_ascii_of_string]. constructor; [left; exact Ec | apply IH].
  - destruct in_run; [apply IH|].
    cbn [list_ascii_of_string]. constructor; [right; reflexivity | apply IH].
Qed.

(** X24: the substitution that turns a species name into a file name is
    idempotent, and its result holds only ASCII letters, digits and
    underscores (in particular no dot and no path separator). *)
Theorem re_sub_non_alnum_idempotent (name : string) :
  re_sub_non_alnum (re_sub_non_alnum name) = re_sub_non_alnum name /\
  Forall (fun c => is_alnum c = true \/ c = "_"%char)
         (list_ascii_of_string (re_sub_non_alnum name)).
Proof.
  unfold re_sub_non_alnum. split.
  - apply (proj2 (sub_go_idempotent name)).
  - apply sub_go_alphabet.
Qed.

Lemma replace_dot_app (new a b : string) :
  replace_go "." new 0 (a ++ b)
  = (replace_go "." new 0 a ++ replace_go "." new 0 b)%string.
Proof.
  induction a as [|x a IH]; [reflexivity|].
  change (String x a ++ b)%string with (String x (a ++ b)).
  cbn [replace_go]. rewrite !starts_with_char.
  change (String.length "." - 1) with 0. rewrite IH.
  destruct (Ascii.eqb "." x); [rewrite string_app_assoc|]; reflexivity.
Qed.

Lemma replace_dot_longer (s : string) :
  contains s "." = true ->
  String.length s < String.length (replace_go "." "_aligned." 0 s).
Proof.
  induction s as [|x s IH]; [discriminate|].
  cbn [contains replace_go]. rewrite starts_with_char.
  change (String.length "." - 1) with 0.
  pose proof (replace_dot_length s) as Hle.
  destruct (Ascii.eqb "." x); cbn [orb].
  - intros _. rewrite string_length_append. simpl. simpl in Hle. lia.
  - intros H. specialize (IH H). simpl. simpl in IH. lia.
Qed.

Lemma replace_after_dotfree (old' new pre rest : string) :
  contains pre "." = false ->
  replace_go (String "." old') new 0 (pre ++ rest)
  = (pre ++ replace_go (String "." old') new 0 rest)%string.
Proof.
  induction pre as [|x pre IH]; intros Hno; [reflexivity|].
  apply contains_cons in Hno. destruct Hno as [Hx Hpre].
  rewrite starts_with_char in Hx.
  change (String x pre ++ rest)%string with (String x (pre ++ rest)).
  cbn [replace_go].
  assert (Hs : starts_with (String "." old') (String x (pre ++ rest)) = false).
  { unfold starts_with. cbn [strip_prefix]. rewrite Hx. reflexivity. }
  rewrite Hs, (IH Hpre). reflexivity.
Qed.

(** X25: the aligned file that the alignment strategy writes for a species
    is the file that the cleaning stage reads exactly when the sequence
    directory holds no dot (a dot of the directory is replaced as well);
    in that case the similarity table too is written where the outlier
    stage reads it. *)
Theorem species_paths_agree (seq_data_dir virus_species_name : string) :
  (aligned_path (sequence_data_path seq_data_dir virus_species_name)
   = cleaning_input_path seq_data_dir virus_species_name
   <-> contains seq_data_dir "." = false) /\
  (contains seq_data_dir "." = false ->
   similarities_path (sequence_data_path seq_data_dir virus_species_name)
   = similarities_data_path seq_data_dir virus_species_name).
Proof.
  unfold aligned_path, similarities_path, str_replace, sequence_data_path,
    cleaning_input_path, similarities_data_path, re_sub_non_alnum.
  set (base := sub_go false virus_species_name).
  assert (Hbase : contains base "." = false) by apply sub_go_no_dot.
  assert (Htail : replace_go "." "_aligned." 0 ("/" ++ base ++ ".fasta")
                  = ("/" ++ base ++ "_aligned.fasta")%string).
  { rewrite (replace_dot_app _ "/"), (replace_dot_app _ base).
    rewrite (replace_absent base) by exact Hbase. reflexivity. }
  split; [split|].
  - intros E. rewrite replace_dot_app, Htail in E.
    destruct (contains seq_data_dir ".") eqn:Ec; [|reflexivity].
    apply (f_equal String.length) in E. rewrite !string_length_append in E.
    pose proof (replace_dot_longer seq_data_dir Ec). lia.
  - intros Hdir. rewrite replace_dot_app, Htail.
    rewrite (replace_absent seq_data_dir) by exact Hdir. reflexivity.
  - intros Hdir.
    assert (Hpre : contains (seq_data_dir ++ "/" ++ base) "." = false).
    { rewrite !contains_app_char, Hdir, Hbase. reflexivity. }
    rewrite <- !string_app_assoc.
    rewrite (string_app_assoc seq_data_dir "/" base).
    rewrite (replace_after_dotfree _ _ _ _ Hpre). reflexivity.
Qed.

(** ** The pairwise strategy *)

(** X26: on an existing input the pairwise strategy returns no value.  With
    two or more sequences the look-up of a pair of records in the
    dictionary of alignments raises [TypeError] before anything is written;
    with fewer than two there is no pair: the empty dictionary is pickled
    next to the input and [np.min] of the empty list raises [ValueError]. *)
Theorem pairwise_strategy_raises (ext : externals) (path : string) (w : world)
  (content : string) :
  files w !! path = Some content ->
  (2 <= length (SeqIO_parse ext content) ->
   get_sequences_similarity_with_pairwise_alignments ext path w
   = (Raise TypeError, w)) /\
  (length (SeqIO_parse ext content) < 2 ->
   get_sequences_similarity_with_pairwise_alignments ext path w
   = (Raise ValueError,
      {| files := <[str_replace path ".fasta" "_sequences_similarity.pickle"
                    := pickle_dumps_pairs ext []]> (files w);
         dirs := dirs w; history := history w |})).
Proof.
  intros Hc. unfold get_sequences_similarity_with_pairwise_alignments. run.
  rewrite (exists_in_file w path content Hc). simpl.
  unfold parse_fasta, read_file. run. rewrite Hc. simpl.
  destruct (SeqIO_parse ext content) as [|a [|b l]]; simpl; split; intros Hn;
    try lia; reflexivity.
Qed.

Lemma pairwise_strategy_raises_witness :
  fst (get_sequences_similarity_with_pairwise_alignments ref_ext "d/x.fasta"
         fresh_world) = Raise TypeError /\
  fst (get_sequences_similarity_with_pairwise_alignments ref_ext "e.fasta"
         (world_of [("e.fasta", "")])) = Raise ValueError.
Proof.
  split.
  - rewrite (proj1 (pairwise_strategy_raises ref_ext "d/x.fasta" fresh_world
                      three_sequences eq_refl)); [reflexivity | vm_compute; lia].
  - rewrite (proj2 (pairwise_strategy_raises ref_ext "e.fasta"
                      (world_of [("e.fasta", "")]) "" eq_refl));
      [reflexivity | vm_compute; lia].
Defined.

(** ** The accessions that are kept, written and read back *)

Lemma split_semicolon_last (a cur : string) :
  contains a ";" = false ->
  split_go ";" 0 cur a = [string_rev_append cur a].
Proof.
  revert cur. induction a as [|c a IH]; intros cur Hno; [reflexivity|].
  apply contains_cons in Hno. destruct Hno as [Hc Ha].
  cbn [split_go]. rewrite Hc. rewrite (IH _ Ha). reflexivity.
Qed.

Lemma split_semicolon_cons (a rest cur : string) :
  contains a ";" = false ->
  split_go ";" 0 cur (a ++ String ";" rest)
  = string_rev_append cur a :: split_go ";" 0 EmptyString rest.
Proof.
  revert cur. induction a as [|c a IH]; intros cur Hno.
  - change (EmptyString ++ String ";" rest)%string with (String ";" rest).
    cbn [split_go]. rewrite starts_with_char. reflexivity.
  - apply contains_cons in Hno. destruct Hno as [Hc Ha].
    rewrite starts_with_char in Hc.
    change (String c a ++ String ";" rest)%string
      with (String c (a ++ String ";" rest)).
    cbn [split_go]. rewrite starts_with_char, Hc. rewrite (IH _ Ha). reflexivity.
Qed.

Lemma split_join_semicolon (x : string) (l : list string) :
  Forall (fun a => contains a ";" = false) (x :: l) ->
  str_split (str_join ";" (x :: l)) ";" = x :: l.
Proof.
  revert x. induction l as [|y l IH]; intros x Hall.
  - apply Forall_inv in Hall. unfold str_split. cbn [str_join].
    rewrite split_semicolon_last by exact Hall. reflexivity.
  - unfold str_split in *.
    change (str_join ";" (x :: y :: l))
      with (x ++ String ";" (str_join ";" (y :: l)))%string.
    rewrite split_semicolon_cons by exact (Forall_inv Hall).
    rewrite (IH y (Forall_inv_tail Hall)). reflexivity.
Qed.

Lemma count_semicolons_app (a b : string) :
  count_semicolons (a ++ b) = count_semicolons a + count_semicolons b.
Proof.
  induction a as [|c a IH]; [reflexivity|].
  change (String c a ++ b)%string with (String c (a ++ b)).
  cbn [count_semicolons]. rewrite IH. lia.
Qed.

Lemma count_semicolons_absent (a : string) :
  contains a ";" = false -> count_semicolons a = 0.
Proof.
  induction a as [|c a IH]; [reflexivity|]. intros Hno.
  apply contains_cons in Hno. destruct Hno as [Hc Ha].
  rewrite starts_with_char in Hc.
  cbn [count_semicolons]. rewrite Ascii.eqb_sym, Hc, (IH Ha). reflexivity.
Qed.

Lemma count_join_semicolon (x : string) (l : list string) :
  Forall (fun a => contains a ";" = false) (x :: l) ->
  count_semicolons (str_join ";" (x :: l)) = length l.
Proof.
  revert x. induction l as [|y l IH]; intros x Hall.
  - cbn [str_join]. apply count_semicolons_absent. exact (Forall_inv Hall).
  - change (str_join ";" (x :: y :: l))
      with (x ++ String ";" (str_join ";" (y :: l)))%string.
    rewrite count_semicolons_app.
    rewrite (count_semicolons_absent x) by exact (Forall_inv Hall).
    cbn [count_semicolons]. rewrite (IH y (Forall_inv_tail Hall)). simpl. lia.
Qed.

Lemma accessions_to_keep_In (accessions : list string) (outliers_idx : list nat)
  (a : string) :
  In a (accessions_to_keep accessions outliers_idx) -> In a accessions.
Proof.
  unfold accessions_to_keep. intros H. apply in_flat_map in H.
  destruct H as (idx & _ & H).
  destruct (existsb (Nat.eqb idx) outliers_idx); [destruct H|].
  destruct (accessions !! idx) as [b|] eqn:E; [|destruct H].
  destruct H as [<- | []]. apply list_elem_of_In.
  eapply list_elem_of_lookup_2, E.
Qed.

(** X27: the string of kept accessions, split at its semicolons, gives back
    the kept accessions, and its count of semicolons plus one is their
    number, as long as no accession holds a semicolon and one accession at
    least is kept; when none is kept the string is empty, which reads back
    as one empty accession and is counted as one sequence. *)
Theorem relevant_accessions_round_trip (accessions : list string)
  (outliers_idx : list nat) :
  Forall (fun a => contains a ";" = false) accessions ->
  let kept := accessions_to_keep accessions outliers_idx in
  let text := relevant_accessions accessions outliers_idx in
  (kept <> [] ->
   selected_accessions text = kept /\ relevant_sequences text = length kept) /\
  (kept = [] ->
   selected_accessions text = [EmptyString] /\ relevant_sequences text = 1).
Proof.
  intros Hall kept text.
  assert (Hkept : Forall (fun a => contains a ";" = false) kept).
  { apply Forall_forall. intros a Ha.
    rewrite Forall_forall in Hall. apply Hall.
    apply (accessions_to_keep_In _ outliers_idx). exact Ha. }
  unfold text, relevant_accessions, selected_accessions, relevant_sequences.
  fold kept. split.
  - intros Hne. destruct kept as [|x l]; [congruence|].
    rewrite split_join_semicolon, count_join_semicolon by exact Hkept.
    split; [reflexivity | simpl; lia].
  - intros ->. split; reflexivity.
Qed.

Lemma relevant_accessions_round_trip_witness :
  selected_accessions (relevant_accessions ["NC_1"; "NC_2"; "NC_3"] [1])
  = ["NC_1"; "NC_3"] /\
  selected_accessions (relevant_accessions ["NC_1"] [0]) = [EmptyString].
Proof.
  split.
  - apply (proj1 (relevant_accessions_round_trip ["NC_1"; "NC_2"; "NC_3"] [1]
                    ltac:(repeat constructor))).
    discriminate.
  - apply (proj2 (relevant_accessions_round_trip ["NC_1"] [0]
                    ltac:(repeat constructor))).
    reflexivity.
Defined.

(** ** ClusterAssigner: a run that writes its own input files *)

Lemma name_elements_values (elements : list element) (st : naming)
  (f elm : string) :
  fake_name_to_elm (fold_left naming_step elements st) !! f = Some elm ->
  fake_name_to_elm st !! f = Some elm \/
  exists row, In row elements /\ elm = element_name row.
Proof.
  revert st. induction elements as [|row elements IH]; intros st; simpl; [auto|].
  intros H. destruct (IH _ H) as [H0 | (r & Hr & ->)].
  - simpl in H0.
    destruct (decide (f = "S" ++ pretty (counter st))%string) as [-> | Hne].
    + rewrite lookup_insert_eq in H0. injection H0 as <-.
      right. exists row. split; [left; reflexivity | reflexivity].
    + rewrite lookup_insert_ne in H0 by congruence. auto.
  - right. exists r. auto.
Qed.

(** X28: when one of the two input files is missing, they are written from
    the elements, and every element name of the mapping returned is then the
    name [accession_taxon] of a row of the elements, provided the names
    translator is read back as it was written and [cd-hit-est] leaves it
    alone. *)
Theorem cdhit_clusters_from_elements (ext : externals) (elements : list element)
  (homology_threshold : float64) (memory_limit : Z) (aux_dir : string)
  (w w' : world) (elm_to_cluster : gmap string Z) :
  (forall names, pickle_loads_names ext (pickle_dumps_names ext names) = Ok names) ->
  (forall w1,
     files (snd (run_command ext
                   (cdhit_est_cmd ext (aux_dir ++ "/sequences.fasta")%string
                      (aux_dir ++ "/cdhit_out_thr_"
                       ++ float_str ext homology_threshold)%string
                      homology_threshold (word_len homology_threshold)
                      memory_limit (aux_dir ++ "/cdhit.log")%string) w1))
     !! (aux_dir ++ "/names_translator.pickle")%string
     = files w1 !! (aux_dir ++ "/names_translator.pickle")%string) ->
  exists_in w (aux_dir ++ "/sequences.fasta")%string = false \/
  exists_in w (aux_dir ++ "/names_translator.pickle")%string = false ->
  get_cdhit_clusters ext elements homology_threshold memory_limit aux_dir w
  = (Ok elm_to_cluster, w') ->
  forall (elm : string) (cluster_id : Z),
    elm_to_cluster !! elm = Some cluster_id ->
    exists row, In row elements /\ elm = element_name row.
Proof.
  intros Hpickle Hkeep Hmissing. unfold get_cdhit_clusters. run.
  assert (Hb : forall x y : bool, x = false \/ y = false -> negb x || negb y = true)
    by (intros [] [] [|]; auto).
  assert (Hmissing' :
            negb (exists_in {| files := files w; dirs := {[aux_dir]} ∪ dirs w;
                               history := history w |}
                            (aux_dir ++ "/sequences.fasta"))
            || negb (exists_in {| files := files w; dirs := {[aux_dir]} ∪ dirs w;
                                  history := history w |}
                               (aux_dir ++ "/names_translator.pickle")) = true).
  { apply Hb. unfold exists_in in *. simpl.
    destruct Hmissing as [H | H]; [left | right];
      apply orb_false_iff in H; destruct H as [Hf Hd]; rewrite Hf; simpl;
      apply bool_decide_eq_false; apply bool_decide_eq_false in Hd;
      intros Hmem; apply elem_of_union in Hmem;
      (destruct Hmem as [Hmem | Hmem]; [|tauto]);
      apply elem_of_singleton in Hmem; apply append_eq_self in Hmem;
      discriminate. }
  rewrite Hmissing'. simpl. unfold write_file. simpl.
  assert (Hparsed : forall text m,
             parse_clusters (fake_name_to_elm (name_elements elements))
               (tail (str_split text ">Cluster")) ∅ = Ok m ->
             forall elm cluster_id, m !! elm = Some cluster_id ->
               exists row, In row elements /\ elm = element_name row).
  { intros text m Hp elm cluster_id Hl.
    destruct (parse_clusters_origin _ _ _ _ _ _ Hp Hl)
      as [H0 | (c & ms & _ & Hc & Hm)].
    - rewrite lookup_empty in H0. discriminate.
    - pose proof (parse_cluster_members _ _ _ _ Hc) as Hall.
      rewrite Forall_forall in Hall. destruct (Hall _ Hm) as [f Hf].
      unfold name_elements in Hf. apply name_elements_values in Hf.
      destruct Hf as [Hf | Hf]; [|exact Hf].
      simpl in Hf. rewrite lookup_empty in Hf. discriminate. }
  match goal with
  | |- context [exists_in ?x ?p] => destruct (exists_in x p)
  end; simpl.
  - unfold read_file. simpl. rewrite lookup_insert_eq. simpl.
    rewrite Hpickle. simpl.
    match goal with
    | |- context [match ?x with Some _ => _ | None => _ end] =>
        destruct x as [text|]
    end; simpl; [|discriminate].
    destruct (parse_clusters _ _ _) as [m|] eqn:Hp; simpl; [|discriminate].
    intros H. injection H as <- <-. exact (Hparsed text m Hp).
  - rewrite os_system_eq. simpl.
    match goal with
    | |- context [(?x =? 0)%Z] => destruct (x =? 0)%Z
    end; simpl; [|discriminate].
    unfold read_file. simpl. rewrite Hkeep. simpl. rewrite lookup_insert_eq. simpl.
    rewrite Hpickle. simpl.
    match goal with
    | |- context [match ?x with Some _ => _ | None => _ end] =>
        destruct x as [text|]
    end; simpl; [|discriminate].
    destruct (parse_clusters _ _ _) as [m|] eqn:Hp; simpl; [|discriminate].
    intros H. injection H as <- <-. exact (Hparsed text m Hp).
Qed.

Lemma cdhit_clusters_from_elements_witness :
  exists row, In row abc_members /\ "C_Coronaviridae" = element_name row.
Proof.
  set (w := world_of [ ("/aux/cdhit_out_thr_0.99", "");
                       ("/aux/cdhit_out_thr_0.99.clstr",
                        (">Cluster 0" ++ nl ++ "0 4nt, >S0... *" ++ nl
                         ++ "1 4nt, >S2... at 75.00%" ++ nl)%string) ]).
  destruct (get_cdhit_clusters ref_ext abc_members (lit 99 100) 6000 "/aux" w)
    as [[m|e] w'] eqn:E; [|vm_compute in E; discriminate].
  refine (cdhit_clusters_from_elements ref_ext abc_members (lit 99 100) 6000 "/aux"
            w w' m _ _ _ E "C_Coronaviridae" 0%Z _).
  - intros names. simpl. rewrite positive_of_bits_of_positive. simpl.
    rewrite decode_encode. reflexivity.
  - intros w1. vm_compute. reflexivity.
  - left. vm_compute. reflexivity.
  - apply (f_equal (fun r => match fst r with
                             | Ok m => m !! "C_Coronaviridae"
                             | Raise _ => None
                             end)) in E.
    simpl in E. rewrite <- E. vm_compute. reflexivity.
Defined.
